(** * C-Star utilities: a shallow embedding of [cstar/base/utils.py]

    The development models the helper functions of [cstar.base.utils]:

    - [_calculate_node_distribution]: node / core arithmetic for batch jobs,
      computed in Python through [int / int] true division (IEEE-754
      binary64), [int - float] and [math.ceil];
    - [_get_hash_from_checkout_target] and [_clone_and_checkout]: wrappers
      around [git], run through [subprocess.run];
    - [_replace_text_in_file]: line-wise find and replace in a text file;
    - [_list_to_concise_str]: truncated rendering of a list;
    - [_get_repo_remote], [_get_repo_head_hash], [_write_to_config_file] and
      [_dict_to_tree];

    and the script of [cstar/base/environment.py], which sets the host
    settings and the environment variables on import.

    Python values are modelled as follows.  An [int] is a [Z].  A [float] is
    a [spec_float] of the Standard Library at precision 53 and maximal
    exponent 1024, with the library's round-to-nearest-even operations.  A
    [str] is a [string] whose characters are the code points 0..255.  An
    exception is a value of [exn] carried by the [Raise] constructor of
    [result].  Subprocesses and files are explicit: a shell oracle with a
    trace of events, and a store from paths to text files.  The body of
    [_calculate_node_distribution] is also held as syntax, to say which
    names it reads. *)

From Stdlib Require Import ZArith Lia List Bool Ascii String.
From Stdlib Require Import DecimalString DecimalPos SpecFloat QArith Qround.
Import ListNotations.

Open Scope string_scope.
Open Scope Z_scope.

(** ** Exceptions and results *)

Inductive exn : Type :=
| RuntimeError (msg : string)
| ValueError (msg : string)
| IndexError
| ZeroDivisionError
| OverflowError
| FileNotFoundError
| TypeError
| NameError
| UnboundLocalError
| UnicodeDecodeError
| UnicodeEncodeError.

Inductive result (A : Type) : Type :=
| Ok (a : A)
| Raise (e : exn).

Arguments Ok {A} a.
Arguments Raise {A} e.

Definition bind {A B : Type} (r : result A) (k : A -> result B) : result B :=
  match r with
  | Ok a => k a
  | Raise e => Raise e
  end.

Notation "x <- c ;; k" := (bind c (fun x => k))
  (at level 61, c at next level, right associativity).

(** ** Python floats *)

Module PyFloat.

(** An [int] operand taken exactly, before any rounding. *)
Definition raw (a : Z) : spec_float :=
  match a with
  | Z0 => S754_zero false
  | Zpos p => S754_finite false p 0
  | Zneg p => S754_finite true p 0
  end.

(** [a / b] on two [int]s: the correctly rounded quotient. *)
Definition int_truediv (a b : Z) : result spec_float :=
  if b =? 0 then Raise ZeroDivisionError
  else match SFdiv 53 1024 (raw a) (raw b) with
       | S754_infinity _ => Raise OverflowError
       | f => Ok f
       end.

(** Conversion of an [int] operand of a mixed operation. *)
Definition of_int (n : Z) : result spec_float :=
  match binary_normalize 53 1024 n 0 false with
  | S754_infinity _ => Raise OverflowError
  | f => Ok f
  end.

(** [n - x] for an [int] [n] and a [float] [x]. *)
Definition int_sub_float (n : Z) (x : spec_float) : result spec_float :=
  f <- of_int n ;; Ok (SFsub 53 1024 f x).

(** [math.ceil]. *)
Definition ceil (x : spec_float) : result Z :=
  match x with
  | S754_zero _ => Ok 0
  | S754_infinity _ => Raise OverflowError
  | S754_nan => Raise (ValueError "cannot convert float NaN to integer")
  | S754_finite s m e =>
      let v := cond_Zopp s (Zpos m) in
      Ok (if 0 <=? e then v * 2 ^ e else - (- v / 2 ^ (- e)))
  end.

End PyFloat.

(** ** Python strings *)

Module PyStr.

Definition newline : ascii := "010"%char.
Definition carriage_return : ascii := "013"%char.
Definition dquote : ascii := "034"%char.
Definition squote : ascii := "039"%char.
Definition backslash : ascii := "092"%char.

Definition nl : string := String newline EmptyString.

(** [str(n)] for an [int]. *)
Definition str_of_int (z : Z) : string :=
  NilEmpty.string_of_int (Z.to_int z).

(** [c * n] for a one-character string and an [int]. *)
Definition str_repeat (c : ascii) (n : Z) : string :=
  string_of_list_ascii (repeat c (Z.to_nat n)).

(** [sub in s]. *)
Fixpoint contains (sub s : string) : bool :=
  if prefix sub s then true
  else match s with
       | EmptyString => false
       | String _ s' => contains sub s'
       end.

(** [s.replace(old, new)] for a non-empty [old]: leftmost occurrences that
    do not overlap; [skip] counts the characters of a match still to drop. *)
Fixpoint replace_from (old new s : string) (skip : nat) : string :=
  match s with
  | EmptyString => EmptyString
  | String c s' =>
      match skip with
      | S k => replace_from old new s' k
      | O =>
          if prefix old s
          then new ++ replace_from old new s' (String.length old - 1)
          else String c (replace_from old new s' 0)
      end
  end.

Fixpoint interleave (new s : string) : string :=
  match s with
  | EmptyString => EmptyString
  | String c s' => String c (new ++ interleave new s')
  end.

(** [s.replace(old, new)]; an empty [old] matches before every character
    and at the end. *)
Definition replace (s old new : string) : string :=
  match old with
  | EmptyString => new ++ interleave new s
  | String _ _ => replace_from old new s 0
  end.

(** [sep.join(l)]. *)
Fixpoint join (sep : string) (l : list string) : string :=
  match l with
  | [] => EmptyString
  | [x] => x
  | x :: l' => x ++ sep ++ join sep l'
  end.

(** [str.isspace] on one character. *)
Definition is_space (c : ascii) : bool :=
  let n := N_of_ascii c in
  ((9 <=? n) && (n <=? 13) || (28 <=? n) && (n <=? 32)
   || (n =? 133) || (n =? 160))%N.

(** [s.split()]: the maximal runs of non-whitespace characters. *)
Fixpoint split_from (s cur : string) : list string :=
  match s with
  | EmptyString =>
      match cur with
      | EmptyString => []
      | String _ _ => [cur]
      end
  | String c s' =>
      if is_space c
      then match cur with
           | EmptyString => split_from s' EmptyString
           | String _ _ => cur :: split_from s' EmptyString
           end
      else split_from s' (cur ++ String c EmptyString)
  end.

Definition split (s : string) : list string := split_from s EmptyString.

Definition hex_digit (n : N) : ascii :=
  if (n <? 10)%N then ascii_of_N (48 + n) else ascii_of_N (87 + n).

Definition hex_escape (c : ascii) : string :=
  let n := N_of_ascii c in
  String backslash
    (String "x"%char (String (hex_digit (n / 16)) (String (hex_digit (n mod 16)) EmptyString))).

Definition has_char (c : ascii) (s : string) : bool :=
  existsb (Ascii.eqb c) (list_ascii_of_string s).

Definition repr_char (quote c : ascii) : string :=
  let n := N_of_ascii c in
  if Ascii.eqb c quote || Ascii.eqb c backslash
  then String backslash (String c EmptyString)
  else if (n =? 9)%N then String backslash "t"
  else if (n =? 10)%N then String backslash "n"
  else if (n =? 13)%N then String backslash "r"
  else if (n <? 32)%N || (n =? 127)%N then hex_escape c
  else if (n <? 127)%N then String c EmptyString
  else if (n <=? 160)%N || (n =? 173)%N then hex_escape c
  else String c EmptyString.

(** [repr(s)] for a [str]. *)
Definition repr (s : string) : string :=
  let quote :=
    if has_char squote s && negb (has_char dquote s) then dquote else squote in
  String quote
    (concat EmptyString (map (repr_char quote) (list_ascii_of_string s))
     ++ String quote EmptyString).

End PyStr.

(** ** Python lists *)

(** [l[i]], with negative indices counted from the end. *)
Definition list_index {A : Type} (l : list A) (i : Z) : result A :=
  let n := Z.of_nat (List.length l) in
  let j := if i <? 0 then i + n else i in
  if (0 <=? j) && (j <? n)
  then match nth_error l (Z.to_nat j) with
       | Some x => Ok x
       | None => Raise IndexError
       end
  else Raise IndexError.

(** An item of a list: a [str], or an object of another type, which is
    given by what [str()] and [repr()] return for it. *)
Inductive list_item : Type :=
| Str (s : string)
| Obj (as_str as_repr : string).

(** [repr(x)]. *)
Definition py_repr (x : list_item) : string :=
  match x with
  | Str s => PyStr.repr s
  | Obj _ r => r
  end.

(** [x] in a replacement field of an f-string, as [f"{x}"]. *)
Definition py_format (x : list_item) : string :=
  match x with
  | Str s => s
  | Obj s _ => s
  end.

(** The items handed to [str.join] must be [str]s. *)
Fixpoint join_operands (l : list list_item) : result (list string) :=
  match l with
  | [] => Ok []
  | Str s :: l' => rest <- join_operands l' ;; Ok (s :: rest)
  | Obj _ _ :: _ => Raise TypeError
  end.

(** ** Regular expressions, as far as [utils.py] uses them *)

Module Re.

Inductive item : Type :=
| Bol                                         (* ^ *)
| Eol                                         (* $ *)
| Repeat (cls : ascii -> bool) (count : nat). (* [...]{count} *)

Fixpoint take (cls : ascii -> bool) (n : nat) (s : string) : option string :=
  match n with
  | O => Some s
  | S k =>
      match s with
      | EmptyString => None
      | String c s' => if cls c then take cls k s' else None
      end
  end.

(** [$] matches at the end of the string and just before a newline that is
    the last character of the string. *)
Definition at_eol (s : string) : bool :=
  match s with
  | EmptyString => true
  | String c EmptyString => Ascii.eqb c PyStr.newline
  | String _ (String _ _) => false
  end.

Fixpoint match_here (p : list item) (at_start : bool) (s : string) : bool :=
  match p with
  | [] => true
  | Bol :: p' => at_start && match_here p' at_start s
  | Eol :: p' => at_eol s && match_here p' at_start s
  | Repeat cls n :: p' =>
      match take cls n s with
      | Some s' => match_here p' (at_start && Nat.eqb n 0) s'
      | None => false
      end
  end.

(** [bool(re.match(p, s))]: the pattern is tried at position 0 only. *)
Definition re_match (p : list item) (s : string) : bool :=
  match_here p true s.

(** The class [[0-9a-f]]. *)
Definition lower_hex (c : ascii) : bool :=
  let n := N_of_ascii c in
  ((48 <=? n) && (n <=? 57) || (97 <=? n) && (n <=? 102))%N.

(** [^[0-9a-f]{n}$] *)
Definition hex_pattern (n : nat) : list item := [Bol; Repeat lower_hex n; Eol].

End Re.

(** ** Subprocesses

    [subprocess.run(cmd, cwd=..., shell=True, capture_output=True, text=True)]
    asks a shell oracle, which sees the events so far, and records the call.
    With [cwd] given, Python changes to that directory before the shell
    starts; when it cannot ([cwd] is missing, is no directory, or may not be
    entered), [subprocess.run] itself raises and no command runs. *)

Record CompletedProcess : Type := {
  returncode : Z;
  stdout : string;
  stderr : string
}.

Inductive event : Type :=
| Run (cmd : string) (cwd : option string)
| Print (msg : string).

Record shell : Type := {
  (** what a command does, given the events so far, the command line and
      [cwd] *)
  run_command :> list event -> string -> option string -> CompletedProcess;
  (** the error raised when Python cannot enter the directory [cwd], given
      the events so far; [None] when it can *)
  cwd_error : list event -> string -> option exn
}.

Definition IO (A : Type) : Type := list event -> list event * result A.

Definition io_ret {A : Type} (a : A) : IO A := fun t => (t, Ok a).

Definition io_raise {A : Type} (e : exn) : IO A := fun t => (t, Raise e).

Definition io_bind {A B : Type} (c : IO A) (k : A -> IO B) : IO B :=
  fun t =>
    match c t with
    | (t', Ok a) => k a t'
    | (t', Raise e) => (t', Raise e)
    end.

Notation "x <~ c ;; k" := (io_bind c (fun x => k))
  (at level 61, c at next level, right associativity).

Definition subprocess_run (sh : shell) (cmd : string) (cwd : option string)
  : IO CompletedProcess :=
  fun t =>
    match match cwd with
          | Some dir => cwd_error sh t dir
          | None => None
          end with
    | Some e => (t, Raise e)
    | None => ((t ++ [Run cmd cwd])%list, Ok (sh t cmd cwd))
    end.

Definition print (msg : string) : IO unit :=
  fun t => ((t ++ [Print msg])%list, Ok tt).

(** ** Files: a store from paths to text files

    A text file is held by the text that its bytes decode to in the
    encoding of the locale, before any translation of newlines.  A file
    whose bytes do not decode is held by the lines that reading it yields
    before [UnicodeDecodeError] is raised.  Paths are resolved paths. *)

Inductive file_data : Type :=
| Text (content : string)
| Undecodable (lines_before_error : list string).

Definition files : Type := string -> option file_data.

Definition write_file (fs : files) (path : string) (data : file_data) : files :=
  fun p => if String.eqb p path then Some data else fs p.

Definition remove_file (fs : files) (path : string) : files :=
  fun p => if String.eqb p path then None else fs p.

(** [Path.rename]: the target is replaced. *)
Definition rename_file (fs : files) (src dst : string) : files :=
  match fs src with
  | Some data => write_file (remove_file fs src) dst data
  | None => fs
  end.

(** Reading in text mode, as [open(path, "r")] does: a carriage return
    followed by a newline, and a carriage return alone, are read as one
    newline. *)
Fixpoint universal_newlines (s : string) : string :=
  match s with
  | EmptyString => EmptyString
  | String c s' =>
      if Ascii.eqb c PyStr.carriage_return
      then String PyStr.newline
             match s' with
             | EmptyString => EmptyString
             | String c' s'' =>
                 if Ascii.eqb c' PyStr.newline
                 then universal_newlines s''
                 else universal_newlines s'
             end
      else String c (universal_newlines s')
  end.

(** Iterating over a text file: the lines, each with the newline that ends
    it; the last line may have none.  [cur] is the line read so far. *)
Fixpoint text_lines_from (s cur : string) : list string :=
  match s with
  | EmptyString =>
      match cur with
      | EmptyString => []
      | String _ _ => [cur]
      end
  | String c s' =>
      if Ascii.eqb c PyStr.newline
      then (cur ++ String c EmptyString) :: text_lines_from s' EmptyString
      else text_lines_from s' (cur ++ String c EmptyString)
  end.

Definition text_lines (s : string) : list string := text_lines_from s EmptyString.

(** ** The functions of [cstar/base/utils.py] *)

Definition _clone_and_checkout (sh : shell)
    (source_repo local_path checkout_target : string) : IO unit :=
  clone_result <~
    subprocess_run sh ("git clone " ++ source_repo ++ " " ++ local_path) None ;;
  if negb (returncode clone_result =? 0)
  then io_raise (RuntimeError
         (("Error " ++ PyStr.str_of_int (returncode clone_result)
           ++ " when cloning repository ")
          ++ (source_repo ++ " to " ++ local_path ++ ". Error messages: ")
          ++ (PyStr.nl ++ stderr clone_result)))
  else
    _ <~ print ("Cloned repository " ++ source_repo ++ " to " ++ local_path) ;;
    checkout_result <~
      subprocess_run sh ("git checkout " ++ checkout_target) (Some local_path) ;;
    if negb (returncode checkout_result =? 0)
    then io_raise (RuntimeError
           (("Error " ++ PyStr.str_of_int (returncode checkout_result)
             ++ " when checking out ")
            ++ (checkout_target ++ " in git repository " ++ local_path
                ++ ". Error messages: ")
            ++ (PyStr.nl ++ stderr checkout_result)))
    else
      print ("Checked out " ++ checkout_target ++ " in git repository " ++ local_path).

Definition invalid_reference (repo_url checkout_target : string) : exn :=
  ValueError
    (("supplied checkout_target (" ++ checkout_target ++ ") does not appear ")
     ++ ("to be a valid reference for this repository (" ++ repo_url ++ ")")).

Definition _get_hash_from_checkout_target (sh : shell)
    (repo_url checkout_target : string) : IO string :=
  let is_potential_hash :=
    Re.re_match (Re.hex_pattern 7) checkout_target
    || Re.re_match (Re.hex_pattern 40) checkout_target in
  ls <~ subprocess_run sh ("git ls-remote " ++ repo_url ++ " " ++ checkout_target) None ;;
  let ls_remote := stdout ls in
  if Nat.eqb (String.length ls_remote) 0
  then if is_potential_hash
       then io_ret checkout_target
       else io_raise (invalid_reference repo_url checkout_target)
  else fun t => (t, list_index (PyStr.split ls_remote) 0).

Definition _calculate_node_distribution (n_cores_required tot_cores_per_node : Z)
  : result (Z * Z) :=
  q <- PyFloat.int_truediv n_cores_required tot_cores_per_node ;;
  n_nodes_to_request <- PyFloat.ceil q ;;
  r <- PyFloat.int_truediv
         (n_nodes_to_request * tot_cores_per_node - n_cores_required)
         n_nodes_to_request ;;
  d <- PyFloat.int_sub_float tot_cores_per_node r ;;
  cores_to_request_per_node <- PyFloat.ceil d ;;
  Ok (n_nodes_to_request, cores_to_request_per_node).

(** The loop over the lines of the file: the flag, and the text written to
    the temporary file so far.  [encodable] tells which strings the encoding
    of the locale can write; writing another one raises
    [UnicodeEncodeError] and ends the loop. *)
Fixpoint replace_lines (encodable : string -> bool) (old_text new_text : string)
    (lines : list string) (text_replaced : bool) (written : string)
  : bool * string * option exn :=
  match lines with
  | [] => (text_replaced, written, None)
  | line :: rest =>
      let text_replaced := if PyStr.contains old_text line then true else text_replaced in
      let new_line := PyStr.replace line old_text new_text in
      if encodable new_line
      then replace_lines encodable old_text new_text rest text_replaced
             (written ++ new_line)
      else (text_replaced, written, Some UnicodeEncodeError)
  end.

(** [file_path] is taken as already resolved.  Written text is not
    translated, as on the systems [cstar.base.environment] knows (Linux and
    macOS).  Leaving the [with] block closes both files, also when the loop
    raises: the temporary file then holds what was written so far, and is
    not renamed. *)
Definition _replace_text_in_file (encodable : string -> bool) (fs : files)
    (file_path old_text new_text : string) : files * result bool :=
  let temp_file_path := file_path ++ ".tmp" in
  match fs file_path with
  | None => (fs, Raise FileNotFoundError)
  | Some data =>
      let fs1 := write_file fs temp_file_path (Text EmptyString) in
      let '(lines, read_error) :=
        match data with
        | Text content => (text_lines (universal_newlines content), None)
        | Undecodable lines => (lines, Some UnicodeDecodeError)
        end in
      let '(text_replaced, written, write_error) :=
        replace_lines encodable old_text new_text lines false EmptyString in
      let fs2 := write_file fs1 temp_file_path (Text written) in
      match write_error, read_error with
      | Some e, _ => (fs2, Raise e)
      | None, Some e => (fs2, Raise e)
      | None, None => (rename_file fs2 temp_file_path file_path, Ok text_replaced)
      end
  end.

Definition _list_to_concise_str (input_list : list list_item)
    (item_threshold pad : Z) (items_are_strs show_item_count : bool)
  : result string :=
  (* [repr(x) if items_are_strs else x] *)
  let shown := fun x : list_item => if items_are_strs then Str (py_repr x) else x in
  let pad_str := PyStr.str_repeat " "%char pad in
  let len := Z.of_nat (List.length input_list) in
  let count_str :=
    if show_item_count then "<" ++ PyStr.str_of_int len ++ " items>" else "" in
  if item_threshold <? len
  then
    x0 <- list_index input_list 0 ;;
    x1 <- list_index input_list 1 ;;
    xl <- list_index input_list (-1) ;;
    Ok (("[" ++ py_format (shown x0) ++ ",")
        ++ (PyStr.nl ++ pad_str ++ py_format (shown x1) ++ ",")
        ++ (PyStr.nl ++ pad_str ++ "   ...")
        ++ (PyStr.nl ++ pad_str ++ py_format (shown xl) ++ "] " ++ count_str))
  else
    parts <- join_operands (map shown input_list) ;;
    Ok ("[" ++ PyStr.join ("," ++ PyStr.nl ++ pad_str) parts ++ "]").

(** ** The body of [_calculate_node_distribution] as syntax

    To say what the function reads, its body is also held as syntax, with the
    node names of Python's [ast] module, and run over the names of a call:
    the local names of the function and the global names of the module
    (with the built-in names behind them). *)

Module Ast.

Inductive value : Type :=
| VInt (z : Z)
| VFloat (x : spec_float)
| VCeil                       (* the function [math.ceil] *)
| VNone.

Definition namespace : Type := string -> option value.

Inductive operator : Type := Div | Sub | Mult.

Inductive expr : Type :=
| Name (id : string)
| BinOp (lhs : expr) (op : operator) (rhs : expr)
| Call (func arg : expr).

Inductive stmt : Type :=
| Assign (target : string) (value : expr)
| Return (first second : expr).       (* [return first, second] *)

(** What a call gives back: the pair of a [return a, b], or [None] at the
    end of the body. *)
Inductive returned : Type :=
| Pair (first second : value)
| Nothing.

Definition to_float (v : value) : result spec_float :=
  match v with
  | VInt z => PyFloat.of_int z
  | VFloat x => Ok x
  | _ => Raise TypeError
  end.

Definition is_number (v : value) : bool :=
  match v with
  | VInt _ | VFloat _ => true
  | _ => false
  end.

Definition float_op (op : operator) (x y : spec_float) : result value :=
  match op with
  | Div =>
      match y with
      | S754_zero _ => Raise ZeroDivisionError
      | _ => Ok (VFloat (SFdiv 53 1024 x y))
      end
  | Sub => Ok (VFloat (SFsub 53 1024 x y))
  | Mult => Ok (VFloat (SFmul 53 1024 x y))
  end.

(** [a op b]: on two [int]s the division is the true division and the
    other operations are exact; with a [float] operand, an [int] operand is
    converted first. *)
Definition binop (op : operator) (a b : value) : result value :=
  match a, b with
  | VInt x, VInt y =>
      match op with
      | Div => f <- PyFloat.int_truediv x y ;; Ok (VFloat f)
      | Sub => Ok (VInt (x - y))
      | Mult => Ok (VInt (x * y))
      end
  | _, _ =>
      if is_number a && is_number b
      then x <- to_float a ;; y <- to_float b ;; float_op op x y
      else Raise TypeError
  end.

(** [f(arg)]. *)
Definition call (f arg : value) : result value :=
  match f with
  | VCeil =>
      match arg with
      | VInt z => Ok (VInt z)
      | VFloat x => z <- PyFloat.ceil x ;; Ok (VInt z)
      | _ => Raise TypeError
      end
  | _ => Raise TypeError
  end.

(** A name that the function assigns, or a parameter, is local; any other
    name is looked up in the module. *)
Definition lookup (local_names : list string) (locals globals : namespace)
    (id : string) : result value :=
  if existsb (String.eqb id) local_names
  then match locals id with
       | Some v => Ok v
       | None => Raise UnboundLocalError
       end
  else match globals id with
       | Some v => Ok v
       | None => Raise NameError
       end.

Fixpoint eval (local_names : list string) (locals globals : namespace)
    (e : expr) : result value :=
  match e with
  | Name id => lookup local_names locals globals id
  | BinOp lhs op rhs =>
      a <- eval local_names locals globals lhs ;;
      b <- eval local_names locals globals rhs ;;
      binop op a b
  | Call func arg =>
      f <- eval local_names locals globals func ;;
      x <- eval local_names locals globals arg ;;
      call f x
  end.

Definition assign (locals : namespace) (target : string) (v : value) : namespace :=
  fun id => if String.eqb id target then Some v else locals id.

Fixpoint exec (local_names : list string) (locals globals : namespace)
    (body : list stmt) : result returned :=
  match body with
  | [] => Ok Nothing
  | Assign target e :: rest =>
      v <- eval local_names locals globals e ;;
      exec local_names (assign locals target v) globals rest
  | Return first second :: _ =>
      a <- eval local_names locals globals first ;;
      b <- eval local_names locals globals second ;;
      Ok (Pair a b)
  end.

Fixpoint targets (body : list stmt) : list string :=
  match body with
  | [] => []
  | Assign target _ :: rest => target :: targets rest
  | Return _ _ :: rest => targets rest
  end.

(** The function definition. *)
Definition parameters : list string := ["n_cores_required"; "tot_cores_per_node"].

Definition body : list stmt :=
  [ Assign "n_nodes_to_request"
      (Call (Name "ceil")
         (BinOp (Name "n_cores_required") Div (Name "tot_cores_per_node")));
    Assign "cores_to_request_per_node"
      (Call (Name "ceil")
         (BinOp (Name "tot_cores_per_node") Sub
            (BinOp
               (BinOp
                  (BinOp (Name "n_nodes_to_request") Mult (Name "tot_cores_per_node"))
                  Sub (Name "n_cores_required"))
               Div (Name "n_nodes_to_request"))));
    Return (Name "n_nodes_to_request") (Name "cores_to_request_per_node") ].

(** The global names of the module: [ceil], which the module binds by
    [from math import ceil], before every other name, global or built in,
    held by [others]. *)
Definition module_globals (others : namespace) : namespace :=
  assign others "ceil" VCeil.

(** The call [_calculate_node_distribution(n_cores_required,
    tot_cores_per_node)] on two [int]s, in a module whose global names are
    [globals]. *)
Definition call_function (globals : namespace)
    (n_cores_required tot_cores_per_node : Z) : result returned :=
  let locals :=
    assign (assign (fun _ => None) "n_cores_required" (VInt n_cores_required))
      "tot_cores_per_node" (VInt tot_cores_per_node) in
  exec (parameters ++ targets body) locals globals body.

End Ast.

(** ** Definitions used to state the properties *)

(** The ceiling of [a / b] on integers. *)
Definition cdiv (a b : Z) : Z := - (- a / b).

(** The allocation formula as the specification words it, in exact rational
    arithmetic: [nodes = ceil(c / n)] and
    [cores = ceil(n - ((nodes * n) - c) / nodes)]. *)
Definition node_distribution_spec (cores_required cores_per_node : Z) : Z * Z :=
  let nodes := Qceiling (inject_Z cores_required / inject_Z cores_per_node) in
  (nodes,
   Qceiling (inject_Z cores_per_node
             - inject_Z (nodes * cores_per_node - cores_required) / inject_Z nodes)).

(** The position of the exact value [X / Y] relative to the integer [m]:
    exactly [m], or strictly between [m] and [m + 1] and below, at or above
    the midpoint. *)
Definition locate (X Y m : Z) : location :=
  if X - m * Y =? 0 then loc_Exact else loc_Inexact (2 * (X - m * Y) ?= Y).

Definition located (X Y m : Z) (l : location) : Prop :=
  m * Y <= X < (m + 1) * Y /\ l = locate X Y m.

(** The integer nearest to [X / Y], ties to even. *)
Definition rne (X Y : Z) : Z :=
  round_nearest_even (X / Y) (locate X Y (X / Y)).

Definition str_forallb (p : ascii -> bool) (s : string) : bool :=
  forallb p (list_ascii_of_string s).

(** A string of exactly [n] characters, all of them in [0-9a-f]. *)
Definition is_hex_string (n : nat) (s : string) : bool :=
  Nat.eqb (String.length s) n && str_forallb Re.lower_hex s.

(** A 7- or 40-character lowercase hexadecimal string. *)
Definition looks_like_hash (s : string) : bool :=
  is_hex_string 7 s || is_hex_string 40 s.

(** [tok] is the first whitespace-separated token of [s]: [s] is a run of
    whitespace, then [tok], then nothing or something that starts with a
    whitespace character. *)
Definition first_token (s tok : string) : Prop :=
  exists ws rest,
    s = ws ++ tok ++ rest /\
    str_forallb PyStr.is_space ws = true /\
    tok <> EmptyString /\
    str_forallb (fun c => negb (PyStr.is_space c)) tok = true /\
    match rest with
    | EmptyString => True
    | String c _ => PyStr.is_space c = true
    end.

(** The number a decimal numeral stands for: digits, after a minus sign for a
    negative number. *)
Definition digit_value (c : ascii) : option Z :=
  let n := Z.of_N (N_of_ascii c) in
  if (48 <=? n) && (n <=? 57) then Some (n - 48) else None.

Fixpoint digits_value (s : string) (acc : Z) : option Z :=
  match s with
  | EmptyString => Some acc
  | String c s' =>
      match digit_value c with
      | Some d => digits_value s' (10 * acc + d)
      | None => None
      end
  end.

Definition decimal_value (s : string) : option Z :=
  match s with
  | EmptyString => None
  | String c s' =>
      if Ascii.eqb c "-"
      then match s' with
           | EmptyString => None
           | String _ _ => option_map Z.opp (digits_value s' 0)
           end
      else digits_value s 0
  end.

(** The two errors of [_clone_and_checkout], for an exit code written as
    [code] and the captured error text. *)
Definition clone_error (source_repo local_path code error_text : string) : exn :=
  RuntimeError
    ("Error " ++ code ++ " when cloning repository "
     ++ source_repo ++ " to " ++ local_path ++ ". Error messages: "
     ++ PyStr.nl ++ error_text).

Definition checkout_error (checkout_target local_path code error_text : string) : exn :=
  RuntimeError
    ("Error " ++ code ++ " when checking out "
     ++ checkout_target ++ " in git repository " ++ local_path ++ ". Error messages: "
     ++ PyStr.nl ++ error_text).







(** [sub] occurs in [s]. *)
Definition occurs (sub s : string) : Prop := exists a b, s = a ++ sub ++ b.

(** The occurrence of [old] that starts after [a] is the leftmost one. *)
Definition leftmost (old a s : string) : Prop :=
  forall a' b', s = a' ++ old ++ b' -> (String.length a <= String.length a')%nat.

(** [s'] is [s] with every occurrence of a non-empty [old] replaced by [new],
    occurrences taken from the left and not overlapping. *)
Inductive replaced_all (old new : string) : string -> string -> Prop :=
| replaced_none s :
    ~ occurs old s -> replaced_all old new s s
| replaced_first a b b' :
    leftmost old a (a ++ old ++ b) ->
    replaced_all old new b b' ->
    replaced_all old new (a ++ old ++ b) (a ++ new ++ b').

(** [s'] is [s] with [new] put before every character and at the end: what
    replacing the empty text means. *)
Definition inserted_around (new s s' : string) : Prop :=
  s' = new ++ String.concat EmptyString
             (map (fun c => String c new) (list_ascii_of_string s)).

(** [s'] is [s] with every occurrence of [old] replaced by [new]. *)
Definition replaced (old new s s' : string) : Prop :=
  match old with
  | EmptyString => inserted_around new s s'
  | String _ _ => replaced_all old new s s'
  end.

(** [t] is [s] with every carriage return and newline pair, and every other
    carriage return, turned into a newline. *)
Inductive lf_normalised : string -> string -> Prop :=
| lf_end : lf_normalised EmptyString EmptyString
| lf_pair s t :
    lf_normalised s t ->
    lf_normalised (String PyStr.carriage_return (String PyStr.newline s))
                  (String PyStr.newline t)
| lf_alone s t :
    (forall s', s <> String PyStr.newline s') ->
    lf_normalised s t ->
    lf_normalised (String PyStr.carriage_return s) (String PyStr.newline t)
| lf_other c s t :
    c <> PyStr.carriage_return ->
    lf_normalised s t ->
    lf_normalised (String c s) (String c t).

(** [lines] are the lines of [text]: each holds one newline, at its end,
    but for a last line that is not empty and holds none. *)
Inductive lines_of : string -> list string -> Prop :=
| lines_end : lines_of EmptyString []
| lines_last body :
    body <> EmptyString -> PyStr.has_char PyStr.newline body = false ->
    lines_of body [body]
| lines_next body rest lines :
    PyStr.has_char PyStr.newline body = false ->
    lines_of rest lines ->
    lines_of (body ++ PyStr.nl ++ rest) ((body ++ PyStr.nl) :: lines).

(** Every line that the replacement writes for [content] can be encoded. *)
Definition writable (encodable : string -> bool) (old new content : string) : Prop :=
  forall text lines line line',
    lf_normalised content text -> lines_of text lines ->
    In line lines -> replaced old new line line' ->
    encodable line' = true.

(** A shell whose every command succeeds and prints [out]. *)
Definition shell_printing (out : string) : shell :=
  {| run_command := fun _ _ _ => {| returncode := 0; stdout := out; stderr := "" |};
     cwd_error := fun _ _ => None |}.

(** A shell whose every command fails with [code] and the message [err]. *)
Definition shell_failing (code : Z) (err : string) : shell :=
  {| run_command := fun _ _ _ => {| returncode := code; stdout := ""; stderr := err |};
     cwd_error := fun _ _ => None |}.

(** A shell whose every command succeeds, on a machine where Python can
    enter no directory given as [cwd]: so it is with a [local_path] such as
    [~/roms], which the shell expands for [git clone] and Python does not. *)
Definition shell_without_directory : shell :=
  {| run_command := fun _ _ _ => {| returncode := 0; stdout := ""; stderr := "" |};
     cwd_error := fun _ _ => Some FileNotFoundError |}.


(** ** Further functions of [cstar/base/utils.py] *)

(** [s.lstrip()], [s.rstrip()] and [s.strip()] without arguments. *)
Fixpoint str_lstrip (s : string) : string :=
  match s with
  | EmptyString => EmptyString
  | String c s' => if PyStr.is_space c then str_lstrip s' else s
  end.

Fixpoint str_rstrip (s : string) : string :=
  match s with
  | EmptyString => EmptyString
  | String c s' =>
      match str_rstrip s' with
      | EmptyString => if PyStr.is_space c then EmptyString else String c EmptyString
      | String x r => String c (String x r)
      end
  end.

Definition str_strip (s : string) : string := str_rstrip (str_lstrip s).

Definition _get_repo_remote (sh : shell) (local_root : string) : IO string :=
  r <~ subprocess_run sh ("git -C " ++ local_root ++ " remote get-url origin") None ;;
  io_ret (str_strip (stdout r)).

Definition _get_repo_head_hash (sh : shell) (local_root : string) : IO string :=
  r <~ subprocess_run sh ("git -C " ++ local_root ++ " rev-parse HEAD") None ;;
  io_ret (str_strip (stdout r)).

(** Text files as a store from paths to contents; [open(path, "a")] followed
    by [write(s)] creates the file when it is missing. *)
Definition text_files : Type := string -> option string.

Definition append_text (fs : text_files) (path s : string) : text_files :=
  fun p =>
    if String.eqb p path
    then Some (match fs path with
               | Some old => old ++ s
               | None => s
               end)
    else fs p.

(** [_CSTAR_CONFIG_FILE], a constant of [cstar.base.environment], is the
    first argument. *)
Definition _write_to_config_file (_CSTAR_CONFIG_FILE : string)
    (config_file_str : string) (w : list event * text_files)
  : list event * text_files :=
  let (t, fs) := w in
  match fs _CSTAR_CONFIG_FILE with
  | None =>
      let t' :=
        (t ++ [Print ("Updating environment in C-Star configuration file "
                      ++ _CSTAR_CONFIG_FILE)])%list in
      let base_conf_str :=
        "# This file was generated by C-Star and is specific to your machine. "
        ++ "# It contains environment information related to your cases & their dependencies. "
        ++ "# You can safely delete this file, but C-Star may prompt you to re-install things if so." in
      let base_conf_str :=
        base_conf_str
        ++ (PyStr.nl ++ "import os" ++ PyStr.nl
            ++ "from cstar.base.environment import _CSTAR_ENVIRONMENT_VARIABLES"
            ++ PyStr.nl) in
      let base_conf_str :=
        base_conf_str ++ ("def get_user_environment():" ++ PyStr.nl) in
      (t', append_text fs _CSTAR_CONFIG_FILE (base_conf_str ++ config_file_str))
  | Some _ => (t, append_text fs _CSTAR_CONFIG_FILE config_file_str)
  end.

(** The values [_dict_to_tree] meets: a nested dictionary (its items in
    insertion order), a list of items, or anything else.  Keys and list items
    are given by their [str()]. *)
#[warnings="-register-all"]
Inductive pyval : Type :=
| PDict (items : list (string * pyval))
| PList (items : list string)
| POther.

(** The box-drawing characters lie outside the code points 0..255; the four
    connectors are held as their UTF-8 bytes. *)
Definition box_elbow : string :=       (* U+2514 U+2500 U+2500 and a space *)
  String "226" (String "148" (String "148"
  (String "226" (String "148" (String "128"
  (String "226" (String "148" (String "128" " ")))))))).

Definition box_tee : string :=         (* U+251C U+2500 U+2500 and a space *)
  String "226" (String "148" (String "156"
  (String "226" (String "148" (String "128"
  (String "226" (String "148" (String "128" " ")))))))).

Definition box_bar : string :=         (* U+2502 and three spaces *)
  String "226" (String "148" (String "130" "   ")).

Definition box_gap : string := "    ".

(** The loop over the items of a list value. *)
Fixpoint tree_items (items : list string) (j len : Z)
    (prefix sub_prefix : string) : string :=
  match items with
  | [] => EmptyString
  | item :: rest =>
      let item_branch := if j =? len - 1 then box_elbow else box_tee in
      (prefix ++ sub_prefix ++ item_branch ++ item ++ PyStr.nl)
      ++ tree_items rest (j + 1) len prefix sub_prefix
  end.

(** The loop over the keys of a dictionary; [subtree] is the recursive call
    of [_dict_to_tree]. *)
Fixpoint tree_entries (subtree : pyval -> string -> string)
    (keys : list (string * pyval)) (i len : Z) (prefix : string) : string :=
  match keys with
  | [] => EmptyString
  | (key, value) :: rest =>
      let branch := if i =? len - 1 then box_elbow else box_tee in
      let sub_prefix := if i =? len - 1 then box_gap else box_bar in
      match value with
      | PDict _ =>
          (prefix ++ branch ++ key ++ PyStr.nl)
          ++ subtree value (prefix ++ sub_prefix)
      | PList l =>
          (prefix ++ branch ++ key ++ PyStr.nl)
          ++ tree_items l 0 (Z.of_nat (List.length l)) prefix sub_prefix
      | POther => EmptyString
      end
      ++ tree_entries subtree rest (i + 1) len prefix
  end.

(** [_dict_to_tree] on the dictionary held by [v]. *)
Fixpoint dict_to_tree_of (v : pyval) (prefix : string) {struct v} : string :=
  match v with
  | PDict input_dict =>
      tree_entries dict_to_tree_of input_dict 0
        (Z.of_nat (List.length input_dict)) prefix
  | PList _ => EmptyString
  | POther => EmptyString
  end.

Definition _dict_to_tree (input_dict : list (string * pyval)) (prefix : string)
  : string :=
  dict_to_tree_of (PDict input_dict) prefix.

(** *** Definitions used to state the further properties *)

(** The number of lines [_dict_to_tree] draws: one for each key whose value is
    a dictionary or a list, and one for each item of a list. *)
Fixpoint tree_size (v : pyval) : nat :=
  match v with
  | PDict d =>
      fold_right
        (fun kv acc =>
           (match snd kv with
            | PDict _ => S (tree_size (snd kv))
            | PList l => S (List.length l)
            | POther => O
            end + acc)%nat)
        O d
  | PList _ => O
  | POther => O
  end.

(** Lines given by their bodies, each behind [prefix] and ended by a newline. *)
Definition render_lines (prefix : string) (bodies : list string) : string :=
  String.concat EmptyString (map (fun body => prefix ++ body ++ PyStr.nl) bodies).

(** A string without whitespace at either end. *)
Definition trimmed (s : string) : Prop :=
  s = EmptyString \/
  (exists c rest, s = String c rest /\ PyStr.is_space c = false) /\
  (exists body c, s = body ++ String c EmptyString /\ PyStr.is_space c = false).

(** The text [_write_to_config_file] puts at the head of a new configuration
    file: one comment line, two imports and the first line of a function. *)
Definition config_file_header : string :=
  "# This file was generated by C-Star and is specific to your machine. # It contains environment information related to your cases & their dependencies. # You can safely delete this file, but C-Star may prompt you to re-install things if so."
  ++ PyStr.nl ++ "import os"
  ++ PyStr.nl ++ "from cstar.base.environment import _CSTAR_ENVIRONMENT_VARIABLES"
  ++ PyStr.nl ++ "def get_user_environment():" ++ PyStr.nl.


(** ** The module [cstar/base/environment.py]

    The module is a script run on import.  It is modelled from the point where
    [_CSTAR_ROOT] is known, as a function of the host: the platform, the
    process environment, and three things the script hands over to code
    outside the repository (importing [env_modules_python], loading the
    environment modules of the system, and the user's configuration module). *)

Inductive env_exn : Type :=
| KeyError (key : string)
| EnvironmentError (msg : string)
| ExternalError (name : string).

Inductive env_result (A : Type) : Type :=
| Done (a : A)
| Failed (e : env_exn).

Arguments Done {A} a.
Arguments Failed {A} e.

Definition env_bind {A B : Type} (r : env_result A) (k : A -> env_result B)
  : env_result B :=
  match r with
  | Done a => k a
  | Failed e => Failed e
  end.

Notation "x <-- c ;; k" := (env_bind c (fun x => k))
  (at level 61, c at next level, right associativity).

(** A dictionary from strings to strings, in insertion order. *)
Definition dict : Type := list (string * string).

Fixpoint dict_get (d : dict) (key : string) : option string :=
  match d with
  | [] => None
  | (k, v) :: rest => if String.eqb k key then Some v else dict_get rest key
  end.

(** [d[key] = value]: an existing key keeps its place. *)
Fixpoint dict_set (d : dict) (key value : string) : dict :=
  match d with
  | [] => [(key, value)]
  | (k, v) :: rest =>
      if String.eqb k key then (k, value) :: rest
      else (k, v) :: dict_set rest key value
  end.

(** [key in d]. *)
Definition dict_has (d : dict) (key : string) : bool :=
  match dict_get d key with
  | Some _ => true
  | None => false
  end.

(** [d[key]]. *)
Definition dict_item (d : dict) (key : string) : env_result string :=
  match dict_get d key with
  | Some v => Done v
  | None => Failed (KeyError key)
  end.

(** [d.get(key, default="")]. *)
Definition dict_get_default (d : dict) (key : string) : string :=
  match dict_get d key with
  | Some v => v
  | None => EmptyString
  end.

(** [a or b] on the results of [os.environ.get]: an unset or empty [a] gives
    [b]. *)
Definition get_or (a b : option string) : option string :=
  match a with
  | Some (String _ _) => a
  | _ => b
  end.

Record host_settings : Type := {
  _CSTAR_COMPILER : string;
  _CSTAR_SYSTEM : string;
  _CSTAR_SCHEDULER : option string;
  _CSTAR_SYSTEM_DEFAULT_PARTITION : option string;
  _CSTAR_SYSTEM_CORES_PER_NODE : option Z;
  _CSTAR_SYSTEM_MEMGB_PER_NODE : option Z;
  _CSTAR_SYSTEM_MAX_WALLTIME : option string
}.

Record host : Type := {
  platform_system : string;
  platform_machine : string;
  os_cpu_count : option Z;
  (** the import of [env_modules_python] from [LMOD_DIR]; [Some e] when it
      raises *)
  import_env_modules : option env_exn;
  (** [module("reset")], reading the module list of the system, loading each
      module and checking the captured error output: the process environment
      afterwards, or the error raised *)
  load_modules : string -> dict -> env_result dict;
  (** [get_user_environment] of the configuration module at the given path,
      when that file exists; it acts on [_CSTAR_ENVIRONMENT_VARIABLES] and on
      the process environment *)
  user_environment : string -> option (dict * dict -> env_result (dict * dict))
}.

(** The state the script leaves: the process environment, the dictionary
    [_CSTAR_ENVIRONMENT_VARIABLES], and the seven settings, which stay unbound
    when no branch of the script sets them. *)
Record module_state : Type := {
  os_environ : dict;
  _CSTAR_ENVIRONMENT_VARIABLES : dict;
  settings : option host_settings
}.

(** [os.environ.get(var, default="") + ":" + vars["NETCDFHOME"] + suffix]. *)
Definition extended_path (environ vars : dict) (var suffix : string)
  : env_result string :=
  home <-- dict_item vars "NETCDFHOME" ;;
  Done (dict_get_default environ var ++ ":" ++ home ++ suffix).

Definition case_expanse (environ vars : dict) : env_result (dict * host_settings) :=
  v <-- dict_item environ "NETCDF_FORTRANHOME" ;;
  let vars := dict_set vars "NETCDFHOME" v in
  v <-- dict_item environ "MVAPICH2HOME" ;;
  let vars := dict_set vars "MPIHOME" v in
  v <-- dict_item environ "NETCDF_FORTRANHOME" ;;
  let vars := dict_set vars "NETCDF" v in
  v <-- dict_item environ "MVAPICH2HOME" ;;
  let vars := dict_set vars "MPI_ROOT" v in
  Done (vars,
        {| _CSTAR_COMPILER := "intel";
           _CSTAR_SYSTEM := "expanse";
           _CSTAR_SCHEDULER := Some "slurm";
           _CSTAR_SYSTEM_DEFAULT_PARTITION := Some "compute";
           _CSTAR_SYSTEM_CORES_PER_NODE := Some 128;
           _CSTAR_SYSTEM_MEMGB_PER_NODE := Some 256;
           _CSTAR_SYSTEM_MAX_WALLTIME := Some "48:00:00" |}).

Definition case_derecho (environ vars : dict) : env_result (dict * host_settings) :=
  let vars := dict_set vars "MPIHOME" "/opt/cray/pe/mpich/8.1.25/ofi/intel/19.0/" in
  v <-- dict_item environ "NETCDF" ;;
  let vars := dict_set vars "NETCDFHOME" v in
  v <-- extended_path environ vars "LD_LIBRARY_PATH" "/lib" ;;
  let vars := dict_set vars "LD_LIBRARY_PATH" v in
  Done (vars,
        {| _CSTAR_COMPILER := "intel";
           _CSTAR_SYSTEM := "derecho";
           _CSTAR_SCHEDULER := Some "pbs";
           _CSTAR_SYSTEM_DEFAULT_PARTITION := Some "main";
           _CSTAR_SYSTEM_CORES_PER_NODE := Some 128;
           _CSTAR_SYSTEM_MEMGB_PER_NODE := Some 256;
           _CSTAR_SYSTEM_MAX_WALLTIME := Some "12:00:00" |}).

Definition case_perlmutter (environ vars : dict) : env_result (dict * host_settings) :=
  let vars := dict_set vars "MPIHOME" "/opt/cray/pe/mpich/8.1.28/ofi/gnu/12.3/" in
  let vars := dict_set vars "NETCDFHOME" "/opt/cray/pe/netcdf/4.9.0.9/gnu/12.3/" in
  v <-- extended_path environ vars "PATH" "/bin" ;;
  let vars := dict_set vars "PATH" v in
  v <-- extended_path environ vars "LD_LIBRARY_PATH" "/lib" ;;
  let vars := dict_set vars "LD_LIBRARY_PATH" v in
  v <-- extended_path environ vars "LIBRARY_PATH" "/lib" ;;
  let vars := dict_set vars "LIBRARY_PATH" v in
  Done (vars,
        {| _CSTAR_COMPILER := "gnu";
           _CSTAR_SYSTEM := "perlmutter";
           _CSTAR_SCHEDULER := Some "slurm";
           _CSTAR_SYSTEM_DEFAULT_PARTITION := Some "regular";
           _CSTAR_SYSTEM_CORES_PER_NODE := Some 128;
           _CSTAR_SYSTEM_MEMGB_PER_NODE := Some 512;
           _CSTAR_SYSTEM_MAX_WALLTIME := Some "24:00:00" |}).

(** The branch for macOS on arm64. *)
Definition case_osx_arm64 (h : host) (environ vars : dict)
  : env_result (dict * host_settings) :=
  v <-- dict_item environ "CONDA_PREFIX" ;;
  let vars := dict_set vars "MPIHOME" v in
  v <-- dict_item environ "CONDA_PREFIX" ;;
  let vars := dict_set vars "NETCDFHOME" v in
  v <-- extended_path environ vars "LD_LIBRARY_PATH" "/lib" ;;
  let vars := dict_set vars "LD_LIBRARY_PATH" v in
  Done (vars,
        {| _CSTAR_COMPILER := "gnu";
           _CSTAR_SYSTEM := "osx_arm64";
           _CSTAR_SCHEDULER := None;
           _CSTAR_SYSTEM_DEFAULT_PARTITION := None;
           _CSTAR_SYSTEM_CORES_PER_NODE := os_cpu_count h;
           _CSTAR_SYSTEM_MEMGB_PER_NODE := None;
           _CSTAR_SYSTEM_MAX_WALLTIME := None |}).

(** The branch for Linux on x86_64 without Lmod. *)
Definition case_linux_x86_64 (h : host) (environ vars : dict)
  : env_result (dict * host_settings) :=
  v <-- dict_item environ "CONDA_PREFIX" ;;
  let vars := dict_set vars "MPIHOME" v in
  v <-- dict_item environ "CONDA_PREFIX" ;;
  let vars := dict_set vars "NETCDFHOME" v in
  v <-- extended_path environ vars "LD_LIBRARY_PATH" "/lib" ;;
  let vars := dict_set vars "LD_LIBRARY_PATH" v in
  Done (vars,
        {| _CSTAR_COMPILER := "gnu";
           _CSTAR_SYSTEM := "linux_x86_64";
           _CSTAR_SCHEDULER := None;
           _CSTAR_SYSTEM_DEFAULT_PARTITION := None;
           _CSTAR_SYSTEM_CORES_PER_NODE := os_cpu_count h;
           _CSTAR_SYSTEM_MEMGB_PER_NODE := None;
           _CSTAR_SYSTEM_MAX_WALLTIME := None |}).

Definition with_settings (environ : dict)
    (r : env_result (dict * host_settings))
  : env_result (dict * dict * option host_settings) :=
  vs <-- r ;; Done (environ, fst vs, Some (snd vs)).

(** The branch for Linux with Lmod. *)
Definition case_lmod (h : host) (environ vars : dict)
  : env_result (dict * dict * option host_settings) :=
  _ <-- match import_env_modules h with
        | Some e => Failed e
        | None => Done tt
        end ;;
  match get_or (dict_get environ "LMOD_SYSHOST") (dict_get environ "LMOD_SYSTEM_NAME") with
  | None | Some EmptyString =>
      Failed (EnvironmentError
                ("unable to find LMOD_SYSHOST or LMOD_SYSTEM_NAME in environment. "
                 ++ "Your system may be unsupported"))
  | Some sysname =>
      environ <-- load_modules h sysname environ ;;
      if String.eqb sysname "expanse" then with_settings environ (case_expanse environ vars)
      else if String.eqb sysname "derecho" then with_settings environ (case_derecho environ vars)
      else if String.eqb sysname "perlmutter" then with_settings environ (case_perlmutter environ vars)
      else Done (environ, vars, None)
  end.

(** The loop that ends the script: [os.environ[var] = value] for each item. *)
Definition export_variables (vars environ : dict) : dict :=
  fold_left (fun env item => dict_set env (fst item) (snd item)) vars environ.

(** The branches of the script on the platform. *)
Definition detect_host (h : host) (environ vars : dict)
  : env_result (dict * dict * option host_settings) :=
  if String.eqb (platform_system h) "Linux" && dict_has environ "LMOD_DIR"
  then case_lmod h environ vars
  else if String.eqb (platform_system h) "Darwin"
          && String.eqb (platform_machine h) "arm64"
  then with_settings environ (case_osx_arm64 h environ vars)
  else if String.eqb (platform_system h) "Linux"
          && String.eqb (platform_machine h) "x86_64"
          && negb (dict_has environ "LMOD_DIR")
  then with_settings environ (case_linux_x86_64 h environ vars)
  else Done (environ, vars, None).

Definition environment_module (h : host) (_CSTAR_ROOT : string) (environ : dict)
  : env_result module_state :=
  st <-- detect_host h environ [] ;;
  let '(environ, vars, set) := st in
  let _CSTAR_CONFIG_FILE := _CSTAR_ROOT ++ "/cstar_local_config.py" in
  ve <--
    match user_environment h _CSTAR_CONFIG_FILE with
    | Some get_user_environment => get_user_environment (vars, environ)
    | None => Done (vars, environ)
    end ;;
  Done {| os_environ := export_variables (fst ve) (snd ve);
          _CSTAR_ENVIRONMENT_VARIABLES := fst ve;
          settings := set |}.

(** A host that hands nothing over: no Lmod import error, modules that load
    without changing the environment, and no configuration file. *)
Definition plain_host (system machine : string) (cpus : option Z) : host :=
  {| platform_system := system;
     platform_machine := machine;
     os_cpu_count := cpus;
     import_env_modules := None;
     load_modules := fun _ environ => Done environ;
     user_environment := fun _ => None |}.

(** The settings go together: with a scheduler come 128 cores per node, a
    partition, a memory size and a wall time; without one, none of the
    three. *)
Definition settings_consistent (s : host_settings) : Prop :=
  match _CSTAR_SCHEDULER s with
  | Some _ =>
      _CSTAR_SYSTEM_CORES_PER_NODE s = Some 128 /\
      _CSTAR_SYSTEM_DEFAULT_PARTITION s <> None /\
      _CSTAR_SYSTEM_MEMGB_PER_NODE s <> None /\
      _CSTAR_SYSTEM_MAX_WALLTIME s <> None
  | None =>
      _CSTAR_SYSTEM_DEFAULT_PARTITION s = None /\
      _CSTAR_SYSTEM_MEMGB_PER_NODE s = None /\
      _CSTAR_SYSTEM_MAX_WALLTIME s = None
  end.

(** What each branch that sets the host settings leaves behind. *)
Definition branch_invariant (vars : dict) (s : host_settings) : Prop :=
  settings_consistent s /\ NoDup (map fst vars) /\
  dict_get vars "MPIHOME" <> None /\ dict_get vars "NETCDFHOME" <> None.

(** * Properties

    ** Powers of two and binary digits *)

Lemma pow2_pos k : 0 <= k -> 0 < 2 ^ k.
Proof. intros. apply Z.pow_pos_nonneg; lia. Qed.

Lemma digits2_bounds p :
  2 ^ (Zpos (digits2_pos p) - 1) <= Zpos p < 2 ^ Zpos (digits2_pos p).
Proof.
  induction p as [q IH|q IH|]; simpl digits2_pos; [| |simpl; lia];
    rewrite Pos2Z.inj_succ;
    replace (Z.succ (Zpos (digits2_pos q)) - 1) with (Z.succ (Zpos (digits2_pos q) - 1)) by lia;
    rewrite !Z.pow_succ_r by lia; lia.
Qed.

Lemma Zdigits2_bounds m :
  0 < m -> 2 ^ (Zdigits2 m - 1) <= m < 2 ^ Zdigits2 m /\ 0 < Zdigits2 m.
Proof.
  destruct m as [|p|p]; try lia. intros _. cbn [Zdigits2].
  split; [apply digits2_bounds|lia].
Qed.

Lemma Zdigits2_unique m d :
  2 ^ (d - 1) <= m < 2 ^ d -> 0 < d -> Zdigits2 m = d.
Proof.
  intros [Hl Hu] Hd.
  assert (Hm : 0 < m) by (pose proof (Z.pow_pos_nonneg 2 (d - 1)); lia).
  destruct m as [|p|p]; try lia. cbn [Zdigits2].
  pose proof (digits2_bounds p) as [Bl Bu].
  set (d' := Zpos (digits2_pos p)) in *.
  destruct (Z.lt_trichotomy d' d) as [H|[H|H]]; [|exact H|].
  - assert (2 ^ d' <= 2 ^ (d - 1)) by (apply Z.pow_le_mono_r; lia). lia.
  - assert (2 ^ d <= 2 ^ (d' - 1)) by (apply Z.pow_le_mono_r; lia). lia.
Qed.

Lemma Zdigits2_le_of_lt m k : 0 < m < 2 ^ k -> 0 <= k -> Zdigits2 m <= k.
Proof.
  intros Hm Hk. destruct (Zdigits2_bounds m ltac:(lia)) as [[Dl Du] Dp].
  destruct (Z.le_gt_cases (Zdigits2 m) k); [assumption|].
  assert (2 ^ k <= 2 ^ (Zdigits2 m - 1)) by (apply Z.pow_le_mono_r; lia). lia.
Qed.

(** ** Ceiling division *)

Lemma cdiv_unique M S K :
  0 < S -> (K - 1) * S < M <= K * S -> - (- M / S) = K.
Proof.
  intros HS H.
  assert (E : - M / S = - K).
  { symmetry. apply Z.div_unique with (r := K * S - M); lia. }
  rewrite E. lia.
Qed.

Lemma cdiv_bounds a b : 0 < b -> (cdiv a b - 1) * b < a <= cdiv a b * b.
Proof.
  intros Hb. unfold cdiv.
  pose proof (Z.mul_div_le (- a) b Hb). pose proof (Z.mul_succ_div_gt (- a) b Hb). lia.
Qed.

(** ** Rounding a ratio to the nearest integer, ties to even *)

Lemma located_div X Y m l :
  0 < Y -> located X Y m l -> m = X / Y.
Proof.
  intros HY [Hb _]. apply Z.div_unique with (r := X - m * Y); lia.
Qed.

Lemma located_rne X Y m l :
  0 < Y -> located X Y m l -> round_nearest_even m l = rne X Y.
Proof.
  intros HY H. pose proof (located_div _ _ _ _ HY H) as ->.
  destruct H as [_ ->]. reflexivity.
Qed.

Lemma located_here X Y : 0 < Y -> located X Y (X / Y) (locate X Y (X / Y)).
Proof.
  intros HY. split; [|reflexivity].
  pose proof (Z.mul_div_le X Y HY). pose proof (Z.mul_succ_div_gt X Y HY). lia.
Qed.

Lemma rne_bounds X Y : 0 < Y -> X / Y <= rne X Y <= X / Y + 1.
Proof.
  intros HY. unfold rne, round_nearest_even.
  destruct (locate X Y (X / Y)) as [|[]]; try destruct (Z.even (X / Y)); lia.
Qed.

Lemma rne_half X Y :
  0 < Y -> 2 * (rne X Y * Y - X) <= Y /\ 2 * (X - rne X Y * Y) <= Y.
Proof.
  intros HY. destruct (located_here X Y HY) as [Hb _].
  unfold rne, round_nearest_even, locate.
  set (q := X / Y) in *.
  destruct (Z.eqb_spec (X - q * Y) 0); [lia|].
  destruct (Z.compare_spec (2 * (X - q * Y)) Y); try destruct (Z.even q); lia.
Qed.

Lemma rne_near X Y k :
  0 < Y -> 2 * (k * Y - X) < Y -> 2 * (X - k * Y) < Y -> rne X Y = k.
Proof.
  intros HY H1 H2. destruct (rne_half X Y HY) as [H3 H4]. nia.
Qed.

Lemma rne_exact Y k : 0 < Y -> rne (k * Y) Y = k.
Proof. intros HY. apply rne_near; lia. Qed.

Lemma rne_one X : rne X 1 = X.
Proof. apply rne_near; lia. Qed.

Lemma rne_scale t X Y : 0 < t -> 0 < Y -> rne (t * X) (t * Y) = rne X Y.
Proof.
  intros Ht HY. unfold rne, locate.
  rewrite Z.div_mul_cancel_l by lia.
  replace (t * X - X / Y * (t * Y)) with (t * (X - X / Y * Y)) by ring.
  set (r := X - X / Y * Y).
  destruct (Z.eqb_spec r 0) as [->|Hn].
  - rewrite Z.mul_0_r. reflexivity.
  - destruct (Z.eqb_spec (t * r) 0); [nia|].
    destruct (Z.compare_spec (2 * (t * r)) (t * Y));
      destruct (Z.compare_spec (2 * r) Y); try reflexivity; nia.
Qed.

Lemma rne_ratio X Y X' Y' :
  0 < Y -> 0 < Y' -> X * Y' = X' * Y -> rne X Y = rne X' Y'.
Proof.
  intros HY HY' E.
  rewrite <- (rne_scale Y' X Y), <- (rne_scale Y X' Y') by lia.
  f_equal; lia.
Qed.

Lemma rne_carry X Y :
  0 < Y -> rne X Y = 2 ^ 53 -> X / Y < 2 ^ 53 -> rne X (Y * 2) = 2 ^ 52.
Proof.
  intros HY Hr Hf. destruct (rne_half X Y HY) as [H1 H2]. rewrite Hr in H1, H2.
  pose proof (Z.mul_succ_div_gt X Y HY) as Hgt.
  apply rne_near; nia.
Qed.

Lemma rne_le X Y k : 0 < Y -> X <= k * Y -> rne X Y <= k.
Proof. intros HY H. destruct (rne_half X Y HY) as [H1 _]. nia. Qed.

Lemma rne_ge X Y k : 0 < Y -> k * Y <= X -> k <= rne X Y.
Proof. intros HY H. destruct (rne_half X Y HY) as [_ H2]. nia. Qed.

(** ** The rounding step of the float operations

    Shifting a mantissa to the right keeps the exact value located: each
    shift doubles the denominator. *)

Lemma loc_of_record m l :
  loc_of_shr_record (shr_record_of_loc m l) = l /\ shr_m (shr_record_of_loc m l) = m.
Proof. destruct l as [|[]]; auto. Qed.

Ltac cmp_cases :=
  repeat match goal with
  | |- context [?a ?= ?b] => destruct (Z.compare_spec a b)
  | |- context [?a =? ?b] => destruct (Z.eqb_spec a b)
  | H : context [?a ?= ?b] |- _ => destruct (Z.compare_spec a b)
  | H : context [?a =? ?b] |- _ => destruct (Z.eqb_spec a b)
  end.

Lemma shr_1_eq m r s :
  0 <= m ->
  shr_1 (Build_shr_record m r s) = Build_shr_record (Z.div2 m) (Z.odd m) (r || s).
Proof. destruct m as [|[p|p|]|p]; intros; try reflexivity; lia. Qed.

Lemma shr_1_located X Y mrs :
  0 < Y -> 0 <= shr_m mrs ->
  located X Y (shr_m mrs) (loc_of_shr_record mrs) ->
  located X (2 * Y) (shr_m (shr_1 mrs)) (loc_of_shr_record (shr_1 mrs)).
Proof.
  intros HY Hm H. destruct mrs as [m r s]. cbn [shr_m] in *.
  rewrite shr_1_eq by lia. cbn [shr_m].
  pose proof (Z.div2_odd m) as Hd. set (m' := Z.div2 m) in *.
  destruct H as [Hb Hl]. unfold located, locate in *.
  destruct (Z.odd m); cbn [Z.b2z] in Hd; destruct r, s;
    cbn [orb loc_of_shr_record] in *;
    cmp_cases; try discriminate; try (split; [nia | reflexivity]); try nia; try lia.
Qed.

Lemma shr_1_nonneg mrs : 0 <= shr_m mrs -> 0 <= shr_m (shr_1 mrs).
Proof.
  destruct mrs as [m r s]; cbn [shr_m]; intros H.
  rewrite shr_1_eq by lia. cbn [shr_m].
  pose proof (Z.div2_odd m). destruct (Z.odd m); cbn [Z.b2z] in *; lia.
Qed.

Lemma iter_shr_1_located p : forall X Y mrs,
  0 < Y -> 0 <= shr_m mrs ->
  located X Y (shr_m mrs) (loc_of_shr_record mrs) ->
  0 <= shr_m (SpecFloat.iter_pos shr_1 p mrs) /\
  located X (Y * 2 ^ Zpos p) (shr_m (SpecFloat.iter_pos shr_1 p mrs))
    (loc_of_shr_record (SpecFloat.iter_pos shr_1 p mrs)).
Proof.
  induction p as [q IH|q IH|]; intros X Y mrs HY Hm H; cbn [SpecFloat.iter_pos].
  - pose proof (shr_1_located X Y mrs HY Hm H) as H1.
    pose proof (shr_1_nonneg mrs Hm) as Hm1.
    destruct (IH X (2 * Y) (shr_1 mrs) ltac:(lia) Hm1 H1) as [Hm2 H2].
    assert (HP : 0 < 2 ^ Zpos q) by (apply Z.pow_pos_nonneg; lia).
    destruct (IH X (2 * Y * 2 ^ Zpos q) _ ltac:(nia) Hm2 H2) as [Hm3 H3].
    split; [exact Hm3|].
    replace (Y * 2 ^ Zpos q~1) with (2 * Y * 2 ^ Zpos q * 2 ^ Zpos q); [exact H3|].
    replace (Zpos q~1) with (Zpos q + Zpos q + 1) by lia.
    rewrite !Z.pow_add_r by lia. change (2 ^ 1) with 2. ring.
  - destruct (IH X Y mrs HY Hm H) as [Hm2 H2].
    assert (HP : 0 < 2 ^ Zpos q) by (apply Z.pow_pos_nonneg; lia).
    destruct (IH X (Y * 2 ^ Zpos q) _ ltac:(nia) Hm2 H2) as [Hm3 H3].
    split; [exact Hm3|].
    replace (Y * 2 ^ Zpos q~0) with (Y * 2 ^ Zpos q * 2 ^ Zpos q); [exact H3|].
    replace (Zpos q~0) with (Zpos q + Zpos q) by lia.
    rewrite Z.pow_add_r by lia. ring.
  - split; [now apply shr_1_nonneg|].
    replace (Y * 2 ^ 1) with (2 * Y) by lia. now apply shr_1_located.
Qed.

Lemma shr_located X Y m l e n :
  0 < Y -> 0 <= m -> 0 <= n -> located X Y m l ->
  let r := shr (shr_record_of_loc m l) e n in
  snd r = e + n /\ 0 <= shr_m (fst r) /\
  located X (Y * 2 ^ n) (shr_m (fst r)) (loc_of_shr_record (fst r)).
Proof.
  intros HY Hm Hn H. destruct (loc_of_record m l) as [E1 E2].
  destruct n as [|p|p]; try lia; cbn [shr fst snd].
  - rewrite E1, E2, Z.pow_0_r, Z.mul_1_r, Z.add_0_r. auto.
  - split; [reflexivity|]. apply iter_shr_1_located; rewrite ?E1, ?E2; auto.
Qed.

Lemma fexp64_normal e : -1021 <= e -> fexp 53 1024 e = e - 53.
Proof. intros H. unfold fexp, emin. lia. Qed.

Lemma binary_round_aux_spec X Y mx ex lx :
  0 < Y -> 2 ^ 52 <= mx -> located X Y mx lx ->
  -1021 <= ex + Zdigits2 mx -> ex + Zdigits2 mx <= 1023 ->
  let n := Zdigits2 mx - 53 in
  let m1 := rne X (Y * 2 ^ n) in
  0 <= n /\ 2 ^ 52 <= m1 <= 2 ^ 53 /\ X / (Y * 2 ^ n) < 2 ^ 53 /\
  binary_round_aux 53 1024 false mx ex lx =
    if m1 <? 2 ^ 53 then S754_finite false (Z.to_pos m1) (ex + n)
    else S754_finite false (Z.to_pos (2 ^ 52)) (ex + n + 1).
Proof.
  intros HY Hmx H Hex Hov n m1.
  assert (Hpos : 0 < mx) by lia.
  destruct (Zdigits2_bounds mx Hpos) as [[Dl Du] Dp].
  assert (Hn : 0 <= n).
  { subst n. destruct (Z.le_gt_cases 53 (Zdigits2 mx)); [lia|].
    assert (2 ^ Zdigits2 mx <= 2 ^ 52) by (apply Z.pow_le_mono_r; lia). lia. }
  assert (HP : 0 < 2 ^ n) by (apply Z.pow_pos_nonneg; lia).
  unfold binary_round_aux, shr_fexp.
  rewrite fexp64_normal by lia.
  replace (Zdigits2 mx + ex - 53 - ex) with n by (subst n; lia).
  destruct (shr_located X Y mx lx ex n HY ltac:(lia) Hn H) as (E1 & N1 & L1).
  destruct (shr (shr_record_of_loc mx lx) ex n) as [mrs' e'] eqn:Es.
  cbn [fst snd] in *. subst e'.
  assert (HY' : 0 < Y * 2 ^ n) by nia.
  rewrite (located_rne _ _ _ _ HY' L1). fold m1.
  pose proof (located_div _ _ _ _ HY' L1) as Hq.
  pose proof (rne_bounds X (Y * 2 ^ n) HY') as Hr. fold m1 in Hr. rewrite <- Hq in Hr.
  assert (Hm' : 2 ^ 52 <= shr_m mrs' < 2 ^ 53).
  { destruct L1 as [[La Lb] _]. destruct H as [[Ha Hb] _].
    replace (Zdigits2 mx) with (n + 53) in Du by (subst n; lia).
    replace (Zdigits2 mx - 1) with (n + 52) in Dl by (subst n; lia).
    rewrite Z.pow_add_r in Du, Dl by lia.
    split; nia. }
  split; [exact Hn|]. split; [lia|]. split; [lia|].
  destruct (Z.ltb_spec m1 (2 ^ 53)) as [Hlt|Hge].
  - rewrite (Zdigits2_unique m1 53) by lia.
    rewrite fexp64_normal by lia.
    replace (53 + (ex + n) - 53 - (ex + n)) with 0 by lia.
    cbn [shr]. destruct (loc_of_record m1 loc_Exact) as [_ ->].
    destruct m1 as [|p|p] eqn:Em; try lia.
    cbn [Z.to_pos]. change (1024 - 53) with 971.
    destruct (Z.leb_spec (ex + n) 971); [reflexivity|subst n; lia].
  - assert (Em : m1 = 2 ^ 53) by lia. rewrite Em.
    change (Zdigits2 (2 ^ 53)) with 54.
    rewrite fexp64_normal by lia.
    replace (54 + (ex + n) - 53 - (ex + n)) with 1 by lia.
    cbn. destruct (Z.leb_spec (ex + n + 1) 971); [reflexivity|subst n; lia].
Qed.

(** Rounding a located positive value whose mantissa has at least 53 bits:
    the result is a normal number [m * 2^(ex+k)], where [m] is the
    nearest-even integer to the exact value scaled by [2^k]. *)
Lemma binary_round_aux_rne X Y mx ex lx :
  0 < Y -> 2 ^ 52 <= mx -> located X Y mx lx ->
  -1021 <= ex + Zdigits2 mx -> ex + Zdigits2 mx <= 1023 ->
  exists m k,
    binary_round_aux 53 1024 false mx ex lx = S754_finite false m (ex + k) /\
    Zdigits2 mx - 53 <= k <= Zdigits2 mx - 52 /\ 0 <= k /\
    2 ^ 52 <= Zpos m < 2 ^ 53 /\
    Zpos m = rne X (Y * 2 ^ k) /\
    (k = Zdigits2 mx - 53 \/
     k = Zdigits2 mx - 52 /\ rne X (Y * 2 ^ (k - 1)) = 2 ^ 53).
Proof.
  intros HY Hmx Hl Hlo Hhi.
  destruct (binary_round_aux_spec X Y mx ex lx HY Hmx Hl Hlo Hhi)
    as (Hn & Hm1 & Hfl & Hbra).
  set (n := Zdigits2 mx - 53) in *. set (m1 := rne X (Y * 2 ^ n)) in *.
  pose proof (pow2_pos n Hn) as Pn.
  destruct (Z.ltb_spec m1 (2 ^ 53)) as [Hlt|Hge].
  - exists (Z.to_pos m1), n. rewrite Z2Pos.id by lia.
    split; [exact Hbra|]. repeat split; lia.
  - exists (Z.to_pos (2 ^ 52)), (n + 1). rewrite Z2Pos.id by lia.
    rewrite Z.add_assoc. split; [exact Hbra|].
    replace (n + 1 - 1) with n by lia.
    split; [lia|]. split; [lia|]. split; [lia|]. split; [|right; fold m1; lia].
    rewrite Z.pow_add_r by lia. change (2 ^ 1) with 2. rewrite Z.mul_assoc.
    symmetry. apply rne_carry; [nia|fold m1; lia|exact Hfl].
Qed.

Lemma pos_iter_xO m d : Zpos (Pos.iter xO m d) = Zpos m * 2 ^ Zpos d.
Proof.
  induction d as [|d IH] using Pos.peano_ind.
  - cbn [Pos.iter]. change (2 ^ 1) with 2. lia.
  - rewrite Pos.iter_succ, Pos2Z.inj_succ, Z.pow_succ_r by lia.
    rewrite Pos2Z.inj_xO, IH. ring.
Qed.

Lemma shl_align_le m e e' :
  e' <= e ->
  Zpos (fst (shl_align m e e')) = Zpos m * 2 ^ (e - e') /\
  snd (shl_align m e e') = e'.
Proof.
  intros H. unfold shl_align.
  destruct (e' - e) as [|d|d] eqn:E; try lia; cbn [fst snd].
  - replace (e - e') with 0 by lia. rewrite Z.pow_0_r. lia.
  - rewrite pos_iter_xO. replace (e - e') with (Zpos d) by lia. auto.
Qed.

Lemma shl_align_gt m e e' : e <= e' -> shl_align m e e' = (m, e).
Proof.
  intros H. unfold shl_align. destruct (e' - e) as [|d|d] eqn:E; try lia; reflexivity.
Qed.

(** Rounding the exact value [D * 2^ez] (with [ez <= 0]) when it lies below
    [2^53 - 1/2]: the result has a non-positive exponent [e] and its mantissa is
    the nearest-even integer to the value scaled by [2^(-e)]. *)
Lemma binary_round_spec D ez :
  -1000 <= ez <= 0 -> 2 * Zpos D < (2 ^ 54 - 1) * 2 ^ (- ez) ->
  exists m e,
    binary_round 53 1024 false D ez = S754_finite false m e /\
    ez - 52 <= e <= 0 /\ 2 ^ 52 <= Zpos m < 2 ^ 53 /\
    Zpos m = rne (Zpos D * 2 ^ (- e)) (2 ^ (- ez)).
Proof.
  intros Hez Hval.
  pose proof (pow2_pos (- ez) ltac:(lia)) as Pz.
  destruct (Zdigits2_bounds (Zpos D) ltac:(lia)) as [[Dl Du] Dp].
  assert (Hdg : Zdigits2 (Zpos D) <= 53 - ez).
  { apply Zdigits2_le_of_lt; [|lia].
    replace (53 - ez) with (53 + - ez) by lia. rewrite Z.pow_add_r by lia. lia. }
  cbn [Zdigits2] in *. set (dD := Zpos (digits2_pos D)) in *.
  unfold binary_round. fold dD. rewrite fexp64_normal by lia.
  destruct (Z.lt_ge_cases dD 53) as [Hsmall|Hbig].
  - destruct (shl_align_le D ez (dD + ez - 53) ltac:(lia)) as [Ef Es].
    destruct (shl_align D ez (dD + ez - 53)) as [mz ez'] eqn:Esh.
    cbn [fst snd] in *. subst ez'.
    replace (ez - (dD + ez - 53)) with (53 - dD) in Ef by lia.
    assert (Emz : 2 ^ 52 <= Zpos mz < 2 ^ 53).
    { assert (E52 : 2 ^ 52 = 2 ^ (dD - 1) * 2 ^ (53 - dD)).
      { rewrite <- Z.pow_add_r by lia. f_equal. lia. }
      assert (E53 : 2 ^ 53 = 2 ^ dD * 2 ^ (53 - dD)).
      { rewrite <- Z.pow_add_r by lia. f_equal. lia. }
      pose proof (pow2_pos (53 - dD) ltac:(lia)).
      rewrite Ef, E52, E53. nia. }
    assert (Edg : Zdigits2 (Zpos mz) = 53) by (apply Zdigits2_unique; lia).
    destruct (binary_round_aux_rne (Zpos mz) 1 (Zpos mz) (dD + ez - 53) loc_Exact)
      as (m & k & Hbra & Hk & Hk0 & Hm & Hrne & Hcy); try lia.
    { split; [lia|]. unfold locate. now rewrite Z.mul_1_r, Z.sub_diag. }
    cbn [Zdigits2] in Edg, Hk, Hcy.
    assert (Ek : k = 0).
    { destruct Hcy as [Hcy|[Hk1 Hcy]]; [lia|]. exfalso.
      assert (Ek1 : k = 1) by lia. rewrite Ek1 in Hcy.
      change (1 * 2 ^ (1 - 1)) with 1 in Hcy.
      rewrite rne_one in Hcy. lia. }
    subst k. exists m, (dD + ez - 53). rewrite Z.add_0_r in Hbra.
    split; [exact Hbra|]. split; [lia|]. split; [exact Hm|].
    change (1 * 2 ^ 0) with 1 in Hrne. rewrite rne_one in Hrne.
    rewrite Hrne, Ef.
    replace (- (dD + ez - 53)) with ((53 - dD) + - ez) by lia.
    rewrite Z.pow_add_r, Z.mul_assoc by lia.
    symmetry. apply rne_exact. lia.
  - rewrite shl_align_gt by lia.
    assert (Hmx : 2 ^ 52 <= Zpos D).
    { assert (2 ^ 52 <= 2 ^ (dD - 1)) by (apply Z.pow_le_mono_r; lia). lia. }
    destruct (binary_round_aux_rne (Zpos D) 1 (Zpos D) ez loc_Exact)
      as (m & k & Hbra & Hk & Hk0 & Hm & Hrne & Hcy); cbn [Zdigits2]; fold dD; try lia.
    { split; [lia|]. unfold locate. now rewrite Z.mul_1_r, Z.sub_diag. }
    cbn [Zdigits2] in Hk, Hcy. fold dD in Hk, Hcy.
    pose proof (pow2_pos k Hk0) as Pk.
    rewrite Z.mul_1_l in Hrne.
    destruct (rne_half (Zpos D) (2 ^ k) Pk) as [Hh1 Hh2]. rewrite <- Hrne in Hh1, Hh2.
    assert (Hke : ez + k <= 0).
    { destruct Hcy as [Hcy|[Hk1 Hcy]]; [lia|].
      destruct (Z.le_gt_cases (ez + k) 0) as [|Hc]; [assumption|exfalso].
      replace (k - 1) with (- ez) in Hcy by lia. rewrite Z.mul_1_l in Hcy.
      destruct (rne_half (Zpos D) (2 ^ (- ez)) Pz) as [Hc1 _].
      rewrite Hcy in Hc1. lia. }
    exists m, (ez + k). split; [exact Hbra|]. split; [lia|]. split; [exact Hm|].
    rewrite Hrne. apply rne_ratio; try lia.
    replace (- ez) with (k + - (ez + k)) by lia.
    rewrite Z.pow_add_r by lia. ring.
Qed.

(** ** The float operations of [_calculate_node_distribution] *)

Lemma new_location_locate X Y :
  0 < Y -> new_location Y (X mod Y) = locate X Y (X / Y).
Proof.
  intros HY. pose proof (Z.mod_pos_bound X Y HY) as Hr.
  pose proof (Z.div_mod X Y ltac:(lia)) as Hd.
  unfold locate. replace (X - X / Y * Y) with (X mod Y) by lia.
  unfold new_location, new_location_even, new_location_odd.
  destruct (Z.even Y) eqn:Ev; [reflexivity|].
  destruct (Z.eqb_spec (X mod Y) 0); [reflexivity|]. f_equal.
  assert (Ho : Z.odd Y = true) by (rewrite <- Z.negb_even, Ev; reflexivity).
  apply Z.odd_spec in Ho. destruct Ho as [h Hh].
  destruct (Z.compare_spec (2 * (X mod Y) + 1) Y);
    destruct (Z.compare_spec (2 * (X mod Y)) Y); try reflexivity; lia.
Qed.

Lemma div_core_spec a b :
  0 < a < 2 ^ 53 -> 0 < b < 2 ^ 53 ->
  let s := 53 + Zdigits2 b - Zdigits2 a in
  0 < s <= 105 /\
  SFdiv_core_binary 53 1024 a 0 b 0 =
    (a * 2 ^ s / b, - s, locate (a * 2 ^ s) b (a * 2 ^ s / b)) /\
  2 ^ 52 <= a * 2 ^ s / b < 2 ^ 54.
Proof.
  intros Ha Hb s.
  destruct (Zdigits2_bounds a ltac:(lia)) as [[Al Au] Ap].
  destruct (Zdigits2_bounds b ltac:(lia)) as [[Bl Bu] Bp].
  assert (Ha53 : Zdigits2 a <= 53).
  { destruct (Z.le_gt_cases (Zdigits2 a) 53); [lia|].
    assert (2 ^ 53 <= 2 ^ (Zdigits2 a - 1)) by (apply Z.pow_le_mono_r; lia). lia. }
  assert (Hb53 : Zdigits2 b <= 53).
  { destruct (Z.le_gt_cases (Zdigits2 b) 53); [lia|].
    assert (2 ^ 53 <= 2 ^ (Zdigits2 b - 1)) by (apply Z.pow_le_mono_r; lia). lia. }
  assert (Hs : 0 < s <= 105) by (subst s; lia).
  split; [exact Hs|].
  assert (Hq : 2 ^ 52 <= a * 2 ^ s / b < 2 ^ 54).
  { assert (E1 : 2 ^ (Zdigits2 a - 1) * 2 ^ s = 2 ^ 52 * (2 * 2 ^ (Zdigits2 b - 1))).
    { rewrite <- Z.pow_succ_r, <- !Z.pow_add_r by lia. f_equal. subst s. lia. }
    assert (E2 : 2 ^ Zdigits2 a * 2 ^ s = 2 ^ 54 * 2 ^ (Zdigits2 b - 1)).
    { rewrite <- !Z.pow_add_r by lia. f_equal. subst s. lia. }
    assert (E3 : 2 ^ Zdigits2 b = 2 * 2 ^ (Zdigits2 b - 1)).
    { rewrite <- Z.pow_succ_r by lia. f_equal. lia. }
    pose proof (pow2_pos s ltac:(lia)) as Ps.
    split.
    - apply Z.div_le_lower_bound; [lia|]. nia.
    - apply Z.div_lt_upper_bound; [lia|]. nia. }
  split; [|exact Hq].
  unfold SFdiv_core_binary.
  rewrite !Z.add_0_r, Z.sub_0_r.
  rewrite fexp64_normal by lia.
  replace (Z.min (Zdigits2 a - Zdigits2 b - 53) 0) with (- s) by (subst s; lia).
  replace (0 - - s) with s by lia.
  destruct s as [|p|p] eqn:Es; try lia.
  rewrite Z.shiftl_mul_pow2 by lia.
  unfold Z.div, Z.modulo in *.
  pose proof (new_location_locate (a * 2 ^ Z.pos p) b ltac:(lia)) as Hl.
  unfold Z.div, Z.modulo in Hl.
  destruct (Z.div_eucl (a * 2 ^ Z.pos p) b) as [q r].
  rewrite Hl. reflexivity.
Qed.

Lemma int_truediv_spec a b :
  0 < a < 2 ^ 53 -> 0 < b < 2 ^ 53 ->
  exists m e,
    PyFloat.int_truediv a b = Ok (S754_finite false m e) /\
    -105 <= e <= 0 /\
    Zpos m = rne (a * 2 ^ (- e)) b /\
    2 ^ 52 <= Zpos m < 2 ^ 53.
Proof.
  intros Ha Hb.
  destruct (div_core_spec a b Ha Hb) as (Hs & Hcore & Hq).
  set (s := 53 + Zdigits2 b - Zdigits2 a) in *.
  set (X := a * 2 ^ s) in *.
  pose proof (pow2_pos s ltac:(lia)) as Ps.
  assert (Hn : Zdigits2 (X / b) = 53 \/ Zdigits2 (X / b) = 54).
  { destruct (Z.lt_ge_cases (X / b) (2 ^ 53)); [left|right];
      apply Zdigits2_unique; lia. }
  destruct (binary_round_aux_rne X b (X / b) (- s) (locate X b (X / b)))
    as (m & k & Hbra & Hk & Hk0 & Hm & Hrne & Hcy); try lia.
  { apply located_here; lia. }
  assert (Pk : 0 < 2 ^ k) by (apply pow2_pos; lia).
  assert (Hint : PyFloat.int_truediv a b = Ok (S754_finite false m (- s + k))).
  { unfold PyFloat.int_truediv. destruct (Z.eqb_spec b 0); [lia|].
    destruct a as [|pa|pa]; try lia. destruct b as [|pb|pb]; try lia.
    cbn [PyFloat.raw SFdiv xorb]. rewrite Hcore, Hbra. reflexivity. }
  assert (Hks : k <= s).
  { destruct Hcy as [Hcy|[_ Hcy]]; [lia|].
    destruct (Z.le_gt_cases k s) as [|Hc]; [assumption|exfalso].
    assert (Esk : s = 1 /\ k = 2) by lia. destruct Esk as [Es Ek].
    destruct (rne_half X (b * 2 ^ (k - 1))) as [Hh1 Hh2]; [rewrite Ek; simpl; lia|].
    rewrite Hcy in Hh1. subst X. rewrite Es, Ek in Hh1.
    change (2 ^ (2 - 1)) with 2 in Hh1. change (2 ^ 1) with 2 in Hh1. lia. }
  exists m, (- s + k). split; [exact Hint|]. split; [lia|]. split; [|exact Hm].
  replace (- (- s + k)) with (s - k) by lia.
  assert (EX : X = 2 ^ k * (a * 2 ^ (s - k))).
  { subst X. replace s with (k + (s - k)) at 1 by lia.
    rewrite Z.pow_add_r by lia. ring. }
  rewrite Hrne, EX, (Z.mul_comm b). apply rne_scale; lia.
Qed.

Lemma of_int_spec n :
  0 < n < 2 ^ 53 ->
  exists m e,
    PyFloat.of_int n = Ok (S754_finite false m e) /\
    -52 <= e <= 0 /\ 2 ^ 52 <= Zpos m < 2 ^ 53 /\
    Zpos m = n * 2 ^ (- e).
Proof.
  intros Hn. destruct n as [|p|p]; try lia.
  destruct (binary_round_spec p 0) as (m & e & Hbr & He & Hm & Hrne); try lia.
  exists m, e. unfold PyFloat.of_int. cbn [binary_normalize]. rewrite Hbr.
  repeat split; try lia. rewrite Hrne. change (2 ^ (- 0)) with 1. apply rne_one.
Qed.

Lemma SFsub_spec m1 e1 m2 e2 :
  -1000 <= e1 <= 0 -> -1000 <= e2 <= 0 ->
  let S1 := 2 ^ (- e1) in
  let S2 := 2 ^ (- e2) in
  let N := Zpos m1 * S2 - Zpos m2 * S1 in
  0 < N -> 2 * N < (2 ^ 54 - 1) * (S1 * S2) ->
  exists m e,
    SFsub 53 1024 (S754_finite false m1 e1) (S754_finite false m2 e2) =
      S754_finite false m e /\
    -1052 <= e <= 0 /\ 2 ^ 52 <= Zpos m < 2 ^ 53 /\
    Zpos m = rne (N * 2 ^ (- e)) (S1 * S2).
Proof.
  intros He1 He2 S1 S2 N HN0 HN.
  pose proof (pow2_pos (- e1) ltac:(lia)) as P1. fold S1 in P1.
  pose proof (pow2_pos (- e2) ltac:(lia)) as P2. fold S2 in P2.
  set (ez := Z.min e1 e2).
  pose proof (pow2_pos (- ez) ltac:(subst ez; lia)) as Pz.
  destruct (shl_align_le m1 e1 ez ltac:(subst ez; lia)) as [A1 _].
  destruct (shl_align_le m2 e2 ez ltac:(subst ez; lia)) as [A2 _].
  assert (Z1 : S1 * 2 ^ (e1 - ez) = 2 ^ (- ez)).
  { unfold S1. rewrite <- Z.pow_add_r by (subst ez; lia). f_equal. lia. }
  assert (Z2 : S2 * 2 ^ (e2 - ez) = 2 ^ (- ez)).
  { unfold S2. rewrite <- Z.pow_add_r by (subst ez; lia). f_equal. lia. }
  cbn [SFsub cond_Zopp]. fold ez.
  set (D := Zpos (fst (shl_align m1 e1 ez)) - Zpos (fst (shl_align m2 e2 ez))).
  assert (ED : D * (S1 * S2) = N * 2 ^ (- ez)).
  { unfold D, N. rewrite A1, A2.
    transitivity (Zpos m1 * S2 * (S1 * 2 ^ (e1 - ez)) - Zpos m2 * S1 * (S2 * 2 ^ (e2 - ez))); [ring|].
    rewrite Z1, Z2. ring. }
  assert (HD : 0 < D) by nia.
  destruct D as [|p|p] eqn:EqD; try lia.
  destruct (binary_round_spec p ez) as (m & e & Hbr & He & Hm & Hrne);
    [subst ez; lia|nia|].
  exists m, e. cbn [binary_normalize]. split; [exact Hbr|].
  split; [lia|]. split; [exact Hm|].
  rewrite Hrne. pose proof (pow2_pos (- e) ltac:(lia)).
  apply rne_ratio; [exact Pz|nia|].
  transitivity (Zpos p * (S1 * S2) * 2 ^ (- e)); [ring|]. rewrite ED. ring.
Qed.

Lemma ceil_spec m e :
  e <= 0 -> PyFloat.ceil (S754_finite false m e) = Ok (- (- Zpos m / 2 ^ (- e))).
Proof.
  intros He. cbn [PyFloat.ceil cond_Zopp].
  destruct (Z.leb_spec 0 e) as [H0|H0]; [|reflexivity].
  assert (e = 0) by lia. subst e. change (2 ^ (- 0)) with 1.
  rewrite Z.pow_0_r, Z.mul_1_r, Z.div_1_r, Z.opp_involutive. reflexivity.
Qed.

(** ** Exactness of the node distribution below [2^53] *)

(** First step: the node count computed through the float quotient is the
    exact ceiling of [c / n]. *)
Lemma nodes_exact c n :
  0 < c -> 0 < n -> c + n < 2 ^ 53 ->
  exists q, PyFloat.int_truediv c n = Ok q /\ PyFloat.ceil q = Ok (cdiv c n).
Proof.
  intros Hc Hn Hb.
  destruct (int_truediv_spec c n) as (m & e & Hdiv & He & Hrne & Hm); try lia.
  exists (S754_finite false m e). split; [exact Hdiv|].
  rewrite ceil_spec by lia. f_equal.
  pose proof (pow2_pos (- e) ltac:(lia)) as PS. set (S := 2 ^ (- e)) in *.
  destruct (cdiv_bounds c n Hn) as [Kl Ku]. set (K := cdiv c n) in *.
  destruct (rne_half (c * S) n Hn) as [H1 H2]. rewrite <- Hrne in H1, H2.
  apply cdiv_unique; [exact PS|]. split.
  - destruct (Z.lt_ge_cases ((K - 1) * S) (Zpos m)) as [|Hc']; [assumption|exfalso].
    assert (A1 : S <= c * S - Zpos m * n) by nia.
    assert (A2 : 2 ^ 53 * n <= 2 * (c * S) + n) by nia.
    assert (A3 : 2 * (c * S) <= c * n) by nia.
    nia.
  - rewrite Hrne. apply rne_le; [exact Hn|]. nia.
Qed.

Lemma gap_arith K n d kk S2 S3 m2 m3 P :
  P = 2 ^ 53 - 1 ->
  0 < K -> 0 < d < n -> 0 < S2 -> 0 < S3 ->
  K * n - d + n <= P ->
  K * kk + 1 <= d -> d + 1 <= K * (kk + 1) ->
  2 * (m2 * K - d * S2) <= K -> 2 * (d * S2 - m2 * K) <= K ->
  P + 1 <= 2 * m2 ->
  2 * (m3 * S2 - (n * S2 - m2) * S3) <= S2 ->
  2 * ((n * S2 - m2) * S3 - m3 * S2) <= S2 ->
  P + 1 <= 2 * m3 ->
  m3 <= (n - kk - 1) * S3 ->
  False.
Proof.
  intros EP HK0 Hd P2 P3 Hb Dl Du Ha Hb' Hm2 Hc3 Hd3 Hm3 Hge.
  assert (HP : 0 < P) by (subst P; lia).
  assert (HnP : n <= P - 1) by nia.
  clear EP.
  set (T := (kk + 1) * S2 - m2).
  assert (B1 : m3 * S2 <= (n - kk - 1) * S3 * S2).
  { apply Z.mul_le_mono_nonneg_r; lia. }
  assert (B2 : 2 * (S3 * T) <= S2) by (unfold T; lia).
  assert (B3a : 2 * (d * S2) + 2 * S2 <= 2 * (K * (kk + 1) * S2)).
  { assert ((d + 1) * S2 <= K * (kk + 1) * S2) by (apply Z.mul_le_mono_nonneg_r; lia). lia. }
  assert (B3 : 2 * S2 - K <= 2 * (K * T)) by (unfold T; lia).
  assert (B4a : K * (2 * (S3 * T)) <= K * S2) by (apply Z.mul_le_mono_nonneg_l; lia).
  assert (B4b : S3 * (2 * S2 - K) <= S3 * (2 * (K * T))) by (apply Z.mul_le_mono_nonneg_l; lia).
  assert (B4 : 2 * (S2 * S3) <= K * S2 + K * S3) by lia.
  assert (B5 : P * K <= 2 * (d * S2)).
  { assert ((P + 1) * K <= 2 * m2 * K) by (apply Z.mul_le_mono_nonneg_r; lia). lia. }
  assert (B6 : P * S2 <= 2 * ((n * S2 - m2) * S3)).
  { assert ((P + 1) * S2 <= 2 * m3 * S2) by (apply Z.mul_le_mono_nonneg_r; lia). lia. }
  assert (B8 : P * K * S3 <= 2 * (d * S2) * S3) by (apply Z.mul_le_mono_nonneg_r; lia).
  assert (B9 : K * (P * S2) <= K * (2 * ((n * S2 - m2) * S3))) by (apply Z.mul_le_mono_nonneg_l; lia).
  assert (B7 : P * (2 * (S2 * S3)) <= P * (K * S2 + K * S3)) by (apply Z.mul_le_mono_nonneg_l; lia).
  assert (B10a : (P * S2) * (2 * S3) <= (K * (n * S2 - m2) + d * S2) * (2 * S3)) by lia.
  assert (B10 : P * S2 <= K * (n * S2 - m2) + d * S2).
  { apply Z.mul_le_mono_pos_r with (p := 2 * S3); lia. }
  assert (B11 : 2 * (P * S2) <= 2 * (K * n * S2) + K) by lia.
  assert (B12a : 2 * (d * S2) <= 2 * ((P - 1) * S2)).
  { assert (d * S2 <= (P - 1) * S2) by (apply Z.mul_le_mono_nonneg_r; lia). lia. }
  assert (B12 : K < 2 * S2).
  { apply Z.mul_lt_mono_pos_l with (p := P); lia. }
  assert (B13 : P * S2 < (K * n + 1) * S2) by lia.
  assert (B14 : P < K * n + 1).
  { apply Z.mul_lt_mono_pos_r with (p := S2); lia. }
  lia.
Qed.

Lemma quotient_below K n d S2 m2 :
  0 < K -> 0 <= d < n -> 0 < S2 ->
  2 * (m2 * K - d * S2) <= K -> m2 < n * S2.
Proof.
  intros HK Hd P2 Ha.
  destruct (Z.lt_ge_cases m2 (n * S2)) as [|Hge]; [assumption|exfalso].
  assert (A1 : n * S2 * K <= m2 * K) by (apply Z.mul_le_mono_nonneg_r; lia).
  assert (A2 : (d + 1) * S2 <= n * S2) by (apply Z.mul_le_mono_nonneg_r; lia).
  assert (A3 : n * S2 * 1 <= n * S2 * K) by (apply Z.mul_le_mono_nonneg_l; nia).
  nia.
Qed.

Lemma cores_exact c n K :
  0 < c -> 0 < n -> c + n < 2 ^ 53 -> (K - 1) * n < c <= K * n ->
  exists r y,
    PyFloat.int_truediv (K * n - c) K = Ok r /\
    PyFloat.int_sub_float n r = Ok y /\
    PyFloat.ceil y = Ok (n - (K * n - c) / K).
Proof.
  intros Hc Hn Hb HK.
  assert (HK0 : 0 < K) by nia.
  assert (HKc : K <= c) by nia.
  set (d := K * n - c). assert (Hd : 0 <= d < n) by (subst d; lia).
  destruct (of_int_spec n) as (mn & en & Hof & Hen & Hmn & Emn); try lia.
  pose proof (pow2_pos (- en) ltac:(lia)) as Pn. set (Sn := 2 ^ (- en)) in *.
  destruct (Z.eq_dec d 0) as [Hd0|Hd0].
  - (* the quotient is +0.0 and the subtraction returns [n] unchanged *)
    exists (S754_zero false), (S754_finite false mn en).
    rewrite Hd0. split.
    { unfold PyFloat.int_truediv. destruct (Z.eqb_spec K 0); [lia|].
      destruct K as [|pk|pk]; try lia. reflexivity. }
    split.
    { unfold PyFloat.int_sub_float. rewrite Hof. reflexivity. }
    rewrite ceil_spec by lia. f_equal. fold Sn. rewrite Z.div_0_l by lia.
    apply cdiv_unique; [exact Pn|]. rewrite Emn. clear - Pn. nia.
  - destruct (int_truediv_spec d K) as (m2 & e2 & Hdiv & He2 & Hr2 & Hm2); try lia.
    pose proof (pow2_pos (- e2) ltac:(lia)) as P2. set (S2 := 2 ^ (- e2)) in *.
    destruct (rne_half (d * S2) K HK0) as [Ha Hb']. rewrite <- Hr2 in Ha, Hb'.
    pose proof (quotient_below K n d S2 (Zpos m2) HK0 Hd P2 Ha) as Hlt.
    assert (EN : Zpos mn * S2 - Zpos m2 * Sn = (n * S2 - Zpos m2) * Sn)
      by (rewrite Emn; ring).
    assert (HN0 : 0 < Zpos mn * S2 - Zpos m2 * Sn).
    { rewrite EN. apply Z.mul_pos_pos; lia. }
    assert (HN1 : 2 * (Zpos mn * S2 - Zpos m2 * Sn) < (2 ^ 54 - 1) * (Sn * S2)).
    { rewrite EN.
      assert ((n * S2 - Zpos m2) * Sn <= n * S2 * Sn)
        by (apply Z.mul_le_mono_nonneg_r; lia).
      assert (2 * n * (Sn * S2) < (2 ^ 54 - 1) * (Sn * S2))
        by (apply Z.mul_lt_mono_pos_r; [apply Z.mul_pos_pos|]; lia).
      lia. }
    destruct (SFsub_spec mn en m2 e2 ltac:(lia) ltac:(lia) HN0 HN1)
      as (m3 & e3 & Hsub & He3 & Hm3 & Hr3).
    fold Sn in Hr3. fold S2 in Hr3. rewrite EN in Hr3.
    pose proof (pow2_pos (- e3) ltac:(lia)) as P3. set (S3 := 2 ^ (- e3)) in *.
    set (W := n * S2 - Zpos m2) in *.
    assert (Hr3' : Zpos m3 = rne (W * S3) S2).
    { rewrite Hr3. apply rne_ratio; [apply Z.mul_pos_pos; lia|exact P2|ring]. }
    clear Hr3.
    exists (S754_finite false m2 e2), (S754_finite false m3 e3).
    split; [exact Hdiv|]. split.
    { unfold PyFloat.int_sub_float. rewrite Hof. cbn [bind]. rewrite Hsub. reflexivity. }
    rewrite ceil_spec by lia. f_equal. fold S3.
    set (kk := d / K).
    pose proof (Z.mul_div_le d K HK0) as Dl.
    pose proof (Z.mul_succ_div_gt d K HK0) as Du. fold kk in Dl, Du.
    destruct (rne_half (W * S3) S2 P2) as [Hc3 Hd3]. rewrite <- Hr3' in Hc3, Hd3.
    assert (Hm2lo : kk * S2 <= Zpos m2).
    { rewrite Hr2. apply rne_ge; [exact HK0|].
      replace (kk * S2 * K) with (K * kk * S2) by ring.
      apply Z.mul_le_mono_nonneg_r; lia. }
    apply cdiv_unique; [exact P3|]. split.
    + destruct (Z.lt_ge_cases ((n - kk - 1) * S3) (Zpos m3)) as [|Hge]; [assumption|exfalso].
      destruct (Z.eq_dec d (K * kk)) as [Hr0|Hr0].
      * (* exact quotient: every rounding is exact *)
        assert (E2 : Zpos m2 = kk * S2).
        { rewrite Hr2. replace (d * S2) with (kk * S2 * K) by (rewrite Hr0; ring).
          apply rne_exact; exact HK0. }
        assert (E3 : Zpos m3 = (n - kk) * S3).
        { rewrite Hr3'. replace (W * S3) with ((n - kk) * S3 * S2) by (unfold W; rewrite E2; ring).
          apply rne_exact; exact P2. }
        rewrite E3 in Hge. clear - Hge P3. nia.
      * (* inexact quotient: the rounding errors stay below the gap to the
           next integer because [c + n < 2^53] *)
        apply (gap_arith K n d kk S2 S3 (Zpos m2) (Zpos m3) (2 ^ 53 - 1));
          try reflexivity; try lia; subst d; lia.
    + rewrite Hr3'. apply rne_le; [exact P2|]. unfold W.
      replace ((n - kk) * S3 * S2) with ((n * S2 - kk * S2) * S3) by ring.
      apply Z.mul_le_mono_nonneg_r; lia.
Qed.

Theorem node_distribution_exact c n :
  0 < c -> 0 < n -> c + n < 2 ^ 53 ->
  _calculate_node_distribution c n =
    Ok (cdiv c n, n - (cdiv c n * n - c) / cdiv c n).
Proof.
  intros Hc Hn Hb.
  destruct (nodes_exact c n Hc Hn Hb) as (q & Hq & Hcq).
  destruct (cores_exact c n (cdiv c n) Hc Hn Hb (cdiv_bounds c n Hn))
    as (r & y & Hr & Hy & Hcy).
  unfold _calculate_node_distribution.
  rewrite Hq. cbn [bind]. rewrite Hcq. cbn [bind].
  rewrite Hr. cbn [bind]. rewrite Hy. cbn [bind]. rewrite Hcy. reflexivity.
Qed.

(** ** The specification's formula on integers *)

Lemma Qceiling_ratio a b :
  0 < b -> Qceiling (inject_Z a / inject_Z b) = cdiv a b.
Proof.
  intros Hb. destruct b as [|p|p]; try lia.
  unfold Qceiling, Qfloor, Qopp, Qdiv, Qmult, Qinv, inject_Z, cdiv.
  cbn [Qnum Qden]. rewrite Z.mul_1_r, Pos.mul_1_l. reflexivity.
Qed.

Lemma Qceiling_int_minus_ratio n a b :
  0 < b -> Qceiling (inject_Z n - inject_Z a / inject_Z b) = n - a / b.
Proof.
  intros Hb. destruct b as [|p|p]; try lia.
  unfold Qceiling, Qfloor, Qminus, Qplus, Qopp, Qdiv, Qmult, Qinv, inject_Z.
  cbn [Qnum Qden]. rewrite !Pos.mul_1_l, !Z.mul_1_r.
  replace (- (n * Z.pos p + - a)) with (a + - n * Z.pos p) by ring.
  rewrite Z.div_add by lia. lia.
Qed.

Lemma cdiv_pos a b : 0 < a -> 0 < b -> 0 < cdiv a b.
Proof. intros Ha Hb. pose proof (cdiv_bounds a b Hb). nia. Qed.

Lemma node_distribution_spec_eq c n :
  0 < c -> 0 < n ->
  node_distribution_spec c n = (cdiv c n, n - (cdiv c n * n - c) / cdiv c n).
Proof.
  intros Hc Hn. unfold node_distribution_spec.
  rewrite Qceiling_ratio by exact Hn.
  rewrite Qceiling_int_minus_ratio by (apply cdiv_pos; assumption).
  reflexivity.
Qed.

(** The exact formula meets the allocation guarantee. *)
Lemma exact_distribution_bounds c n :
  0 < c -> 0 < n ->
  let k := cdiv c n in
  let p := n - (k * n - c) / k in
  c <= k * p /\ p <= n /\ 0 < k /\ 0 < p.
Proof.
  intros Hc Hn k p.
  pose proof (cdiv_pos c n Hc Hn) as Hk. fold k in Hk.
  destruct (cdiv_bounds c n Hn) as [Kl Ku]. fold k in Kl, Ku.
  set (d := k * n - c) in *. assert (Hd : 0 <= d < n) by (subst d; lia).
  pose proof (Z.mul_div_le d k Hk) as Dl.
  assert (Dn : 0 <= d / k) by (apply Z.div_pos; lia).
  assert (Dd : d / k <= d).
  { destruct (Z.eq_dec d 0) as [->|]; [rewrite Z.div_0_l; lia|].
    apply Z.div_le_upper_bound; [lia|]. nia. }
  subst p. split; [|lia].
  replace (k * (n - d / k)) with (k * n - k * (d / k)) by ring. subst d. lia.
Qed.

(** When the request fits on one node, the float computation returns
    [(1, c)]: the quotient [c / n] lies in (0, 1], and [n - (n - c)] is
    computed without rounding. *)
Lemma single_node_exact c n :
  0 < c -> c <= n -> n < 2 ^ 53 -> _calculate_node_distribution c n = Ok (1, c).
Proof.
  intros Hc Hcn Hn.
  destruct (int_truediv_spec c n) as (m & e & Hdiv & He & Hrne & Hm); try lia.
  pose proof (pow2_pos (- e) ltac:(lia)) as PS. set (S := 2 ^ (- e)) in *.
  assert (Hceil : PyFloat.ceil (S754_finite false m e) = Ok 1).
  { rewrite ceil_spec by lia. f_equal. fold S.
    apply cdiv_unique; [exact PS|]. split; [lia|].
    rewrite Hrne, Z.mul_1_l. apply rne_le; [lia|].
    rewrite (Z.mul_comm c S). apply Z.mul_le_mono_nonneg_l; lia. }
  unfold _calculate_node_distribution.
  rewrite Hdiv. cbn [bind]. rewrite Hceil. cbn [bind]. rewrite Z.mul_1_l.
  destruct (of_int_spec n) as (mn & en & Hof & Hen & Hmn & Emn); try lia.
  pose proof (pow2_pos (- en) ltac:(lia)) as Pn. set (Sn := 2 ^ (- en)) in *.
  destruct (Z.eq_dec (n - c) 0) as [Hd0|Hd0].
  - rewrite Hd0. change (PyFloat.int_truediv 0 1) with (Ok (S754_zero false)).
    cbn [bind]. unfold PyFloat.int_sub_float. rewrite Hof. cbn [bind SFsub].
    rewrite ceil_spec by lia. cbn [bind]. fold Sn.
    replace (- (- Z.pos mn / Sn)) with c; [reflexivity|].
    symmetry. apply cdiv_unique; [exact Pn|]. rewrite Emn.
    replace n with c by lia. clear - Pn. nia.
  - destruct (int_truediv_spec (n - c) 1) as (m2 & e2 & Hdiv2 & He2 & Hr2 & Hm2); try lia.
    pose proof (pow2_pos (- e2) ltac:(lia)) as P2. set (S2 := 2 ^ (- e2)) in *.
    rewrite rne_one in Hr2.
    assert (EN : Zpos mn * S2 - Zpos m2 * Sn = c * (Sn * S2))
      by (rewrite Emn, Hr2; ring).
    assert (PSS : 0 < Sn * S2) by (apply Z.mul_pos_pos; lia).
    assert (HN0 : 0 < Zpos mn * S2 - Zpos m2 * Sn).
    { rewrite EN. apply Z.mul_pos_pos; lia. }
    assert (HN1 : 2 * (Zpos mn * S2 - Zpos m2 * Sn) < (2 ^ 54 - 1) * (Sn * S2)).
    { rewrite EN, Z.mul_assoc. apply Z.mul_lt_mono_pos_r; lia. }
    destruct (SFsub_spec mn en m2 e2 ltac:(lia) ltac:(lia) HN0 HN1)
      as (m3 & e3 & Hsub & He3 & Hm3 & Hr3).
    fold Sn in Hr3. fold S2 in Hr3. rewrite EN in Hr3.
    pose proof (pow2_pos (- e3) ltac:(lia)) as P3. set (S3 := 2 ^ (- e3)) in *.
    replace (c * (Sn * S2) * S3) with (c * S3 * (Sn * S2)) in Hr3 by ring.
    rewrite rne_exact in Hr3 by exact PSS.
    rewrite Hdiv2. cbn [bind]. unfold PyFloat.int_sub_float. rewrite Hof.
    cbn [bind]. rewrite Hsub, ceil_spec by lia. cbn [bind]. fold S3.
    replace (- (- Z.pos m3 / S3)) with c; [reflexivity|].
    symmetry. apply cdiv_unique; [exact P3|]. rewrite Hr3. clear - P3. nia.
Qed.

(** * The claims about [_calculate_node_distribution] *)

(** C1, as stated, fails: for 8769076883100964 cores on nodes of
    4132476584121421 cores (both below 2^53) the function returns 3 nodes of
    2923025627700321 cores, one core short of the request. *)
Lemma C1_all_positive_inputs_counterexample :
  ~ (forall c n : Z, 0 < c -> 0 < n ->
       exists k p,
         _calculate_node_distribution c n = Ok (k, p) /\
         c <= k * p /\ p <= n /\ 0 < k /\ 0 < p).
Proof.
  intros H.
  destruct (H 8769076883100964 4132476584121421) as (k & p & E & Hc & _); try lia.
  vm_compute in E. injection E as <- <-. lia.
Qed.

(** C1, amended: for positive inputs whose sum is below 2^53, the function
    returns a pair [(nodes, cores_per_node)] of positive integers with
    [nodes * cores_per_node >= n_cores_required] and
    [cores_per_node <= tot_cores_per_node]. *)
Theorem C1_node_distribution_covers_request (c n : Z) :
  0 < c -> 0 < n -> c + n < 2 ^ 53 ->
  exists k p,
    _calculate_node_distribution c n = Ok (k, p) /\
    c <= k * p /\ p <= n /\ 0 < k /\ 0 < p.
Proof.
  intros Hc Hn Hb.
  exists (cdiv c n), (n - (cdiv c n * n - c) / cdiv c n).
  split; [apply node_distribution_exact; assumption|].
  apply exact_distribution_bounds; assumption.
Qed.

Lemma C1_node_distribution_covers_request_witness :
  0 < 192 /\ 0 < 128 /\ 192 + 128 < 2 ^ 53 /\
  exists k p,
    _calculate_node_distribution 192 128 = Ok (k, p) /\
    192 <= k * p /\ p <= 128 /\ 0 < k /\ 0 < p.
Proof.
  split; [reflexivity|]. split; [reflexivity|]. split; [reflexivity|].
  apply (C1_node_distribution_covers_request 192 128); reflexivity.
Defined.

(** C2, as stated, fails: for 2^53 + 1 cores on one-core nodes the exact
    quotient is 2^53 + 1, but the float quotient rounds to 2^53. *)
Lemma C2_exact_formula_counterexample :
  ~ (forall c n : Z, 0 < c -> 0 < n ->
       _calculate_node_distribution c n = Ok (node_distribution_spec c n)).
Proof.
  intros H. specialize (H (2 ^ 53 + 1) 1 ltac:(lia) ltac:(lia)).
  vm_compute in H. discriminate H.
Qed.

(** C2, amended: for positive inputs whose sum is below 2^53, the function
    returns the pair given by the formula in exact rational arithmetic. *)
Theorem C2_node_distribution_formula (c n : Z) :
  0 < c -> 0 < n -> c + n < 2 ^ 53 ->
  _calculate_node_distribution c n = Ok (node_distribution_spec c n).
Proof.
  intros Hc Hn Hb.
  rewrite node_distribution_spec_eq by assumption.
  apply node_distribution_exact; assumption.
Qed.

Lemma C2_node_distribution_formula_witness :
  0 < 129 /\ 0 < 128 /\ 129 + 128 < 2 ^ 53 /\
  _calculate_node_distribution 129 128 = Ok (node_distribution_spec 129 128).
Proof.
  split; [reflexivity|]. split; [reflexivity|]. split; [reflexivity|].
  apply (C2_node_distribution_formula 129 128); reflexivity.
Defined.

(** C3, as stated, fails: one core on nodes of 2^53 + 1 cores gives
    [(1, 0)], because [float(2^53 + 1)] is [2^53]. *)
Lemma C3_single_node_counterexample :
  ~ (forall c n : Z, 0 < c -> c <= n ->
       _calculate_node_distribution c n = Ok (1, c)).
Proof.
  intros H. specialize (H 1 (2 ^ 53 + 1) ltac:(lia) ltac:(lia)).
  vm_compute in H. discriminate H.
Qed.

(** C3, amended: for positive [c <= n] with [n] below 2^53, the function
    returns exactly [(1, c)]. *)
Theorem C3_single_node (c n : Z) :
  0 < c -> c <= n -> n < 2 ^ 53 ->
  _calculate_node_distribution c n = Ok (1, c).
Proof. apply single_node_exact. Qed.

Lemma C3_single_node_witness :
  0 < 96 /\ 96 <= 128 /\ 128 < 2 ^ 53 /\
  _calculate_node_distribution 96 128 = Ok (1, 96).
Proof.
  split; [reflexivity|]. split; [discriminate|]. split; [reflexivity|].
  apply (C3_single_node 96 128); [reflexivity|discriminate|reflexivity].
Defined.

(** C4: the four worked examples of the specification. *)
Theorem C4_worked_examples :
  _calculate_node_distribution 192 128 = Ok (2, 96) /\
  _calculate_node_distribution 128 128 = Ok (1, 128) /\
  _calculate_node_distribution 129 128 = Ok (2, 65) /\
  _calculate_node_distribution 256 128 = Ok (2, 128).
Proof. repeat split; vm_compute; reflexivity. Qed.

(** C5: the function is deterministic and reads nothing but its two
    arguments: run statement by statement over the names of the call, its
    body gives the same result whatever the global names of the module hold
    beside the imported [ceil], and this result is the one of
    [_calculate_node_distribution] above. *)
Theorem C5_deterministic (others others' : Ast.namespace) (c n : Z) :
  Ast.call_function (Ast.module_globals others) c n
  = Ast.call_function (Ast.module_globals others') c n /\
  Ast.call_function (Ast.module_globals others) c n
  = match _calculate_node_distribution c n with
    | Ok (nodes, cores) => Ok (Ast.Pair (Ast.VInt nodes) (Ast.VInt cores))
    | Raise e => Raise e
    end.
Proof.
  assert (H : forall g : Ast.namespace,
    Ast.call_function (Ast.module_globals g) c n
    = match _calculate_node_distribution c n with
      | Ok (nodes, cores) => Ok (Ast.Pair (Ast.VInt nodes) (Ast.VInt cores))
      | Raise e => Raise e
      end).
  { intros g.
    unfold Ast.call_function, Ast.body, Ast.parameters, Ast.module_globals,
      _calculate_node_distribution.
    cbn [Ast.targets app Ast.exec Ast.eval Ast.lookup existsb String.eqb Ascii.eqb
         Bool.eqb orb Ast.assign].
    cbn [bind Ast.binop].
    destruct (PyFloat.int_truediv c n) as [q|e]; cbn [bind Ast.call]; [|reflexivity].
    destruct (PyFloat.ceil q) as [k|e]; cbn [bind]; [|reflexivity].
    cbn [bind Ast.binop].
    destruct (PyFloat.int_truediv (k * n - c) k) as [r|e]; cbn [bind]; [|reflexivity].
    cbn [Ast.is_number andb Ast.to_float]. unfold PyFloat.int_sub_float.
    destruct (PyFloat.of_int n) as [f|e]; cbn [bind Ast.float_op Ast.call]; [|reflexivity].
    destruct (PyFloat.ceil (SFsub 53 1024 f r)) as [p|e]; cbn [bind]; [|reflexivity].
    reflexivity. }
  split; [|exact (H others)].
  now rewrite (H others), (H others').
Qed.

(** The global names [n_cores_required] and [n_nodes_to_request] of the
    module, if it has them, are hidden by the local names of the call. *)
Lemma C5_deterministic_witness :
  Ast.call_function (Ast.module_globals (fun _ => None)) 192 128
  = Ast.call_function
      (Ast.module_globals
         (Ast.assign (Ast.assign (fun _ => None) "n_cores_required" (Ast.VInt 7))
            "n_nodes_to_request" Ast.VNone))
      192 128 /\
  Ast.call_function (Ast.module_globals (fun _ => None)) 192 128
  = Ok (Ast.Pair (Ast.VInt 2) (Ast.VInt 96)).
Proof.
  split; [|reflexivity].
  exact (proj1 (C5_deterministic
                  (fun _ => None)
                  (Ast.assign (Ast.assign (fun _ => None) "n_cores_required" (Ast.VInt 7))
                     "n_nodes_to_request" Ast.VNone)
                  192 128)).
Defined.

(** * Strings, lists and the remaining functions

    ** Appending strings *)

Lemma app_assoc_str (a b c : string) : (a ++ b) ++ c = a ++ (b ++ c).
Proof. induction a as [|x a IH]; cbn; [reflexivity|now rewrite IH]. Qed.

Lemma app_nil_r_str (a : string) : a ++ "" = a.
Proof. induction a as [|x a IH]; cbn; [reflexivity|now rewrite IH]. Qed.

Lemma app_length_str (a b : string) :
  String.length (a ++ b) = (String.length a + String.length b)%nat.
Proof. induction a as [|x a IH]; cbn; [reflexivity|now rewrite IH]. Qed.

(** ** Substrings and [str.replace] *)

Lemma prefix_iff (p s : string) : prefix p s = true <-> exists b, s = p ++ b.
Proof.
  revert s. induction p as [|x p IH]; intros s.
  - split; [intros _; now exists s|intros _; destruct s; reflexivity].
  - destruct s as [|y s]; cbn [prefix append].
    + split; [discriminate|intros [b Hb]; discriminate].
    + destruct (Ascii.ascii_dec x y) as [->|Hn].
      * rewrite IH. split; intros [b Hb]; exists b; congruence.
      * split; [discriminate|]. intros [b Hb]. congruence.
Qed.

Lemma contains_iff (sub s : string) : PyStr.contains sub s = true <-> occurs sub s.
Proof.
  induction s as [|c s IH]; cbn [PyStr.contains].
  - destruct (prefix sub "") eqn:E.
    + split; [intros _|reflexivity]. apply prefix_iff in E. destruct E as [b Hb].
      exists "", b. exact Hb.
    + split; [discriminate|]. intros (a & b & H).
      destruct a; cbn in H; [|discriminate].
      assert (prefix sub "" = true) by (apply prefix_iff; now exists b). congruence.
  - destruct (prefix sub (String c s)) eqn:E.
    + split; [intros _|reflexivity]. apply prefix_iff in E. destruct E as [b Hb].
      exists "", b. exact Hb.
    + rewrite IH. split.
      * intros (a & b & H). exists (String c a), b. cbn. now rewrite H.
      * intros (a & b & H). destruct a as [|x a]; cbn in H.
        -- assert (prefix sub (String c s) = true) by (apply prefix_iff; now exists b).
           congruence.
        -- exists a, b. congruence.
Qed.

Lemma contains_false_iff (sub s : string) :
  PyStr.contains sub s = false <-> ~ occurs sub s.
Proof.
  rewrite <- contains_iff. destruct (PyStr.contains sub s); split; congruence.
Qed.

(** Dropping the rest of a match. *)
Lemma replace_from_skip old new (u b : string) :
  PyStr.replace_from old new (u ++ b) (String.length u) = PyStr.replace_from old new b 0.
Proof.
  induction u as [|x u IH]; cbn [append String.length].
  - reflexivity.
  - cbn [PyStr.replace_from]. exact IH.
Qed.

Lemma replace_from_absent old new s :
  PyStr.contains old s = false -> PyStr.replace_from old new s 0 = s.
Proof.
  induction s as [|c s IH]; cbn [PyStr.contains PyStr.replace_from]; [reflexivity|].
  destruct (prefix old (String c s)); [discriminate|].
  intros H. now rewrite IH.
Qed.

Lemma replace_from_first old new s :
  old <> "" -> PyStr.contains old s = true ->
  exists a b,
    s = a ++ old ++ b /\ leftmost old a s /\
    PyStr.replace_from old new s 0 = a ++ new ++ PyStr.replace_from old new b 0.
Proof.
  intros Hold. induction s as [|c s IH]; cbn [PyStr.contains PyStr.replace_from].
  - destruct (prefix old "") eqn:E; [|discriminate]. intros _.
    apply prefix_iff in E. destruct E as [b Hb].
    destruct old; [congruence|discriminate].
  - destruct (prefix old (String c s)) eqn:E.
    + intros _. apply prefix_iff in E. destruct E as [b Hb].
      exists "", b. split; [exact Hb|]. split; [intros a' b' _; cbn; lia|].
      cbn [append]. f_equal.
      destruct old as [|y old']; [congruence|].
      cbn in Hb. injection Hb as _ Hs. rewrite Hs.
      cbn [String.length]. replace (S (String.length old') - 1)%nat with (String.length old') by lia.
      apply replace_from_skip.
    + intros H. destruct (IH H) as (a & b & Hs & Hl & Hr).
      exists (String c a), b. split; [cbn; now rewrite <- Hs|]. split.
      * intros a' b' H'. destruct a' as [|x a'].
        -- cbn in H'. assert (prefix old (String c s) = true)
             by (apply prefix_iff; now exists b').
           congruence.
        -- cbn in H'. injection H' as _ H'. cbn [String.length].
           apply le_n_S. exact (Hl a' b' H').
      * cbn [append]. now rewrite Hr.
Qed.

Lemma replace_from_all old new :
  old <> "" ->
  forall n s, (String.length s <= n)%nat ->
    replaced_all old new s (PyStr.replace_from old new s 0).
Proof.
  intros Hold. induction n as [|n IH]; intros s Hlen.
  - destruct s; [|cbn in Hlen; lia]. cbn. apply replaced_none.
    intros (a & b & H). destruct a; [|discriminate]. destruct old; [congruence|discriminate].
  - destruct (PyStr.contains old s) eqn:E.
    + destruct (replace_from_first old new s Hold E) as (a & b & Hs & Hl & Hr).
      rewrite Hr. rewrite Hs in Hl |- *. apply replaced_first; [exact Hl|].
      apply IH. rewrite Hs, !app_length_str in Hlen.
      destruct old; [congruence|]. cbn in Hlen. lia.
    + rewrite replace_from_absent by exact E.
      apply replaced_none. now apply contains_false_iff.
Qed.

(** [str.replace] replaces every occurrence of a non-empty pattern. *)
Lemma replace_replaces_all s old new :
  old <> "" -> replaced_all old new s (PyStr.replace s old new).
Proof.
  intros Hold. destruct old as [|c old]; [congruence|].
  cbn [PyStr.replace]. now apply replace_from_all with (n := String.length s).
Qed.

(** Without an occurrence, [str.replace] returns its input. *)
Lemma replace_absent s old new :
  PyStr.contains old s = false -> PyStr.replace s old new = s.
Proof.
  intros H. destruct old as [|c old].
  - destruct s; cbn in H; discriminate.
  - cbn [PyStr.replace]. now apply replace_from_absent.
Qed.

(** ** [_replace_text_in_file] *)

Lemma concat_empty_cons (x : string) (l : list string) :
  String.concat "" (x :: l) = x ++ String.concat "" l.
Proof.
  destruct l as [|y l]; cbn [String.concat append]; [now rewrite app_nil_r_str|reflexivity].
Qed.

Lemma has_char_app c (a b : string) :
  PyStr.has_char c (a ++ b) = PyStr.has_char c a || PyStr.has_char c b.
Proof.
  unfold PyStr.has_char. induction a as [|x a IH]; [reflexivity|].
  cbn [append list_ascii_of_string existsb]. now rewrite IH, orb_assoc.
Qed.

Lemma write_file_same fs path data : write_file fs path data path = Some data.
Proof. unfold write_file. now rewrite String.eqb_refl. Qed.



(** *** Reading the file *)

Lemma universal_newlines_bounded : forall n s,
  (String.length s <= n)%nat -> lf_normalised s (universal_newlines s).
Proof.
  induction n as [|n IH]; intros s Hlen; destruct s as [|c s];
    try apply lf_end; cbn [String.length] in Hlen; [lia|].
  cbn [universal_newlines].
  destruct (Ascii.eqb_spec c PyStr.carriage_return) as [->|Hc].
  - destruct s as [|c' s''].
    + apply lf_alone; [discriminate|apply lf_end].
    + destruct (Ascii.eqb_spec c' PyStr.newline) as [->|Hc'].
      * apply lf_pair. apply IH. cbn [String.length] in Hlen. lia.
      * apply lf_alone; [intros s' E; congruence|]. apply IH. lia.
  - apply lf_other; [exact Hc|]. apply IH. lia.
Qed.

(** Reading translates the newlines. *)
Lemma universal_newlines_normalises s : lf_normalised s (universal_newlines s).
Proof. now apply universal_newlines_bounded with (n := String.length s). Qed.

(** A text without carriage return is read as it is. *)
Lemma lf_normalised_without_cr s t :
  lf_normalised s t -> PyStr.has_char PyStr.carriage_return s = false -> t = s.
Proof.
  unfold PyStr.has_char.
  induction 1 as [|s t _ _|s t _ _ _|c s t Hc _ IH];
    cbn [list_ascii_of_string existsb]; intros Hcr;
    try reflexivity; try discriminate Hcr.
  apply orb_false_iff in Hcr. destruct Hcr as [_ Hcr]. now rewrite (IH Hcr).
Qed.

Lemma text_lines_from_spec s : forall cur,
  PyStr.has_char PyStr.newline cur = false ->
  lines_of (cur ++ s) (text_lines_from s cur).
Proof.
  induction s as [|c s IH]; intros cur Hcur; cbn [text_lines_from].
  - rewrite app_nil_r_str. destruct cur as [|x cur]; [apply lines_end|].
    apply lines_last; [discriminate|exact Hcur].
  - destruct (Ascii.eqb_spec c PyStr.newline) as [->|Hn].
    + change (cur ++ String PyStr.newline s) with (cur ++ PyStr.nl ++ s).
      change (cur ++ String PyStr.newline "") with (cur ++ PyStr.nl).
      apply lines_next; [exact Hcur|]. exact (IH "" eq_refl).
    + replace (cur ++ String c s) with ((cur ++ String c "") ++ s)
        by (now rewrite app_assoc_str).
      apply IH. rewrite has_char_app, Hcur. unfold PyStr.has_char.
      cbn [list_ascii_of_string existsb orb].
      destruct (Ascii.eqb_spec PyStr.newline c); [congruence|reflexivity].
Qed.

(** Iterating over the text gives its lines. *)
Lemma text_lines_spec s : lines_of s (text_lines s).
Proof. exact (text_lines_from_spec s "" eq_refl). Qed.

(** The lines of a text, one after the other, are the text. *)
Lemma lines_of_concat text lines :
  lines_of text lines -> String.concat "" lines = text.
Proof.
  induction 1 as [|body _ _|body rest lines _ _ IH]; [reflexivity|reflexivity|].
  now rewrite concat_empty_cons, IH, app_assoc_str.
Qed.

(** *** The loop over the lines *)

Lemma replace_lines_written encodable old new lines : forall flag written,
  Forall (fun line => encodable (PyStr.replace line old new) = true) lines ->
  replace_lines encodable old new lines flag written
  = (flag || existsb (PyStr.contains old) lines,
     written ++ String.concat "" (map (fun line => PyStr.replace line old new) lines),
     None).
Proof.
  induction lines as [|l lines IH]; intros flag written Henc;
    cbn [replace_lines existsb map].
  - cbn [String.concat]. now rewrite orb_false_r, app_nil_r_str.
  - inversion Henc as [|? ? Hl Hrest]. subst. rewrite Hl, (IH _ _ Hrest).
    rewrite concat_empty_cons, app_assoc_str. f_equal. f_equal.
    destruct (PyStr.contains old l), flag; reflexivity.
Qed.


(** *** The replacement in a line *)

Lemma interleave_concat new s :
  PyStr.interleave new s
  = String.concat "" (map (fun c => String c new) (list_ascii_of_string s)).
Proof.
  induction s as [|c s IH]; [reflexivity|].
  cbn [PyStr.interleave list_ascii_of_string map].
  now rewrite concat_empty_cons, IH.
Qed.

(** [str.replace] replaces every occurrence, also of the empty text. *)
Lemma replace_replaced s old new : replaced old new s (PyStr.replace s old new).
Proof.
  destruct old as [|c old].
  - unfold replaced, inserted_around. cbn [PyStr.replace]. now rewrite interleave_concat.
  - apply replace_replaces_all. discriminate.
Qed.

Lemma replaced_lines old new lines :
  Forall2 (replaced old new) lines
    (map (fun line => PyStr.replace line old new) lines).
Proof.
  induction lines as [|l lines IH]; cbn [map]; constructor; [|exact IH].
  apply replace_replaced.
Qed.

Lemma unchanged_lines old new lines :
  existsb (PyStr.contains old) lines = false ->
  map (fun line => PyStr.replace line old new) lines = lines.
Proof.
  induction lines as [|l lines IH]; cbn [existsb map]; [reflexivity|].
  intros H. apply orb_false_iff in H. destruct H as [H1 H2].
  now rewrite replace_absent, IH.
Qed.

(** What the function does to a file that decodes, when every line it
    writes can be encoded. *)
Lemma replace_text_in_text encodable fs file_path old_text new_text content :
  fs file_path = Some (Text content) ->
  Forall (fun line => encodable (PyStr.replace line old_text new_text) = true)
    (text_lines (universal_newlines content)) ->
  _replace_text_in_file encodable fs file_path old_text new_text
  = (rename_file
       (write_file (write_file fs (file_path ++ ".tmp") (Text ""))
          (file_path ++ ".tmp")
          (Text (String.concat ""
                   (map (fun line => PyStr.replace line old_text new_text)
                      (text_lines (universal_newlines content))))))
       (file_path ++ ".tmp") file_path,
     Ok (existsb (PyStr.contains old_text) (text_lines (universal_newlines content)))).
Proof.
  intros Hfs Henc. unfold _replace_text_in_file. rewrite Hfs.
  now rewrite (replace_lines_written _ _ _ _ false "" Henc).
Qed.

Lemma writable_lines encodable old new content :
  writable encodable old new content ->
  Forall (fun line => encodable (PyStr.replace line old new) = true)
    (text_lines (universal_newlines content)).
Proof.
  intros Hw. apply Forall_forall. intros line Hin.
  apply (Hw (universal_newlines content) (text_lines (universal_newlines content)) line).
  - apply universal_newlines_normalises.
  - apply text_lines_spec.
  - exact Hin.
  - apply replace_replaced.
Qed.

Lemma renamed_file fs tmp path data :
  rename_file (write_file fs tmp data) tmp path path = Some data.
Proof. unfold rename_file. rewrite write_file_same. apply write_file_same. Qed.

(** C10, as stated, fails: in a file whose one line ends with a carriage
    return and a newline, [old_text] occurs nowhere, and yet the content
    changes: the line is written back ending with a newline alone. *)
Lemma C10_carriage_return_counterexample :
  PyStr.contains "dt"
    ("title" ++ String PyStr.carriage_return (String PyStr.newline "")) = false /\
  snd (_replace_text_in_file (fun _ => true)
         (write_file (fun _ => None) "/case/roms.in"
            (Text ("title" ++ String PyStr.carriage_return (String PyStr.newline ""))))
         "/case/roms.in" "dt" "DT")
  = Ok false /\
  fst (_replace_text_in_file (fun _ => true)
         (write_file (fun _ => None) "/case/roms.in"
            (Text ("title" ++ String PyStr.carriage_return (String PyStr.newline ""))))
         "/case/roms.in" "dt" "DT") "/case/roms.in"
  = Some (Text ("title" ++ PyStr.nl)) /\
  Text ("title" ++ PyStr.nl)
  <> Text ("title" ++ String PyStr.carriage_return (String PyStr.newline "")).
Proof. repeat split. discriminate. Qed.

(** C10, amended.  For a file that decodes, read with its newlines
    translated and line by line, and when every line written can be
    encoded: the function returns [True] exactly when [old_text] occurs in
    some line; afterwards the file holds every line with every occurrence
    of [old_text] replaced by [new_text]; when [old_text] occurs in no
    line, the file holds the text as read, which is the content as it was
    when the file has no carriage return. *)
Theorem C10_replace_text_in_file
    (encodable : string -> bool) (fs : files)
    (file_path old_text new_text content : string) :
  fs file_path = Some (Text content) ->
  writable encodable old_text new_text content ->
  let out := _replace_text_in_file encodable fs file_path old_text new_text in
  exists text lines lines',
    lf_normalised content text /\
    (PyStr.has_char PyStr.carriage_return content = false -> text = content) /\
    lines_of text lines /\
    Forall2 (replaced old_text new_text) lines lines' /\
    (exists b, snd out = Ok b) /\
    (snd out = Ok true <-> exists line, In line lines /\ occurs old_text line) /\
    fst out file_path = Some (Text (String.concat "" lines')) /\
    ((forall line, In line lines -> ~ occurs old_text line) ->
     fst out file_path = Some (Text text)).
Proof.
  intros Hfs Hw out.
  set (text := universal_newlines content).
  set (lines := text_lines text).
  set (lines' := map (fun line => PyStr.replace line old_text new_text) lines).
  assert (Eout : out =
    (rename_file
       (write_file (write_file fs (file_path ++ ".tmp") (Text ""))
          (file_path ++ ".tmp") (Text (String.concat "" lines')))
       (file_path ++ ".tmp") file_path,
     Ok (existsb (PyStr.contains old_text) lines))).
  { apply replace_text_in_text; [exact Hfs|]. now apply writable_lines. }
  assert (Efile : fst out file_path = Some (Text (String.concat "" lines'))).
  { rewrite Eout. cbn [fst]. apply renamed_file. }
  exists text, lines, lines'.
  split; [apply universal_newlines_normalises|].
  split; [apply lf_normalised_without_cr; apply universal_newlines_normalises|].
  split; [apply text_lines_spec|].
  split; [apply replaced_lines|].
  split; [rewrite Eout; eexists; reflexivity|].
  split.
  { rewrite Eout. cbn [snd]. split.
    - intros H. injection H as H. apply existsb_exists in H.
      destruct H as (line & Hin & Hc). exists line. split; [exact Hin|].
      now apply contains_iff.
    - intros (line & Hin & Hc). f_equal. apply existsb_exists.
      exists line. split; [exact Hin|]. now apply contains_iff. }
  split; [exact Efile|].
  intros Hnone. rewrite Efile. f_equal. f_equal. unfold lines'.
  rewrite unchanged_lines; [apply lines_of_concat, text_lines_spec|].
  destruct (existsb (PyStr.contains old_text) lines) eqn:E; [exfalso|reflexivity].
  apply existsb_exists in E. destruct E as (line & Hin & Hc).
  apply (Hnone line Hin). now apply contains_iff.
Qed.

Lemma C10_replace_text_in_file_witness :
  write_file (fun _ => None) "/case/roms.in"
    (Text ("title" ++ PyStr.nl ++ "ntimes = 10" ++ PyStr.nl)) "/case/roms.in"
  = Some (Text ("title" ++ PyStr.nl ++ "ntimes = 10" ++ PyStr.nl)) /\
  writable (fun _ => true) "10" "20" ("title" ++ PyStr.nl ++ "ntimes = 10" ++ PyStr.nl) /\
  (exists text lines lines',
     lf_normalised ("title" ++ PyStr.nl ++ "ntimes = 10" ++ PyStr.nl) text /\
     lines_of text lines /\
     Forall2 (replaced "10" "20") lines lines' /\
     fst (_replace_text_in_file (fun _ => true)
            (write_file (fun _ => None) "/case/roms.in"
               (Text ("title" ++ PyStr.nl ++ "ntimes = 10" ++ PyStr.nl)))
            "/case/roms.in" "10" "20") "/case/roms.in"
     = Some (Text (String.concat "" lines'))) /\
  snd (_replace_text_in_file (fun _ => true)
         (write_file (fun _ => None) "/case/roms.in"
            (Text ("title" ++ PyStr.nl ++ "ntimes = 10" ++ PyStr.nl)))
         "/case/roms.in" "10" "20")
  = Ok true /\
  fst (_replace_text_in_file (fun _ => true)
         (write_file (fun _ => None) "/case/roms.in"
            (Text ("title" ++ PyStr.nl ++ "ntimes = 10" ++ PyStr.nl)))
         "/case/roms.in" "10" "20") "/case/roms.in"
  = Some (Text ("title" ++ PyStr.nl ++ "ntimes = 20" ++ PyStr.nl)).
Proof.
  assert (W : writable (fun _ => true) "10" "20"
                ("title" ++ PyStr.nl ++ "ntimes = 10" ++ PyStr.nl)).
  { intros text lines line line' _ _ _ _. reflexivity. }
  split; [reflexivity|]. split; [exact W|]. split; [|split; reflexivity].
  destruct (C10_replace_text_in_file (fun _ => true)
              (write_file (fun _ => None) "/case/roms.in"
                 (Text ("title" ++ PyStr.nl ++ "ntimes = 10" ++ PyStr.nl)))
              "/case/roms.in" "10" "20"
              ("title" ++ PyStr.nl ++ "ntimes = 10" ++ PyStr.nl) eq_refl W)
    as (text & lines & lines' & Hn & _ & Hl & Hr & _ & _ & Hf & _).
  exists text, lines, lines'.
  split; [exact Hn|]. split; [exact Hl|]. split; [exact Hr|exact Hf].
Defined.

(** ** Decimal numerals *)

(** Reading back the decimal numeral that [str] writes gives the number. *)
Lemma digits_value_acc (d : Decimal.uint) : forall acc : positive,
  digits_value (NilEmpty.string_of_uint d) (Zpos acc)
  = Some (Zpos (Pos.of_uint_acc d acc)).
Proof.
  induction d; intros acc; cbn [NilEmpty.string_of_uint digits_value Pos.of_uint_acc];
    [reflexivity|..];
    match goal with
    | |- context [digit_value ?c] =>
        change (digit_value c) with (Some (Z.of_N (N_of_ascii c) - 48))
    end; cbn [N_of_ascii N_of_digits Z.of_N];
    rewrite <- IHd; f_equal; lia.
Qed.

Lemma digits_value_uint (d : Decimal.uint) :
  digits_value (NilEmpty.string_of_uint d) 0 = Some (Z.of_N (Pos.of_uint d)).
Proof.
  induction d; cbn [NilEmpty.string_of_uint digits_value Pos.of_uint];
    [reflexivity|..];
    match goal with
    | |- context [digit_value ?c] =>
        change (digit_value c) with (Some (Z.of_N (N_of_ascii c) - 48))
    end; cbn [N_of_ascii N_of_digits Z.of_N];
    [exact IHd|..]; cbn [Z.of_N]; apply digits_value_acc.
Qed.

Lemma string_of_uint_head (d : Decimal.uint) :
  match NilEmpty.string_of_uint d with
  | EmptyString => d = Decimal.Nil
  | String c _ => Ascii.eqb c "-" = false
  end.
Proof. destruct d; reflexivity. Qed.

Lemma decimal_value_str_of_int (z : Z) :
  decimal_value (PyStr.str_of_int z) = Some z.
Proof.
  unfold PyStr.str_of_int.
  destruct z as [|p|p]; cbn [Z.to_int NilEmpty.string_of_int]; [reflexivity| |];
    pose proof (string_of_uint_head (Pos.to_uint p)) as Hh;
    pose proof (digits_value_uint (Pos.to_uint p)) as Hv;
    rewrite DecimalPos.Unsigned.of_to in Hv;
    (destruct (NilEmpty.string_of_uint (Pos.to_uint p)) as [|c s] eqn:E;
     [pose proof (DecimalPos.Unsigned.of_to p) as Ho; rewrite Hh in Ho; discriminate Ho|]).
  - unfold decimal_value. rewrite Hh. exact Hv.
  - cbn [decimal_value Ascii.eqb Bool.eqb]. rewrite Hv. reflexivity.
Qed.

(** ** [_list_to_concise_str] *)

Lemma list_index_nth {A : Type} (l : list A) (i : nat) (x : A) :
  nth_error l i = Some x -> list_index l (Z.of_nat i) = Ok x.
Proof.
  intros H. assert (Hi : (i < List.length l)%nat).
  { apply nth_error_Some. congruence. }
  unfold list_index.
  destruct (Z.ltb_spec (Z.of_nat i) 0); [lia|].
  destruct (Z.leb_spec 0 (Z.of_nat i)); [|lia].
  destruct (Z.ltb_spec (Z.of_nat i) (Z.of_nat (List.length l))); [|lia].
  cbn [andb]. now rewrite Nat2Z.id, H.
Qed.











(** ** [_clone_and_checkout] *)

(** C7, as stated, fails: with every command exiting with status 0, the
    function still raises when Python cannot enter [local_path] to start the
    checkout there. *)
Lemma C7_unentered_directory_counterexample :
  (forall t cmd cwd, returncode (shell_without_directory t cmd cwd) = 0) /\
  _clone_and_checkout shell_without_directory
    "https://github.com/CWorthy-ocean/ucla-roms.git" "~/roms" "main" []
  = ([Run "git clone https://github.com/CWorthy-ocean/ucla-roms.git ~/roms" None;
      Print "Cloned repository https://github.com/CWorthy-ocean/ucla-roms.git to ~/roms"],
     Raise FileNotFoundError).
Proof. split; [intros t cmd cwd|]; reflexivity. Qed.

(** C7, amended.  A clone that exits with a nonzero status raises the clone
    error and no checkout is run; after a clone that exits with 0, a
    checkout that exits with a nonzero status raises the checkout error.
    Either error carries the exit code, as a decimal numeral, and the
    captured error text.  When Python cannot enter [local_path] after the
    clone, the error of [subprocess.run] is raised and no checkout is run.
    When it can, the function raises exactly when the clone or the checkout
    exits with a nonzero status. *)
Theorem C7_clone_and_checkout
    (sh : shell) (source_repo local_path checkout_target : string)
    (t0 : list event) :
  let clone_cmd := "git clone " ++ source_repo ++ " " ++ local_path in
  let clone_result := sh t0 clone_cmd None in
  let t1 := (t0 ++ [Run clone_cmd None]
                ++ [Print ("Cloned repository " ++ source_repo ++ " to " ++ local_path)])%list in
  let checkout_cmd := "git checkout " ++ checkout_target in
  let checkout_result := sh t1 checkout_cmd (Some local_path) in
  let out := _clone_and_checkout sh source_repo local_path checkout_target t0 in
  (returncode clone_result <> 0 ->
   exists code,
     decimal_value code = Some (returncode clone_result) /\
     out = ((t0 ++ [Run clone_cmd None])%list,
            Raise (clone_error source_repo local_path code (stderr clone_result)))) /\
  (returncode clone_result = 0 ->
   forall e, cwd_error sh t1 local_path = Some e -> out = (t1, Raise e)) /\
  (returncode clone_result = 0 -> cwd_error sh t1 local_path = None ->
   returncode checkout_result <> 0 ->
   exists code,
     decimal_value code = Some (returncode checkout_result) /\
     out = ((t1 ++ [Run checkout_cmd (Some local_path)])%list,
            Raise (checkout_error checkout_target local_path code
                     (stderr checkout_result)))) /\
  (returncode clone_result = 0 -> cwd_error sh t1 local_path = None ->
   returncode checkout_result = 0 ->
   snd out = Ok tt) /\
  ((returncode clone_result = 0 -> cwd_error sh t1 local_path = None) ->
   ((exists e, snd out = Raise e) <->
    returncode clone_result <> 0 \/ returncode checkout_result <> 0)).
Proof.
  intros clone_cmd clone_result t1 checkout_cmd checkout_result out.
  assert (Eclone : returncode clone_result <> 0 ->
    out = ((t0 ++ [Run clone_cmd None])%list,
           Raise (clone_error source_repo local_path
                    (PyStr.str_of_int (returncode clone_result))
                    (stderr clone_result)))).
  { intros Hc. unfold out, _clone_and_checkout, io_bind, subprocess_run, io_raise.
    fold clone_cmd. fold clone_result.
    destruct (Z.eqb_spec (returncode clone_result) 0); [contradiction|].
    cbn [negb]. unfold clone_error. now rewrite !app_assoc_str. }
  assert (Emid : returncode clone_result = 0 ->
    out = match cwd_error sh t1 local_path with
          | Some e => (t1, Raise e)
          | None =>
              match returncode checkout_result =? 0 with
              | true => ((t1 ++ [Run checkout_cmd (Some local_path)]
                            ++ [Print ("Checked out " ++ checkout_target
                                       ++ " in git repository " ++ local_path)])%list,
                         Ok tt)
              | false => ((t1 ++ [Run checkout_cmd (Some local_path)])%list,
                          Raise (checkout_error checkout_target local_path
                                   (PyStr.str_of_int (returncode checkout_result))
                                   (stderr checkout_result)))
              end
          end).
  { intros Hc.
    unfold out, _clone_and_checkout, io_bind, subprocess_run, io_raise, print.
    fold clone_cmd. fold clone_result. rewrite Hc. cbn [Z.eqb negb].
    rewrite <- app_assoc. fold t1. fold checkout_cmd.
    destruct (cwd_error sh t1 local_path); [reflexivity|].
    fold checkout_result.
    destruct (returncode checkout_result =? 0); cbn [negb].
    - now rewrite <- app_assoc.
    - unfold checkout_error. now rewrite !app_assoc_str. }
  split; [|split; [|split; [|split]]].
  - intros Hc. exists (PyStr.str_of_int (returncode clone_result)).
    split; [apply decimal_value_str_of_int|exact (Eclone Hc)].
  - intros Hc e He. now rewrite (Emid Hc), He.
  - intros Hc Hd Hk. exists (PyStr.str_of_int (returncode checkout_result)).
    split; [apply decimal_value_str_of_int|]. rewrite (Emid Hc), Hd.
    destruct (Z.eqb_spec (returncode checkout_result) 0); [contradiction|reflexivity].
  - intros Hc Hd Hk. rewrite (Emid Hc), Hd, Hk. reflexivity.
  - intros Hd. destruct (Z.eq_dec (returncode clone_result) 0) as [Hc|Hc].
    + rewrite (Emid Hc), (Hd Hc).
      destruct (Z.eqb_spec (returncode checkout_result) 0) as [Hk|Hk]; cbn [snd].
      * split; [intros [e He]; discriminate|intros [H|H]; contradiction].
      * split; [intros _; now right|intros _; eexists; reflexivity].
    + rewrite (Eclone Hc). cbn [snd].
      split; [intros _; now left|intros _; eexists; reflexivity].
Qed.

Lemma C7_clone_and_checkout_witness :
  (exists code,
     decimal_value code = Some 128 /\
     _clone_and_checkout (shell_failing 128 "fatal: repository not found")
       "https://github.com/CWorthy-ocean/ucla-roms.git" "/roms" "main" []
     = ([Run "git clone https://github.com/CWorthy-ocean/ucla-roms.git /roms" None],
        Raise (clone_error "https://github.com/CWorthy-ocean/ucla-roms.git" "/roms"
                 code "fatal: repository not found"))) /\
  snd (_clone_and_checkout (shell_failing 128 "fatal: repository not found")
         "https://github.com/CWorthy-ocean/ucla-roms.git" "/roms" "main" [])
  = Raise (RuntimeError
             ("Error 128 when cloning repository "
              ++ "https://github.com/CWorthy-ocean/ucla-roms.git to /roms. "
              ++ "Error messages: " ++ PyStr.nl ++ "fatal: repository not found")).
Proof.
  split; [|reflexivity].
  exact (proj1 (C7_clone_and_checkout
                  (shell_failing 128 "fatal: repository not found")
                  "https://github.com/CWorthy-ocean/ucla-roms.git" "/roms" "main" [])
               ltac:(discriminate)).
Defined.

(** ** [_get_hash_from_checkout_target] *)

Lemma has_char_cons c x s :
  PyStr.has_char c (String x s) = Ascii.eqb c x || PyStr.has_char c s.
Proof. reflexivity. Qed.

(** On a target without newline, the pattern [^[0-9a-f]{n}$] accepts exactly
    the strings of [n] lowercase hexadecimal characters. *)
Lemma hex_pattern_without_newline n : forall s,
  PyStr.has_char PyStr.newline s = false ->
  Re.re_match (Re.hex_pattern n) s = is_hex_string n s.
Proof.
  unfold Re.re_match, Re.hex_pattern, is_hex_string, str_forallb.
  cbn [Re.match_here andb].
  induction n as [|n IH]; intros s Hs.
  - cbn [Re.take]. destruct s as [|c [|c' s]]; cbn; try reflexivity.
    rewrite has_char_cons in Hs. apply orb_false_iff in Hs. destruct Hs as [Hc _].
    rewrite Ascii.eqb_sym, Hc. reflexivity.
  - destruct s as [|c s]; [reflexivity|].
    rewrite has_char_cons in Hs. apply orb_false_iff in Hs. destruct Hs as [_ Hs].
    cbn [Re.take String.length list_ascii_of_string forallb Nat.eqb].
    destruct (Re.lower_hex c); cbn [andb].
    + now apply IH.
    + now rewrite andb_false_r.
Qed.

Lemma looks_like_hash_without_newline s :
  PyStr.has_char PyStr.newline s = false ->
  Re.re_match (Re.hex_pattern 7) s || Re.re_match (Re.hex_pattern 40) s
  = looks_like_hash s.
Proof.
  intros Hs. unfold looks_like_hash. now rewrite !hex_pattern_without_newline.
Qed.

(** *** The first token of [str.split] *)

Lemma split_from_spaces ws s :
  str_forallb PyStr.is_space ws = true ->
  PyStr.split_from (ws ++ s) "" = PyStr.split_from s "".
Proof.
  unfold str_forallb. induction ws as [|c ws IH]; cbn [append list_ascii_of_string forallb].
  - reflexivity.
  - intros H. apply andb_true_iff in H. destruct H as [Hc Hws].
    cbn [PyStr.split_from]. rewrite Hc. now apply IH.
Qed.

Lemma split_from_token tok : forall rest cur,
  str_forallb (fun c => negb (PyStr.is_space c)) tok = true ->
  PyStr.split_from (tok ++ rest) cur = PyStr.split_from rest (cur ++ tok).
Proof.
  unfold str_forallb.
  induction tok as [|c tok IH]; intros rest cur; cbn [append list_ascii_of_string forallb].
  - now rewrite app_nil_r_str.
  - intros H. apply andb_true_iff in H. destruct H as [Hc Htok].
    cbn [PyStr.split_from]. apply negb_true_iff in Hc. rewrite Hc.
    rewrite IH by exact Htok. now rewrite app_assoc_str.
Qed.

Lemma split_first_token s tok :
  first_token s tok -> exists l, PyStr.split s = tok :: l.
Proof.
  intros (ws & rest & Hs & Hws & Hne & Htok & Hrest). subst s.
  unfold PyStr.split. rewrite split_from_spaces by exact Hws.
  rewrite split_from_token by exact Htok. cbn [append].
  destruct tok as [|c tok]; [congruence|].
  destruct rest as [|x rest]; cbn [PyStr.split_from].
  - now exists [].
  - rewrite Hrest. now eexists.
Qed.

Lemma list_index_head {A : Type} (x : A) (l : list A) : list_index (x :: l) 0 = Ok x.
Proof. apply (list_index_nth (x :: l) 0 x). reflexivity. Qed.

Lemma list_index_not_value_error {A : Type} (l : list A) i msg :
  list_index l i <> Raise (ValueError msg).
Proof.
  unfold list_index.
  destruct ((0 <=? (if i <? 0 then i + Z.of_nat (List.length l) else i))
            && ((if i <? 0 then i + Z.of_nat (List.length l) else i)
                <? Z.of_nat (List.length l))); [|discriminate].
  destruct (nth_error l _); discriminate.
Qed.

Lemma length_zero_iff_empty (s : string) : Nat.eqb (String.length s) 0 = true <-> s = "".
Proof. destruct s; cbn; split; congruence. Qed.

(** C6, as stated, fails: a listing that is not empty but holds only
    whitespace has no first token, and the function raises [IndexError]. *)
Lemma C6_whitespace_listing_counterexample :
  ~ (forall (sh : shell) (repo_url checkout_target : string) (t0 : list event),
       let ls_remote :=
         stdout (sh t0 ("git ls-remote " ++ repo_url ++ " " ++ checkout_target) None) in
       let r := snd (_get_hash_from_checkout_target sh repo_url checkout_target t0) in
       ((exists msg, r = Raise (ValueError msg)) <->
        ls_remote = "" /\ looks_like_hash checkout_target = false) /\
       (ls_remote <> "" -> exists tok, first_token ls_remote tok /\ r = Ok tok) /\
       (ls_remote = "" -> looks_like_hash checkout_target = true ->
        r = Ok checkout_target)).
Proof.
  intros H.
  destruct (H (shell_printing " ") "https://github.com/CWorthy-ocean/ucla-roms.git" "main" [])
    as (_ & Htok & _).
  destruct Htok as (tok & _ & E); [discriminate|].
  vm_compute in E. discriminate E.
Qed.

(** C6, amended: for a checkout target without newline, the function raises
    the invalid-reference [ValueError] exactly when the remote listing is
    empty and the target is not a 7- or 40-character lowercase hexadecimal
    string; when the listing has a first whitespace-separated token it
    returns that token; when the listing is empty and the target is such a
    hexadecimal string it returns the target. *)
Theorem C6_get_hash_from_checkout_target
    (sh : shell) (repo_url checkout_target : string) (t0 : list event) :
  PyStr.has_char PyStr.newline checkout_target = false ->
  let ls_remote :=
    stdout (sh t0 ("git ls-remote " ++ repo_url ++ " " ++ checkout_target) None) in
  let r := snd (_get_hash_from_checkout_target sh repo_url checkout_target t0) in
  ((exists msg, r = Raise (ValueError msg)) <->
   ls_remote = "" /\ looks_like_hash checkout_target = false) /\
  (ls_remote = "" -> looks_like_hash checkout_target = false ->
   r = Raise (invalid_reference repo_url checkout_target)) /\
  (forall tok, first_token ls_remote tok -> r = Ok tok) /\
  (ls_remote = "" -> looks_like_hash checkout_target = true ->
   r = Ok checkout_target).
Proof.
  intros Hnl ls_remote r.
  assert (Er : r =
    if Nat.eqb (String.length ls_remote) 0
    then if looks_like_hash checkout_target
         then Ok checkout_target
         else Raise (invalid_reference repo_url checkout_target)
    else list_index (PyStr.split ls_remote) 0).
  { unfold r, _get_hash_from_checkout_target, io_bind, subprocess_run, io_ret, io_raise.
    rewrite (looks_like_hash_without_newline _ Hnl). fold ls_remote.
    destruct (Nat.eqb (String.length ls_remote) 0);
      [destruct (looks_like_hash checkout_target)|]; reflexivity. }
  assert (Eempty : ls_remote = "" ->
    r = if looks_like_hash checkout_target
        then Ok checkout_target
        else Raise (invalid_reference repo_url checkout_target)).
  { intros E. rewrite Er, E. reflexivity. }
  split; [|split; [|split]].
  - split.
    + intros [msg Hmsg]. rewrite Er in Hmsg.
      destruct (Nat.eqb (String.length ls_remote) 0) eqn:El.
      * apply length_zero_iff_empty in El. split; [exact El|].
        destruct (looks_like_hash checkout_target); [discriminate|reflexivity].
      * exfalso. exact (list_index_not_value_error _ _ _ Hmsg).
    + intros [E Hh]. rewrite (Eempty E), Hh. unfold invalid_reference. eexists. reflexivity.
  - intros E Hh. now rewrite (Eempty E), Hh.
  - intros tok Htok. rewrite Er.
    destruct (split_first_token _ _ Htok) as [l Hl].
    destruct (Nat.eqb (String.length ls_remote) 0) eqn:El.
    + apply length_zero_iff_empty in El. rewrite El in Hl. discriminate Hl.
    + rewrite Hl. apply list_index_head.
  - intros E Hh. now rewrite (Eempty E), Hh.
Qed.

Lemma C6_get_hash_from_checkout_target_witness :
  PyStr.has_char PyStr.newline "main" = false /\
  snd (_get_hash_from_checkout_target
         (shell_printing ("4f1c2a9 refs/heads/main" ++ PyStr.nl))
         "https://github.com/CWorthy-ocean/ucla-roms.git" "main" [])
  = Ok "4f1c2a9".
Proof.
  split; [reflexivity|].
  apply (proj1 (proj2 (proj2
    (C6_get_hash_from_checkout_target
       (shell_printing ("4f1c2a9 refs/heads/main" ++ PyStr.nl))
       "https://github.com/CWorthy-ocean/ucla-roms.git" "main" [] eq_refl)))).
  exists "", (" refs/heads/main" ++ PyStr.nl).
  repeat split; [discriminate].
Defined.

(** C9: the hash check accepts a target of eight characters, seven lowercase
    hexadecimal digits and a final newline; on an empty listing the function
    returns it instead of raising [ValueError]. *)
Theorem C9_trailing_newline_accepted :
  String.length ("abcdef1" ++ PyStr.nl) = 8%nat /\
  looks_like_hash ("abcdef1" ++ PyStr.nl) = false /\
  snd (_get_hash_from_checkout_target (shell_printing "")
         "https://github.com/CWorthy-ocean/ucla-roms.git" ("abcdef1" ++ PyStr.nl) [])
  = Ok ("abcdef1" ++ PyStr.nl).
Proof. repeat split. Qed.

(** * Further properties

    ** [_calculate_node_distribution] *)

(** X1: below 2^53 the request is minimal: one node fewer could not hold the
    required cores, one core fewer per node could not either, and the cores
    requested exceed the cores required by less than the number of nodes. *)
Theorem X1_node_distribution_minimal (c n : Z) :
  0 < c -> 0 < n -> c + n < 2 ^ 53 ->
  exists k p,
    _calculate_node_distribution c n = Ok (k, p) /\
    (k - 1) * n < c /\ k * (p - 1) < c /\ k * p - c < k.
Proof.
  intros Hc Hn Hb.
  exists (cdiv c n), (n - (cdiv c n * n - c) / cdiv c n).
  split; [apply node_distribution_exact; assumption|].
  pose proof (cdiv_pos c n Hc Hn) as Hk.
  destruct (cdiv_bounds c n Hn) as [Kl Ku].
  set (k := cdiv c n) in *. set (d := k * n - c) in *.
  pose proof (Z.mul_div_le d k Hk) as Dl.
  pose proof (Z.mul_succ_div_gt d k Hk) as Du.
  split; [exact Kl|].
  replace (k * (n - d / k - 1)) with (k * n - k * Z.succ (d / k)) by ring.
  replace (k * (n - d / k)) with (k * n - k * (d / k)) by ring.
  subst d. lia.
Qed.

Lemma X1_node_distribution_minimal_witness :
  0 < 129 /\ 0 < 128 /\ 129 + 128 < 2 ^ 53 /\
  exists k p,
    _calculate_node_distribution 129 128 = Ok (k, p) /\
    (k - 1) * 128 < 129 /\ k * (p - 1) < 129 /\ k * p - 129 < k.
Proof.
  split; [reflexivity|]. split; [reflexivity|]. split; [reflexivity|].
  apply (X1_node_distribution_minimal 129 128); reflexivity.
Defined.

(** X2: a request for zero cores, or for nodes of zero cores, raises
    [ZeroDivisionError]: with zero cores the node count is zero and the second
    division divides by it. *)
Theorem X2_zero_input_raises (c n : Z) :
  c = 0 \/ n = 0 ->
  _calculate_node_distribution c n = Raise ZeroDivisionError.
Proof.
  intros H. unfold _calculate_node_distribution.
  destruct (Z.eq_dec n 0) as [->|Hn].
  - reflexivity.
  - destruct H as [->|H]; [|contradiction].
    unfold PyFloat.int_truediv at 1. destruct (Z.eqb_spec n 0); [contradiction|].
    destruct n as [|p|p]; [contradiction| |]; reflexivity.
Qed.

Lemma X2_zero_input_raises_witness :
  (0 = 0 \/ 128 = 0) /\
  _calculate_node_distribution 0 128 = Raise ZeroDivisionError.
Proof.
  split; [left; reflexivity|].
  apply (X2_zero_input_raises 0 128). left. reflexivity.
Defined.

(** X3: below 2^53, a requirement that is a whole number of nodes is met by
    exactly that many nodes, each requested in full. *)
Theorem X3_whole_nodes (k n : Z) :
  0 < k -> 0 < n -> k * n + n < 2 ^ 53 ->
  _calculate_node_distribution (k * n) n = Ok (k, n).
Proof.
  intros Hk Hn Hb.
  rewrite node_distribution_exact by nia.
  assert (E : cdiv (k * n) n = k).
  { unfold cdiv. apply cdiv_unique; [exact Hn|]. nia. }
  rewrite E, Z.sub_diag, Z.div_0_l by lia. now rewrite Z.sub_0_r.
Qed.

Lemma X3_whole_nodes_witness :
  0 < 2 /\ 0 < 128 /\ 2 * 128 + 128 < 2 ^ 53 /\
  _calculate_node_distribution (2 * 128) 128 = Ok (2, 128).
Proof.
  split; [reflexivity|]. split; [reflexivity|]. split; [reflexivity|].
  apply (X3_whole_nodes 2 128); reflexivity.
Defined.

(** ** [_list_to_concise_str] *)

Lemma list_index_ext {A : Type} (l l' : list A) (i : Z) :
  List.length l = List.length l' ->
  nth_error l (Z.to_nat (if i <? 0 then i + Z.of_nat (List.length l) else i))
  = nth_error l' (Z.to_nat (if i <? 0 then i + Z.of_nat (List.length l) else i)) ->
  list_index l i = list_index l' i.
Proof.
  intros Hlen Hnth. unfold list_index. rewrite <- Hlen, Hnth. reflexivity.
Qed.

(** X4: a list longer than the threshold but with fewer than two items (an
    empty list under a negative threshold, one item under a threshold below
    one) raises [IndexError]. *)
Theorem X4_short_list_index_error
    (input_list : list list_item) (item_threshold pad : Z)
    (items_are_strs show_item_count : bool) :
  item_threshold < Z.of_nat (List.length input_list) ->
  (List.length input_list < 2)%nat ->
  _list_to_concise_str input_list item_threshold pad items_are_strs show_item_count
  = Raise IndexError.
Proof.
  intros Hlt Hshort. unfold _list_to_concise_str.
  destruct (Z.ltb_spec item_threshold (Z.of_nat (List.length input_list))); [|lia].
  destruct input_list as [|x [|y l]]; [reflexivity|reflexivity|cbn in Hshort; lia].
Qed.

Lemma X4_short_list_index_error_witness :
  0 < Z.of_nat (List.length [Str "roms"]) /\ (List.length [Str "roms"] < 2)%nat /\
  _list_to_concise_str [Str "roms"] 0 16 true true = Raise IndexError.
Proof.
  split; [reflexivity|]. split; [apply le_n|].
  apply (X4_short_list_index_error [Str "roms"] 0 16 true true); [reflexivity|apply le_n].
Defined.

(** X5: the truncated rendering shows nothing of the items between the second
    and the last: two lists of one length, longer than the threshold, with the
    same first, second and last items are rendered alike. *)
Theorem X5_middle_items_hidden
    (l l' : list list_item) (item_threshold pad : Z)
    (items_are_strs show_item_count : bool) :
  List.length l = List.length l' ->
  item_threshold < Z.of_nat (List.length l) ->
  nth_error l 0 = nth_error l' 0 ->
  nth_error l 1 = nth_error l' 1 ->
  nth_error l (List.length l - 1) = nth_error l' (List.length l - 1) ->
  _list_to_concise_str l item_threshold pad items_are_strs show_item_count
  = _list_to_concise_str l' item_threshold pad items_are_strs show_item_count.
Proof.
  intros Hlen Hlt H0 H1 Hl. unfold _list_to_concise_str. rewrite <- Hlen.
  destruct (Z.ltb_spec item_threshold (Z.of_nat (List.length l))); [|lia].
  rewrite (list_index_ext l l' 0 Hlen) by exact H0.
  rewrite (list_index_ext l l' 1 Hlen) by exact H1.
  rewrite (list_index_ext l l' (-1) Hlen); [reflexivity|].
  cbn [Z.ltb Z.compare].
  replace (Z.to_nat (-1 + Z.of_nat (List.length l))) with (List.length l - 1)%nat by lia.
  exact Hl.
Qed.

Lemma X5_middle_items_hidden_witness :
  _list_to_concise_str [Str "a"; Str "b"; Str "c"; Str "d"; Str "z"] 4 16 true true
  = _list_to_concise_str [Str "a"; Str "b"; Str "x"; Str "y"; Str "z"] 4 16 true true.
Proof.
  apply (X5_middle_items_hidden
           [Str "a"; Str "b"; Str "c"; Str "d"; Str "z"]
           [Str "a"; Str "b"; Str "x"; Str "y"; Str "z"]);
    reflexivity.
Defined.

(** ** [_replace_text_in_file] *)


Lemma replaced_all_same old s s' : replaced_all old old s s' -> s' = s.
Proof. induction 1 as [s _|a b b' _ _ IH]; [reflexivity|now rewrite IH]. Qed.

Lemma interleave_empty s : PyStr.interleave "" s = s.
Proof. induction s as [|c s IH]; cbn; [reflexivity|now rewrite IH]. Qed.

Lemma replace_same s old : PyStr.replace s old old = s.
Proof.
  destruct old as [|c old].
  - cbn. apply interleave_empty.
  - apply replaced_all_same with (old := String c old).
    apply replace_replaces_all. discriminate.
Qed.

(** X7: replacing a text by itself, in a file that decodes and whose lines
    can be encoded, leaves the text as it is read: the content as it was
    when the file has no carriage return, and else the content with its
    line ends rewritten as newlines. *)
Theorem X7_replace_by_itself
    (encodable : string -> bool) (fs : files)
    (file_path text content : string) :
  fs file_path = Some (Text content) ->
  writable encodable text text content ->
  exists translated,
    lf_normalised content translated /\
    (PyStr.has_char PyStr.carriage_return content = false -> translated = content) /\
    fst (_replace_text_in_file encodable fs file_path text text) file_path
    = Some (Text translated).
Proof.
  intros Hfs Hw. exists (universal_newlines content).
  split; [apply universal_newlines_normalises|].
  split; [apply lf_normalised_without_cr; apply universal_newlines_normalises|].
  rewrite (replace_text_in_text _ _ _ _ _ _ Hfs (writable_lines _ _ _ _ Hw)).
  cbn [fst]. rewrite renamed_file. f_equal. f_equal.
  rewrite <- (lines_of_concat _ _ (text_lines_spec (universal_newlines content))) at 2.
  f_equal. induction (text_lines (universal_newlines content)) as [|l lines IH];
    cbn [map]; [reflexivity|]. now rewrite replace_same, IH.
Qed.

Lemma X7_replace_by_itself_witness :
  write_file (fun _ => None) "/case/roms.in"
    (Text ("ntimes = 10" ++ String PyStr.carriage_return PyStr.nl)) "/case/roms.in"
  = Some (Text ("ntimes = 10" ++ String PyStr.carriage_return PyStr.nl)) /\
  writable (fun _ => true) "10" "10" ("ntimes = 10" ++ String PyStr.carriage_return PyStr.nl) /\
  exists translated,
    lf_normalised ("ntimes = 10" ++ String PyStr.carriage_return PyStr.nl) translated /\
    fst (_replace_text_in_file (fun _ => true)
           (write_file (fun _ => None) "/case/roms.in"
              (Text ("ntimes = 10" ++ String PyStr.carriage_return PyStr.nl)))
           "/case/roms.in" "10" "10") "/case/roms.in"
    = Some (Text translated).
Proof.
  assert (W : writable (fun _ => true) "10" "10"
                ("ntimes = 10" ++ String PyStr.carriage_return PyStr.nl)).
  { intros text lines line line' _ _ _ _. reflexivity. }
  split; [reflexivity|]. split; [exact W|].
  destruct (X7_replace_by_itself (fun _ => true)
              (write_file (fun _ => None) "/case/roms.in"
                 (Text ("ntimes = 10" ++ String PyStr.carriage_return PyStr.nl)))
              "/case/roms.in" "10"
              ("ntimes = 10" ++ String PyStr.carriage_return PyStr.nl) eq_refl W)
    as (translated & Hn & _ & Hf).
  exists translated. split; [exact Hn|exact Hf].
Defined.

(** ** [_get_hash_from_checkout_target], further *)

(** X8: in every case the function runs the one command
    [git ls-remote repo_url checkout_target], and its result depends on the
    standard output of that command alone: the exit status and the error text
    are not looked at. *)
Theorem X8_get_hash_reads_stdout_only
    (sh sh' : shell) (repo_url checkout_target : string) (t0 : list event) :
  let cmd := "git ls-remote " ++ repo_url ++ " " ++ checkout_target in
  stdout (sh t0 cmd None) = stdout (sh' t0 cmd None) ->
  _get_hash_from_checkout_target sh repo_url checkout_target t0
  = _get_hash_from_checkout_target sh' repo_url checkout_target t0 /\
  fst (_get_hash_from_checkout_target sh repo_url checkout_target t0)
  = (t0 ++ [Run cmd None])%list.
Proof.
  intros cmd Hout.
  unfold _get_hash_from_checkout_target, io_bind, subprocess_run, io_ret, io_raise.
  fold cmd. rewrite <- Hout. split; [reflexivity|].
  destruct (Nat.eqb (String.length (stdout (sh t0 cmd None))) 0);
    [destruct (_ || _)|]; reflexivity.
Qed.

Lemma X8_get_hash_reads_stdout_only_witness :
  stdout (shell_printing "" [] ("git ls-remote " ++ "origin" ++ " " ++ "main") None)
  = stdout (shell_failing 128 "fatal: unable to access" []
              ("git ls-remote " ++ "origin" ++ " " ++ "main") None) /\
  _get_hash_from_checkout_target (shell_printing "") "origin" "main" []
  = _get_hash_from_checkout_target
      (shell_failing 128 "fatal: unable to access") "origin" "main" [].
Proof.
  split; [reflexivity|].
  exact (proj1 (X8_get_hash_reads_stdout_only
                  (shell_printing "") (shell_failing 128 "fatal: unable to access")
                  "origin" "main" [] eq_refl)).
Defined.

(** The pattern [^[0-9a-f]{n}$] accepts the strings of [n] lowercase
    hexadecimal characters and the same followed by one newline, and no
    other. *)
Lemma hex_pattern_iff n : forall s,
  Re.re_match (Re.hex_pattern n) s = true <->
  is_hex_string n s = true \/
  exists h, is_hex_string n h = true /\ s = h ++ PyStr.nl.
Proof.
  unfold Re.re_match, Re.hex_pattern, is_hex_string, str_forallb.
  cbn [Re.match_here andb].
  induction n as [|n IH]; intros s.
  - cbn [Re.take]. rewrite andb_true_r. split.
    + destruct s as [|c [|c' s]]; cbn [Re.at_eol]; intros H; try discriminate.
      * now left.
      * right. exists "". split; [reflexivity|].
        apply Ascii.eqb_eq in H. now subst c.
    + intros [H|(h & H & ->)].
      * destruct s as [|c s]; [reflexivity|discriminate H].
      * destruct h as [|c h]; [reflexivity|discriminate H].
  - destruct s as [|c s].
    + split; [discriminate|].
      intros [H|(h & H & E)]; [discriminate H|].
      destruct h; discriminate E.
    + cbn [Re.take String.length list_ascii_of_string forallb Nat.eqb].
      destruct (Re.lower_hex c) eqn:Hc; cbn [andb].
      * rewrite IH. split.
        -- intros [H|(h & H & ->)]; [now left|].
           right. exists (String c h). split; [|reflexivity].
           cbn [String.length list_ascii_of_string forallb Nat.eqb]. now rewrite Hc.
        -- intros [H|(h & H & E)]; [now left|]. right.
           destruct h as [|x h]; [discriminate H|].
           cbn [append] in E. injection E as -> ->.
           exists h. split; [|reflexivity].
           cbn [String.length list_ascii_of_string forallb Nat.eqb] in H.
           now rewrite Hc in H.
      * split; [discriminate|].
        intros [H|(h & H & E)].
        -- now rewrite andb_false_r in H.
        -- destruct h as [|x h]; [discriminate H|].
           cbn [append] in E. injection E as -> ->.
           cbn [String.length list_ascii_of_string forallb Nat.eqb] in H.
           rewrite Hc in H. now rewrite andb_false_r in H.
Qed.

(** X9: on an empty remote listing the function returns the checkout target
    exactly when the target is a 7- or 40-character lowercase hexadecimal
    string, or such a string followed by one newline; in every other case it
    raises the invalid-reference [ValueError]. *)
Theorem X9_hash_fallback_exact
    (sh : shell) (repo_url checkout_target : string) (t0 : list event) :
  stdout (sh t0 ("git ls-remote " ++ repo_url ++ " " ++ checkout_target) None) = "" ->
  let r := snd (_get_hash_from_checkout_target sh repo_url checkout_target t0) in
  let accepted :=
    looks_like_hash checkout_target = true \/
    exists h, looks_like_hash h = true /\ checkout_target = h ++ PyStr.nl in
  (accepted -> r = Ok checkout_target) /\
  (~ accepted -> r = Raise (invalid_reference repo_url checkout_target)).
Proof.
  intros Hls r accepted.
  assert (Hacc : Re.re_match (Re.hex_pattern 7) checkout_target
                 || Re.re_match (Re.hex_pattern 40) checkout_target = true
                 <-> accepted).
  { unfold accepted, looks_like_hash.
    rewrite orb_true_iff, !hex_pattern_iff. split.
    - intros [[H|(h & H & E)]|[H|(h & H & E)]].
      + left. now rewrite H.
      + right. exists h. now rewrite H.
      + left. rewrite H. apply orb_true_r.
      + right. exists h. rewrite H. split; [apply orb_true_r|exact E].
    - intros [H|(h & H & E)]; apply orb_true_iff in H; destruct H as [H|H].
      + left. now left.
      + right. now left.
      + left. right. now exists h.
      + right. right. now exists h. }
  assert (Er : r =
    if Re.re_match (Re.hex_pattern 7) checkout_target
       || Re.re_match (Re.hex_pattern 40) checkout_target
    then Ok checkout_target
    else Raise (invalid_reference repo_url checkout_target)).
  { unfold r, _get_hash_from_checkout_target, io_bind, subprocess_run, io_ret, io_raise.
    rewrite Hls. cbn [String.length Nat.eqb].
    destruct (_ || _); reflexivity. }
  rewrite Er. split.
  - intros Ha. apply Hacc in Ha. now rewrite Ha.
  - intros Hn. destruct (_ || _) eqn:E; [|reflexivity].
    exfalso. apply Hn, Hacc. reflexivity.
Qed.

Lemma X9_hash_fallback_exact_witness :
  stdout (shell_printing "" [] ("git ls-remote " ++ "origin" ++ " " ++ "ABCDEF1") None) = "" /\
  snd (_get_hash_from_checkout_target (shell_printing "") "origin" "ABCDEF1" [])
  = Raise (invalid_reference "origin" "ABCDEF1").
Proof.
  split; [reflexivity|].
  apply (proj2 (X9_hash_fallback_exact (shell_printing "") "origin" "ABCDEF1" [] eq_refl)).
  intros [H|(h & _ & E)]; [discriminate H|].
  apply (f_equal (fun s => PyStr.has_char PyStr.newline s)) in E.
  assert (Hn : PyStr.has_char PyStr.newline (h ++ PyStr.nl) = true).
  { clear E. induction h as [|c h IH]; [reflexivity|].
    cbn [append]. rewrite has_char_cons, IH. apply orb_true_r. }
  rewrite Hn in E. discriminate E.
Defined.

(** ** [_get_repo_remote] and [_get_repo_head_hash] *)

Lemma lstrip_spaces ws s :
  str_forallb PyStr.is_space ws = true -> str_lstrip (ws ++ s) = str_lstrip s.
Proof.
  unfold str_forallb. induction ws as [|c ws IH]; cbn [append list_ascii_of_string forallb].
  - reflexivity.
  - intros H. apply andb_true_iff in H. destruct H as [Hc Hws].
    cbn [str_lstrip]. rewrite Hc. now apply IH.
Qed.

Lemma rstrip_spaces ws :
  str_forallb PyStr.is_space ws = true -> str_rstrip ws = "".
Proof.
  unfold str_forallb. induction ws as [|c ws IH]; cbn [list_ascii_of_string forallb].
  - reflexivity.
  - intros H. apply andb_true_iff in H. destruct H as [Hc Hws].
    cbn [str_rstrip]. now rewrite (IH Hws), Hc.
Qed.

Lemma rstrip_keeps body c ws :
  PyStr.is_space c = false -> str_forallb PyStr.is_space ws = true ->
  str_rstrip (body ++ String c ws) = body ++ String c "".
Proof.
  intros Hc Hws. induction body as [|x body IH]; cbn [append str_rstrip].
  - now rewrite (rstrip_spaces ws Hws), Hc.
  - rewrite IH. destruct body; reflexivity.
Qed.

(** [strip] removes the whitespace around a string that has none at its own
    ends, and nothing else. *)
Lemma strip_spec ws1 core ws2 :
  str_forallb PyStr.is_space ws1 = true ->
  str_forallb PyStr.is_space ws2 = true ->
  trimmed core ->
  str_strip (ws1 ++ core ++ ws2) = core.
Proof.
  intros H1 H2 Hcore. unfold str_strip. rewrite lstrip_spaces by exact H1.
  destruct Hcore as [->|[(c & rest & E & Hc) (body & x & E' & Hx)]].
  - cbn [append]. replace (str_lstrip ws2) with (str_lstrip (ws2 ++ ""))
      by now rewrite app_nil_r_str.
    rewrite lstrip_spaces by exact H2. reflexivity.
  - assert (El : str_lstrip (core ++ ws2) = core ++ ws2).
    { rewrite E. cbn [append str_lstrip]. now rewrite Hc. }
    rewrite El, E', app_assoc_str. cbn [append].
    now apply rstrip_keeps.
Qed.

(** X10: [_get_repo_remote] and [_get_repo_head_hash] run one [git] command
    each and return its standard output without the whitespace around it,
    whitespace inside kept; they do not look at the exit status, so a failed
    command that prints nothing gives the empty string and no error. *)
Theorem X10_repo_queries_strip_stdout
    (sh : shell) (local_root : string) (t0 : list event) (ws1 core ws2 : string) :
  str_forallb PyStr.is_space ws1 = true ->
  str_forallb PyStr.is_space ws2 = true ->
  trimmed core ->
  let remote_cmd := "git -C " ++ local_root ++ " remote get-url origin" in
  let head_cmd := "git -C " ++ local_root ++ " rev-parse HEAD" in
  (stdout (sh t0 remote_cmd None) = ws1 ++ core ++ ws2 ->
   _get_repo_remote sh local_root t0 = ((t0 ++ [Run remote_cmd None])%list, Ok core)) /\
  (stdout (sh t0 head_cmd None) = ws1 ++ core ++ ws2 ->
   _get_repo_head_hash sh local_root t0 = ((t0 ++ [Run head_cmd None])%list, Ok core)).
Proof.
  intros H1 H2 Hcore remote_cmd head_cmd. split; intros Hout.
  - unfold _get_repo_remote, io_bind, subprocess_run, io_ret. fold remote_cmd.
    now rewrite Hout, strip_spec.
  - unfold _get_repo_head_hash, io_bind, subprocess_run, io_ret. fold head_cmd.
    now rewrite Hout, strip_spec.
Qed.

Lemma X10_repo_queries_strip_stdout_witness :
  str_forallb PyStr.is_space "" = true /\
  str_forallb PyStr.is_space PyStr.nl = true /\
  trimmed "4f1c2a9" /\
  _get_repo_head_hash (shell_printing ("4f1c2a9" ++ PyStr.nl)) "/case/roms" []
  = ([Run "git -C /case/roms rev-parse HEAD" None], Ok "4f1c2a9").
Proof.
  assert (T : trimmed "4f1c2a9").
  { right. split; [exists "4"%char, "f1c2a9"|exists "4f1c2a", "9"%char]; split; reflexivity. }
  split; [reflexivity|]. split; [reflexivity|]. split; [exact T|].
  exact (proj2 (X10_repo_queries_strip_stdout
                  (shell_printing ("4f1c2a9" ++ PyStr.nl)) "/case/roms" []
                  "" "4f1c2a9" PyStr.nl eq_refl eq_refl T) eq_refl).
Defined.

(** ** [_write_to_config_file] *)

Lemma append_text_same fs path s :
  append_text fs path s path
  = Some (match fs path with Some old => old ++ s | None => s end).
Proof. unfold append_text. now rewrite String.eqb_refl. Qed.

Lemma append_text_other fs path s p : p <> path -> append_text fs path s p = fs p.
Proof.
  intros H. unfold append_text. destruct (String.eqb_spec p path); [contradiction|reflexivity].
Qed.

Lemma write_to_existing_config config_file s t fs old :
  fs config_file = Some old ->
  _write_to_config_file config_file s (t, fs) = (t, append_text fs config_file s).
Proof. intros H. unfold _write_to_config_file. now rewrite H. Qed.

Lemma write_to_missing_config config_file s t fs :
  fs config_file = None ->
  _write_to_config_file config_file s (t, fs)
  = ((t ++ [Print ("Updating environment in C-Star configuration file "
                   ++ config_file)])%list,
     append_text fs config_file (config_file_header ++ s)).
Proof. intros H. unfold _write_to_config_file. now rewrite H. Qed.

(** X11: [_write_to_config_file] appends.  An existing configuration file
    keeps its content, with [config_file_str] added at the end, and nothing is
    printed; a missing one is created with the header followed by
    [config_file_str], and one message is printed; no other file changes. *)
Theorem X11_write_to_config_file
    (config_file config_file_str : string) (t : list event) (fs : text_files) :
  let out := _write_to_config_file config_file config_file_str (t, fs) in
  (forall old, fs config_file = Some old ->
     snd out config_file = Some (old ++ config_file_str) /\ fst out = t) /\
  (fs config_file = None ->
     snd out config_file = Some (config_file_header ++ config_file_str) /\
     fst out = (t ++ [Print ("Updating environment in C-Star configuration file "
                             ++ config_file)])%list) /\
  (forall p, p <> config_file -> snd out p = fs p).
Proof.
  intros out. subst out. split; [|split].
  - intros old Hfs. rewrite (write_to_existing_config _ _ _ _ old Hfs). cbn [fst snd].
    now rewrite append_text_same, Hfs.
  - intros Hfs. rewrite (write_to_missing_config _ _ _ _ Hfs). cbn [fst snd].
    now rewrite append_text_same, Hfs.
  - intros p Hp. destruct (fs config_file) as [old|] eqn:Hfs.
    + rewrite (write_to_existing_config _ _ _ _ old Hfs). now apply append_text_other.
    + rewrite (write_to_missing_config _ _ _ _ Hfs). now apply append_text_other.
Qed.

(** X12: two calls in a row on a missing configuration file write the header
    once: the file holds the header, then the first string, then the second,
    and the message is printed once. *)
Theorem X12_write_to_config_file_twice
    (config_file first second : string) (t : list event) (fs : text_files) :
  fs config_file = None ->
  let out :=
    _write_to_config_file config_file second
      (_write_to_config_file config_file first (t, fs)) in
  snd out config_file = Some (config_file_header ++ first ++ second) /\
  fst out = (t ++ [Print ("Updating environment in C-Star configuration file "
                          ++ config_file)])%list.
Proof.
  intros Hfs out. subst out.
  rewrite (write_to_missing_config _ _ _ _ Hfs).
  assert (H1 : append_text fs config_file (config_file_header ++ first) config_file
               = Some (config_file_header ++ first)).
  { now rewrite append_text_same, Hfs. }
  rewrite (write_to_existing_config _ _ _ _ _ H1). cbn [fst snd].
  split; [|reflexivity]. now rewrite append_text_same, H1, app_assoc_str.
Qed.

Lemma X12_write_to_config_file_twice_witness :
  snd (_write_to_config_file "/cstar/cstar_local_config.py" "    b = 2"
         (_write_to_config_file "/cstar/cstar_local_config.py" "    a = 1"
            ([], fun _ => None)))
      "/cstar/cstar_local_config.py"
  = Some (config_file_header ++ "    a = 1" ++ "    b = 2").
Proof.
  exact (proj1 (X12_write_to_config_file_twice
                  "/cstar/cstar_local_config.py" "    a = 1" "    b = 2"
                  [] (fun _ => None) eq_refl)).
Defined.

(** ** [_dict_to_tree] *)

(** Induction on nested dictionaries. *)
Lemma pyval_nested_ind (P : pyval -> Prop) :
  (forall d, Forall (fun kv => P (snd kv)) d -> P (PDict d)) ->
  (forall l, P (PList l)) ->
  P POther ->
  forall v, P v.
Proof.
  intros HD HL HO. fix IH 1. intros [d|l|].
  - apply HD. induction d as [|[k v] d IHd]; constructor; [apply IH|exact IHd].
  - apply HL.
  - exact HO.
Qed.

Lemma render_lines_cons prefix body bodies :
  render_lines prefix (body :: bodies)
  = (prefix ++ body ++ PyStr.nl) ++ render_lines prefix bodies.
Proof.
  unfold render_lines. cbn [map String.concat].
  destruct bodies as [|b bodies]; cbn [map]; [now rewrite app_nil_r_str|reflexivity].
Qed.

Lemma render_lines_app prefix bs1 bs2 :
  render_lines prefix (bs1 ++ bs2)%list
  = render_lines prefix bs1 ++ render_lines prefix bs2.
Proof.
  induction bs1 as [|b bs1 IH]; [reflexivity|].
  cbn [app]. now rewrite !render_lines_cons, IH, !app_assoc_str.
Qed.

Lemma render_lines_deeper prefix sub bodies :
  render_lines (prefix ++ sub) bodies
  = render_lines prefix (map (fun body => sub ++ body) bodies).
Proof.
  induction bodies as [|b bodies IH]; [reflexivity|].
  cbn [map]. now rewrite !render_lines_cons, IH, !app_assoc_str.
Qed.

Lemma tree_items_lines items : forall j len sub,
  exists bodies,
    List.length bodies = List.length items /\
    forall prefix, tree_items items j len prefix sub = render_lines prefix bodies.
Proof.
  induction items as [|item items IH]; intros j len sub.
  - exists []. split; reflexivity.
  - destruct (IH (j + 1) len sub) as (bodies & Hlen & Hb).
    exists ((sub ++ (if j =? len - 1 then box_elbow else box_tee) ++ item) :: bodies).
    split; [cbn; now rewrite Hlen|].
    intros prefix. cbn [tree_items]. rewrite render_lines_cons, Hb.
    now rewrite !app_assoc_str.
Qed.

Lemma tree_entries_lines d :
  Forall (fun kv =>
            exists bodies,
              List.length bodies = tree_size (snd kv) /\
              forall prefix, dict_to_tree_of (snd kv) prefix = render_lines prefix bodies) d ->
  forall i len,
  exists bodies,
    List.length bodies = tree_size (PDict d) /\
    forall prefix, tree_entries dict_to_tree_of d i len prefix = render_lines prefix bodies.
Proof.
  induction 1 as [|[key value] d Hv _ IH]; intros i len.
  - exists []. split; reflexivity.
  - destruct (IH (i + 1) len) as (rest & Hrest & Hr).
    set (branch := if i =? len - 1 then box_elbow else box_tee).
    set (sub := if i =? len - 1 then box_gap else box_bar).
    cbn [snd] in Hv. destruct value as [d'|l|].
    + destruct Hv as (inner & Hin & Hi).
      exists (((branch ++ key)%string :: map (fun body => (sub ++ body)%string) inner) ++ rest)%list.
      split.
      * rewrite length_app. cbn [List.length]. rewrite length_map, Hin, Hrest.
        reflexivity.
      * intros prefix. cbn [tree_entries]. fold branch. fold sub.
        rewrite render_lines_app, render_lines_cons, <- render_lines_deeper, Hi, Hr.
        now rewrite !app_assoc_str.
    + destruct (tree_items_lines l 0 (Z.of_nat (List.length l)) sub) as (inner & Hin & Hi).
      exists (((branch ++ key)%string :: inner) ++ rest)%list.
      split.
      * rewrite length_app. cbn [List.length]. rewrite Hin, Hrest. reflexivity.
      * intros prefix. cbn [tree_entries]. fold branch. fold sub.
        rewrite render_lines_app, render_lines_cons, Hi, Hr.
        now rewrite !app_assoc_str.
    + exists rest. split; [exact Hrest|].
      intros prefix. cbn [tree_entries]. apply Hr.
Qed.

(** X13: the tree of a dictionary has one line for each key that holds a
    dictionary or a list and one for each item of a list, at every depth; a
    key that holds anything else gives no line.  Every line begins with
    [prefix] and ends with a newline, and what follows [prefix] on a line
    does not depend on [prefix]. *)
Theorem X13_dict_to_tree_lines (input_dict : list (string * pyval)) :
  exists bodies,
    List.length bodies = tree_size (PDict input_dict) /\
    forall prefix, _dict_to_tree input_dict prefix = render_lines prefix bodies.
Proof.
  unfold _dict_to_tree.
  induction (PDict input_dict) as [d IH|l|] using pyval_nested_ind.
  - cbn [dict_to_tree_of]. now apply tree_entries_lines.
  - exists []. split; reflexivity.
  - exists []. split; reflexivity.
Qed.

Lemma tree_items_connectors items last sub : forall j prefix,
  tree_items (items ++ [last]) j (j + Z.of_nat (List.length items) + 1) prefix sub
  = render_lines prefix
      (List.app (map (fun item => sub ++ box_tee ++ item) items)
                [sub ++ box_elbow ++ last]).
Proof.
  induction items as [|item items IH]; intros j prefix;
    cbn [app tree_items List.length map].
  - destruct (Z.eqb_spec j (j + Z.of_nat 0 + 1 - 1)); [|lia].
    unfold render_lines. cbn [map String.concat]. now rewrite !app_assoc_str.
  - destruct (Z.eqb_spec j (j + Z.of_nat (S (List.length items)) + 1 - 1)); [lia|].
    replace (j + Z.of_nat (S (List.length items)) + 1)
      with (j + 1 + Z.of_nat (List.length items) + 1) by lia.
    now rewrite IH, render_lines_cons, !app_assoc_str.
Qed.

(** X14: a dictionary with one key that holds a non-empty list is drawn with
    the key behind the last-entry connector, its items four spaces deeper,
    every item but the last behind the middle connector.  When a second key
    follows whose value is neither a dictionary nor a list, that key is not
    drawn, yet the first key and its items are drawn as not being last. *)
Theorem X14_dict_to_tree_connectors
    (key other : string) (items : list string) (last prefix : string) :
  _dict_to_tree [(key, PList (items ++ [last]))] prefix
  = render_lines prefix
      ((box_elbow ++ key)
       :: List.app (map (fun item => box_gap ++ box_tee ++ item) items)
                   [box_gap ++ box_elbow ++ last]) /\
  _dict_to_tree [(key, PList (items ++ [last])); (other, POther)] prefix
  = render_lines prefix
      ((box_tee ++ key)
       :: List.app (map (fun item => box_bar ++ box_tee ++ item) items)
                   [box_bar ++ box_elbow ++ last]).
Proof.
  assert (Hlen : Z.of_nat (List.length (items ++ [last]))
                 = 0 + Z.of_nat (List.length items) + 1).
  { rewrite length_app. cbn [List.length]. lia. }
  unfold _dict_to_tree. cbn [dict_to_tree_of tree_entries List.length Z.of_nat].
  rewrite Hlen, !tree_items_connectors, !render_lines_cons.
  cbn [Z.eqb Z.sub Z.add Z.opp Z.pos_sub Pos.of_succ_nat Pos.succ].
  now rewrite !app_nil_r_str, !app_assoc_str.
Qed.

(** ** [_clone_and_checkout], further *)

(** X21: [_clone_and_checkout] only adds to the trace, and runs nothing but
    the clone, in the caller's directory, and the checkout, in [local_path];
    when it returns, the trace holds the clone, its message, the checkout and
    its message, in this order. *)
Theorem X21_clone_and_checkout_trace
    (sh : shell) (source_repo local_path checkout_target : string)
    (t0 : list event) :
  let clone_cmd := "git clone " ++ source_repo ++ " " ++ local_path in
  let checkout_cmd := "git checkout " ++ checkout_target in
  let out := _clone_and_checkout sh source_repo local_path checkout_target t0 in
  exists events,
    fst out = (t0 ++ events)%list /\
    (forall cmd cwd, In (Run cmd cwd) events ->
       (cmd = clone_cmd /\ cwd = None) \/
       (cmd = checkout_cmd /\ cwd = Some local_path)) /\
    (snd out = Ok tt ->
     events =
       [Run clone_cmd None;
        Print ("Cloned repository " ++ source_repo ++ " to " ++ local_path);
        Run checkout_cmd (Some local_path);
        Print ("Checked out " ++ checkout_target ++ " in git repository "
               ++ local_path)]).
Proof.
  intros clone_cmd checkout_cmd out. unfold out, _clone_and_checkout.
  unfold io_bind, subprocess_run, print, io_raise. fold clone_cmd checkout_cmd.
  destruct (returncode (sh t0 clone_cmd None) =? 0); cbn [negb fst snd].
  - match goal with
    | |- context [cwd_error sh ?t ?d] => destruct (cwd_error sh t d)
    end;
    [|match goal with
      | |- context [returncode ?r =? 0] => destruct (returncode r =? 0)
      end];
    cbn [negb fst snd]; rewrite <- ?app_assoc; cbn [app];
    eexists; (split; [reflexivity|]); split;
      try (intros Hok; first [reflexivity | discriminate Hok]);
      intros cmd cwd Hin; cbn [In] in Hin;
      repeat match goal with
             | H : _ \/ _ |- _ => destruct H
             | H : False |- _ => destruct H
             | H : Run _ _ = Run _ _ |- _ => injection H as <- <-
             | H : Print _ = Run _ _ |- _ => discriminate H
             end; auto.
  - eexists; (split; [reflexivity|]); split; [|intros Hok; discriminate Hok].
    intros cmd cwd [Hin|[]]. injection Hin as <- <-. auto.
Qed.

(** ** The module [cstar/base/environment.py] *)

Lemma dict_get_set_same d k v : dict_get (dict_set d k v) k = Some v.
Proof.
  induction d as [|[k' v'] d IH]; cbn [dict_set dict_get].
  - now rewrite String.eqb_refl.
  - destruct (String.eqb_spec k' k) as [->|Hn]; cbn [dict_get].
    + now rewrite String.eqb_refl.
    + destruct (String.eqb_spec k' k); [contradiction|exact IH].
Qed.

Lemma dict_get_set_other d k v k0 :
  k0 <> k -> dict_get (dict_set d k v) k0 = dict_get d k0.
Proof.
  intros Hk. induction d as [|[k' v'] d IH]; cbn [dict_set dict_get].
  - destruct (String.eqb_spec k k0); [congruence|reflexivity].
  - destruct (String.eqb_spec k' k) as [->|Hn]; cbn [dict_get].
    + destruct (String.eqb_spec k k0); [congruence|reflexivity].
    + destruct (String.eqb_spec k' k0); [reflexivity|exact IH].
Qed.

Lemma dict_get_in d k v : dict_get d k = Some v -> In (k, v) d.
Proof.
  induction d as [|[k' v'] d IH]; cbn [dict_get]; [discriminate|].
  destruct (String.eqb_spec k' k) as [->|Hn].
  - intros H. injection H as ->. now left.
  - intros H. right. now apply IH.
Qed.


(** The export loop leaves the other variables of the environment alone. *)
Lemma export_variables_other vars : forall environ k,
  dict_get vars k = None ->
  dict_get (export_variables vars environ) k = dict_get environ k.
Proof.
  unfold export_variables.
  induction vars as [|[k' v'] vars IH]; intros environ k Hget;
    cbn [dict_get fold_left fst snd] in *; [reflexivity|].
  destruct (String.eqb_spec k' k) as [->|Hn]; [discriminate|].
  rewrite IH by exact Hget. apply dict_get_set_other. congruence.
Qed.

(** The export loop leaves in the environment the value of each variable. *)
Lemma export_variables_get vars : forall environ k v,
  NoDup (map fst vars) -> dict_get vars k = Some v ->
  dict_get (export_variables vars environ) k = Some v.
Proof.
  induction vars as [|[k' v'] vars IH]; intros environ k v Hnd Hget;
    cbn [dict_get map fst] in *; [discriminate|].
  inversion Hnd as [|x l Hnotin Hnd']; subst.
  change (export_variables ((k', v') :: vars) environ)
    with (export_variables vars (dict_set environ k' v')).
  destruct (String.eqb_spec k' k) as [->|Hn].
  - injection Hget as ->.
    rewrite export_variables_other; [apply dict_get_set_same|].
    destruct (dict_get vars k) as [w|] eqn:E; [|reflexivity].
    exfalso. apply Hnotin. apply dict_get_in in E.
    change k with (fst (k, w)). now apply in_map.
  - now apply IH.
Qed.

Ltac split_dict_items :=
  repeat match goal with
  | H : context [dict_item] |- _ => unfold dict_item in H
  | H : context [match dict_get ?d ?k with _ => _ end] |- _ =>
      destruct (dict_get d k) eqn:?; cbn [env_bind] in H
  end.

Ltac solve_branch :=
  repeat split; cbn;
  try discriminate;
  try (repeat constructor; cbn; intuition discriminate).

Lemma case_expanse_invariant environ vars s :
  case_expanse environ [] = Done (vars, s) -> branch_invariant vars s.
Proof.
  unfold case_expanse. intros H. split_dict_items; try discriminate.
  cbn in H. injection H as <- <-. solve_branch.
Qed.

Lemma case_derecho_invariant environ vars s :
  case_derecho environ [] = Done (vars, s) -> branch_invariant vars s.
Proof.
  unfold case_derecho, extended_path. intros H. split_dict_items; try discriminate.
  cbn in H. injection H as <- <-. solve_branch.
Qed.

Lemma case_perlmutter_invariant environ vars s :
  case_perlmutter environ [] = Done (vars, s) -> branch_invariant vars s.
Proof.
  unfold case_perlmutter, extended_path. intros H.
  cbn in H. injection H as <- <-. solve_branch.
Qed.

Lemma case_osx_arm64_invariant h environ vars s :
  case_osx_arm64 h environ [] = Done (vars, s) -> branch_invariant vars s.
Proof.
  unfold case_osx_arm64, extended_path. intros H. split_dict_items; try discriminate.
  cbn in H. injection H as <- <-. solve_branch.
Qed.

Lemma case_linux_x86_64_invariant h environ vars s :
  case_linux_x86_64 h environ [] = Done (vars, s) -> branch_invariant vars s.
Proof.
  unfold case_linux_x86_64, extended_path. intros H. split_dict_items; try discriminate.
  cbn in H. injection H as <- <-. solve_branch.
Qed.

Lemma with_settings_done environ r environ' vars set :
  with_settings environ r = Done (environ', vars, set) ->
  exists s, r = Done (vars, s) /\ set = Some s /\ environ' = environ.
Proof.
  unfold with_settings. destruct r as [[v s]|e]; cbn; [|discriminate].
  intros H. injection H as <- <- <-. now exists s.
Qed.

(** The branches either set nothing or establish the invariant. *)
Lemma detect_host_invariant h environ environ' vars set :
  detect_host h environ [] = Done (environ', vars, set) ->
  (set = None /\ vars = []) \/
  (exists s, set = Some s /\ branch_invariant vars s).
Proof.
  unfold detect_host, case_lmod. intros H.
  destruct (String.eqb (platform_system h) "Linux" && dict_has environ "LMOD_DIR").
  - destruct (import_env_modules h); cbn [env_bind] in H; [discriminate|].
    destruct (get_or _ _) as [[|c name]|]; try discriminate.
    destruct (load_modules h (String c name) environ) as [env2|]; cbn [env_bind] in H;
      [|discriminate].
    destruct (String.eqb (String c name) "expanse");
      [apply with_settings_done in H; destruct H as (s & H & -> & _); right;
       exists s; split; [reflexivity|now apply case_expanse_invariant in H]|].
    destruct (String.eqb (String c name) "derecho");
      [apply with_settings_done in H; destruct H as (s & H & -> & _); right;
       exists s; split; [reflexivity|now apply case_derecho_invariant in H]|].
    destruct (String.eqb (String c name) "perlmutter");
      [apply with_settings_done in H; destruct H as (s & H & -> & _); right;
       exists s; split; [reflexivity|now apply case_perlmutter_invariant in H]|].
    injection H as _ <- <-. now left.
  - destruct (String.eqb (platform_system h) "Darwin" && String.eqb (platform_machine h) "arm64");
      [apply with_settings_done in H; destruct H as (s & H & -> & _); right;
       exists s; split; [reflexivity|now apply case_osx_arm64_invariant in H]|].
    destruct (String.eqb (platform_system h) "Linux" && String.eqb (platform_machine h) "x86_64"
              && negb (dict_has environ "LMOD_DIR"));
      [apply with_settings_done in H; destruct H as (s & H & -> & _); right;
       exists s; split; [reflexivity|now apply case_linux_x86_64_invariant in H]|].
    injection H as _ <- <-. now left.
Qed.

(** How a completed run of the script is put together. *)
Lemma environment_module_done h root environ st :
  environment_module h root environ = Done st ->
  exists environ1 vars1 environ2,
    detect_host h environ [] = Done (environ1, vars1, settings st) /\
    match user_environment h (root ++ "/cstar_local_config.py") with
    | Some f => f (vars1, environ1)
    | None => Done (vars1, environ1)
    end = Done (_CSTAR_ENVIRONMENT_VARIABLES st, environ2) /\
    os_environ st = export_variables (_CSTAR_ENVIRONMENT_VARIABLES st) environ2.
Proof.
  unfold environment_module. intros H.
  destruct (detect_host h environ []) as [[[environ1 vars1] set]|]; cbn [env_bind] in H;
    [|discriminate].
  destruct (match user_environment h (root ++ "/cstar_local_config.py") with
            | Some f => f (vars1, environ1)
            | None => Done (vars1, environ1)
            end) as [[vars2 environ2]|] eqn:E; cbn [env_bind] in H; [|discriminate].
  injection H as <-. cbn [settings _CSTAR_ENVIRONMENT_VARIABLES os_environ fst snd].
  now exists environ1, vars1, environ2.
Qed.

Lemma detect_host_conda (h : host) (environ : dict) :
  (platform_system h = "Darwin" /\ platform_machine h = "arm64") \/
  (platform_system h = "Linux" /\ platform_machine h = "x86_64" /\
   dict_has environ "LMOD_DIR" = false) ->
  detect_host h environ [] = with_settings environ (case_osx_arm64 h environ []) \/
  detect_host h environ [] = with_settings environ (case_linux_x86_64 h environ []).
Proof.
  unfold detect_host. intros [[-> ->]|(-> & -> & ->)]; [left|right]; reflexivity.
Qed.

(** X15: on macOS/arm64, and on Linux/x86_64 without Lmod, the script needs
    [CONDA_PREFIX]: without it the import fails with [KeyError]; with it, and
    no user configuration file, [MPIHOME] and [NETCDFHOME] are set to it,
    [LD_LIBRARY_PATH] gets [":" + CONDA_PREFIX + "/lib"] added at its end (so
    it starts with a colon when it was unset), no scheduler is set and the
    cores per node are [os.cpu_count()]. *)
Theorem X15_conda_platforms (h : host) (root : string) (environ : dict) :
  (platform_system h = "Darwin" /\ platform_machine h = "arm64") \/
  (platform_system h = "Linux" /\ platform_machine h = "x86_64" /\
   dict_has environ "LMOD_DIR" = false) ->
  (dict_get environ "CONDA_PREFIX" = None ->
   environment_module h root environ = Failed (KeyError "CONDA_PREFIX")) /\
  (forall conda_prefix,
     dict_get environ "CONDA_PREFIX" = Some conda_prefix ->
     user_environment h (root ++ "/cstar_local_config.py") = None ->
     exists st s,
       environment_module h root environ = Done st /\
       dict_get (os_environ st) "MPIHOME" = Some conda_prefix /\
       dict_get (os_environ st) "NETCDFHOME" = Some conda_prefix /\
       dict_get (os_environ st) "LD_LIBRARY_PATH"
         = Some (dict_get_default environ "LD_LIBRARY_PATH" ++ ":" ++ conda_prefix ++ "/lib") /\
       settings st = Some s /\
       _CSTAR_COMPILER s = "gnu" /\
       _CSTAR_SCHEDULER s = None /\
       _CSTAR_SYSTEM_CORES_PER_NODE s = os_cpu_count h).
Proof.
  intros Hplat. split.
  - intros Hnone. unfold environment_module.
    destruct (detect_host_conda h environ Hplat) as [-> | ->];
      unfold with_settings, case_osx_arm64, case_linux_x86_64, dict_item;
      now rewrite Hnone.
  - intros p Hp Huser. unfold environment_module. rewrite Huser.
    destruct (detect_host_conda h environ Hplat) as [-> | ->];
      unfold with_settings, case_osx_arm64, case_linux_x86_64, extended_path, dict_item;
      rewrite Hp; cbn [env_bind dict_set dict_get String.eqb Ascii.eqb Bool.eqb fst snd];
      eexists; eexists; (split; [reflexivity|]);
      cbn [os_environ settings export_variables fold_left fst snd];
      repeat split;
      repeat (first [ rewrite dict_get_set_same; reflexivity
                    | rewrite dict_get_set_other by discriminate ]).
Qed.

Lemma X15_conda_platforms_witness :
  ((platform_system (plain_host "Darwin" "arm64" (Some 8)) = "Darwin" /\
    platform_machine (plain_host "Darwin" "arm64" (Some 8)) = "arm64") \/
   (platform_system (plain_host "Darwin" "arm64" (Some 8)) = "Linux" /\
    platform_machine (plain_host "Darwin" "arm64" (Some 8)) = "x86_64" /\
    dict_has [("HOME", "/Users/me")] "LMOD_DIR" = false)) /\
  environment_module (plain_host "Darwin" "arm64" (Some 8)) "/cstar"
    [("HOME", "/Users/me")]
  = Failed (KeyError "CONDA_PREFIX").
Proof.
  assert (P : (platform_system (plain_host "Darwin" "arm64" (Some 8)) = "Darwin" /\
               platform_machine (plain_host "Darwin" "arm64" (Some 8)) = "arm64") \/
              (platform_system (plain_host "Darwin" "arm64" (Some 8)) = "Linux" /\
               platform_machine (plain_host "Darwin" "arm64" (Some 8)) = "x86_64" /\
               dict_has [("HOME", "/Users/me")] "LMOD_DIR" = false)).
  { left. split; reflexivity. }
  split; [exact P|].
  exact (proj1 (X15_conda_platforms (plain_host "Darwin" "arm64" (Some 8)) "/cstar"
                  [("HOME", "/Users/me")] P) eq_refl).
Defined.

(** X16: without a user configuration file, whenever the script completes
    with the host settings bound, [MPIHOME] and [NETCDFHOME] are in
    [_CSTAR_ENVIRONMENT_VARIABLES] and the process environment holds the same
    values for them. *)
Theorem X16_mpi_and_netcdf_exported
    (h : host) (root : string) (environ : dict) (st : module_state) :
  user_environment h (root ++ "/cstar_local_config.py") = None ->
  environment_module h root environ = Done st ->
  settings st <> None ->
  exists mpi netcdf,
    dict_get (_CSTAR_ENVIRONMENT_VARIABLES st) "MPIHOME" = Some mpi /\
    dict_get (os_environ st) "MPIHOME" = Some mpi /\
    dict_get (_CSTAR_ENVIRONMENT_VARIABLES st) "NETCDFHOME" = Some netcdf /\
    dict_get (os_environ st) "NETCDFHOME" = Some netcdf.
Proof.
  intros Huser Hdone Hset.
  destruct (environment_module_done _ _ _ _ Hdone) as (e1 & v1 & e2 & Hd & Hu & Hos).
  rewrite Huser in Hu. injection Hu as Ev Ee. subst v1 e2.
  destruct (detect_host_invariant _ _ _ _ _ Hd) as [[Hn _]|(s & Hs & _ & Hnd & Hm & Hn)].
  - exfalso. exact (Hset Hn).
  - destruct (dict_get (_CSTAR_ENVIRONMENT_VARIABLES st) "MPIHOME") as [mpi|] eqn:Em;
      [|exfalso; now apply Hm].
    destruct (dict_get (_CSTAR_ENVIRONMENT_VARIABLES st) "NETCDFHOME") as [netcdf|] eqn:En;
      [|exfalso; now apply Hn].
    exists mpi, netcdf. rewrite Hos.
    split; [reflexivity|]. split; [now apply export_variables_get|].
    split; [reflexivity|]. now apply export_variables_get.
Qed.

Lemma X16_mpi_and_netcdf_exported_witness :
  exists mpi netcdf,
    dict_get [("MPIHOME", "/conda"); ("NETCDFHOME", "/conda");
              ("LD_LIBRARY_PATH", ":/conda/lib")] "MPIHOME" = Some mpi /\
    dict_get [("CONDA_PREFIX", "/conda"); ("MPIHOME", "/conda");
              ("NETCDFHOME", "/conda"); ("LD_LIBRARY_PATH", ":/conda/lib")] "MPIHOME"
      = Some mpi /\
    dict_get [("MPIHOME", "/conda"); ("NETCDFHOME", "/conda");
              ("LD_LIBRARY_PATH", ":/conda/lib")] "NETCDFHOME" = Some netcdf /\
    dict_get [("CONDA_PREFIX", "/conda"); ("MPIHOME", "/conda");
              ("NETCDFHOME", "/conda"); ("LD_LIBRARY_PATH", ":/conda/lib")] "NETCDFHOME"
      = Some netcdf.
Proof.
  exact (X16_mpi_and_netcdf_exported
           (plain_host "Linux" "x86_64" (Some 8)) "/cstar" [("CONDA_PREFIX", "/conda")]
           _ eq_refl eq_refl ltac:(discriminate)).
Defined.

(** X17: a host that meets no branch of the script (not Linux with Lmod, not
    macOS on arm64, not Linux on x86_64) raises no error: without a user
    configuration file the script completes with the seven settings unbound,
    an empty [_CSTAR_ENVIRONMENT_VARIABLES] and the environment as it
    was. *)
Theorem X17_unknown_host_is_silent (h : host) (root : string) (environ : dict) :
  user_environment h (root ++ "/cstar_local_config.py") = None ->
  ~ (platform_system h = "Linux" /\ dict_has environ "LMOD_DIR" = true) ->
  ~ (platform_system h = "Darwin" /\ platform_machine h = "arm64") ->
  ~ (platform_system h = "Linux" /\ platform_machine h = "x86_64") ->
  environment_module h root environ
  = Done {| os_environ := environ;
            _CSTAR_ENVIRONMENT_VARIABLES := [];
            settings := None |}.
Proof.
  intros Huser H1 H2 H3. unfold environment_module, detect_host.
  destruct (String.eqb_spec (platform_system h) "Linux") as [El|El];
    destruct (dict_has environ "LMOD_DIR") eqn:Ed; cbn [andb negb];
    try (exfalso; apply H1; now split).
  - destruct (String.eqb_spec (platform_system h) "Darwin") as [Edw|_];
      [congruence|]. cbn [andb].
    destruct (String.eqb_spec (platform_machine h) "x86_64") as [Em|_];
      [exfalso; apply H3; now split|].
    cbn [env_bind]. now rewrite Huser.
  - destruct (String.eqb_spec (platform_system h) "Darwin") as [Edw|_];
      destruct (String.eqb_spec (platform_machine h) "arm64") as [Ea|_];
      cbn [andb]; try (exfalso; apply H2; now split);
      cbn [env_bind]; now rewrite Huser.
  - destruct (String.eqb_spec (platform_system h) "Darwin") as [Edw|_];
      destruct (String.eqb_spec (platform_machine h) "arm64") as [Ea|_];
      cbn [andb]; try (exfalso; apply H2; now split);
      cbn [env_bind]; now rewrite Huser.
Qed.

Lemma X17_unknown_host_is_silent_witness :
  environment_module (plain_host "Linux" "aarch64" (Some 64)) "/cstar"
    [("CONDA_PREFIX", "/conda")]
  = Done {| os_environ := [("CONDA_PREFIX", "/conda")];
            _CSTAR_ENVIRONMENT_VARIABLES := [];
            settings := None |}.
Proof.
  apply (X17_unknown_host_is_silent
           (plain_host "Linux" "aarch64" (Some 64)) "/cstar"
           [("CONDA_PREFIX", "/conda")] eq_refl).
  - intros [_ H]. discriminate H.
  - intros [H _]. discriminate H.
  - intros [_ H]. discriminate H.
Defined.

(** X18: when the script completes, whatever the user's configuration did,
    done to [_CSTAR_ENVIRONMENT_VARIABLES] and to the process environment,
    the process environment holds every variable of
    [_CSTAR_ENVIRONMENT_VARIABLES] with its value (the keys of the dictionary
    being distinct). *)
Theorem X18_variables_exported
    (h : host) (root : string) (environ : dict) (st : module_state) :
  environment_module h root environ = Done st ->
  NoDup (map fst (_CSTAR_ENVIRONMENT_VARIABLES st)) ->
  forall var value,
    dict_get (_CSTAR_ENVIRONMENT_VARIABLES st) var = Some value ->
    dict_get (os_environ st) var = Some value.
Proof.
  intros Hdone Hnd var value Hget.
  destruct (environment_module_done _ _ _ _ Hdone) as (e1 & v1 & e2 & _ & _ & Hos).
  rewrite Hos. now apply export_variables_get.
Qed.

Lemma X18_variables_exported_witness :
  dict_get [("CONDA_PREFIX", "/conda"); ("MPIHOME", "/conda");
            ("NETCDFHOME", "/conda"); ("LD_LIBRARY_PATH", ":/conda/lib")]
           "LD_LIBRARY_PATH"
  = Some ":/conda/lib".
Proof.
  refine (X18_variables_exported
            (plain_host "Linux" "x86_64" (Some 8)) "/cstar" [("CONDA_PREFIX", "/conda")]
            _ eq_refl _ "LD_LIBRARY_PATH" ":/conda/lib" eq_refl).
  repeat constructor; cbn; intuition discriminate.
Defined.

(** X19: on Linux with Lmod, an error of the import of [env_modules_python]
    ends the script; after that import, when both [LMOD_SYSHOST] and
    [LMOD_SYSTEM_NAME] are unset or empty, the script raises
    [EnvironmentError] and loads no module. *)
Theorem X19_lmod_system_name_required (h : host) (root : string) (environ : dict) :
  platform_system h = "Linux" -> dict_has environ "LMOD_DIR" = true ->
  (forall e, import_env_modules h = Some e ->
     environment_module h root environ = Failed e) /\
  (import_env_modules h = None ->
   (dict_get environ "LMOD_SYSHOST" = None \/ dict_get environ "LMOD_SYSHOST" = Some "") ->
   (dict_get environ "LMOD_SYSTEM_NAME" = None \/
    dict_get environ "LMOD_SYSTEM_NAME" = Some "") ->
   environment_module h root environ
   = Failed (EnvironmentError
               "unable to find LMOD_SYSHOST or LMOD_SYSTEM_NAME in environment. Your system may be unsupported")).
Proof.
  intros Hl Hd. unfold environment_module, detect_host, case_lmod.
  rewrite Hl, Hd. cbn [String.eqb Ascii.eqb Bool.eqb andb]. split.
  - intros e He. now rewrite He.
  - intros Hi [Hs|Hs] [Hn|Hn]; rewrite Hi, Hs, Hn; reflexivity.
Qed.

Lemma X19_lmod_system_name_required_witness :
  platform_system (plain_host "Linux" "x86_64" (Some 128)) = "Linux" /\
  dict_has [("LMOD_DIR", "/opt/lmod"); ("LMOD_SYSHOST", "")] "LMOD_DIR" = true /\
  environment_module (plain_host "Linux" "x86_64" (Some 128)) "/cstar"
    [("LMOD_DIR", "/opt/lmod"); ("LMOD_SYSHOST", "")]
  = Failed (EnvironmentError
              "unable to find LMOD_SYSHOST or LMOD_SYSTEM_NAME in environment. Your system may be unsupported").
Proof.
  split; [reflexivity|]. split; [reflexivity|].
  apply (proj2 (X19_lmod_system_name_required
                  (plain_host "Linux" "x86_64" (Some 128)) "/cstar"
                  [("LMOD_DIR", "/opt/lmod"); ("LMOD_SYSHOST", "")] eq_refl eq_refl));
    [reflexivity|right; reflexivity|left; reflexivity].
Defined.

(** X20: the host settings the script binds go together, on every host and
    for every user configuration acting on [_CSTAR_ENVIRONMENT_VARIABLES] and
    the process environment: with a scheduler come 128 cores
    per node, a default partition, a memory size and a maximal wall time;
    without a scheduler, none of these three is set. *)
Theorem X20_settings_consistent
    (h : host) (root : string) (environ : dict) (st : module_state) (s : host_settings) :
  environment_module h root environ = Done st ->
  settings st = Some s ->
  settings_consistent s.
Proof.
  intros Hdone Hs.
  destruct (environment_module_done _ _ _ _ Hdone) as (e1 & v1 & e2 & Hd & _ & _).
  destruct (detect_host_invariant _ _ _ _ _ Hd) as [[Hn _]|(s' & Hs' & Hc & _)].
  - congruence.
  - rewrite Hs in Hs'. injection Hs' as <-. exact Hc.
Qed.

Lemma X20_settings_consistent_witness :
  settings_consistent
    {| _CSTAR_COMPILER := "gnu";
       _CSTAR_SYSTEM := "perlmutter";
       _CSTAR_SCHEDULER := Some "slurm";
       _CSTAR_SYSTEM_DEFAULT_PARTITION := Some "regular";
       _CSTAR_SYSTEM_CORES_PER_NODE := Some 128;
       _CSTAR_SYSTEM_MEMGB_PER_NODE := Some 512;
       _CSTAR_SYSTEM_MAX_WALLTIME := Some "24:00:00" |}.
Proof.
  exact (X20_settings_consistent
           (plain_host "Linux" "x86_64" (Some 128)) "/cstar"
           [("LMOD_DIR", "/opt/lmod"); ("LMOD_SYSHOST", "perlmutter")]
           _ _ eq_refl eq_refl).
Defined.

(** X22: what the three Lmod systems need, with [LMOD_SYSHOST] naming the
    system and the modules loaded.  The variables are read from the
    environment as the modules left it.  On expanse a missing
    [NETCDF_FORTRANHOME] or [MVAPICH2HOME], and on derecho a missing [NETCDF],
    end the import with [KeyError]; with both present expanse sets four
    variables from them; perlmutter reads no required variable and always
    completes, adding the NetCDF directories to [PATH] and the library
    paths. *)
Theorem X22_lmod_systems
    (h : host) (root : string) (environ loaded : dict) (sysname : string) :
  platform_system h = "Linux" -> dict_has environ "LMOD_DIR" = true ->
  import_env_modules h = None ->
  dict_get environ "LMOD_SYSHOST" = Some sysname ->
  load_modules h sysname environ = Done loaded ->
  user_environment h (root ++ "/cstar_local_config.py") = None ->
  (sysname = "expanse" ->
   (dict_get loaded "NETCDF_FORTRANHOME" = None ->
    environment_module h root environ = Failed (KeyError "NETCDF_FORTRANHOME")) /\
   (dict_get loaded "NETCDF_FORTRANHOME" <> None ->
    dict_get loaded "MVAPICH2HOME" = None ->
    environment_module h root environ = Failed (KeyError "MVAPICH2HOME")) /\
   (forall netcdf mpi,
      dict_get loaded "NETCDF_FORTRANHOME" = Some netcdf ->
      dict_get loaded "MVAPICH2HOME" = Some mpi ->
      exists st,
        environment_module h root environ = Done st /\
        _CSTAR_ENVIRONMENT_VARIABLES st
        = [("NETCDFHOME", netcdf); ("MPIHOME", mpi);
           ("NETCDF", netcdf); ("MPI_ROOT", mpi)])) /\
  (sysname = "derecho" ->
   dict_get loaded "NETCDF" = None ->
   environment_module h root environ = Failed (KeyError "NETCDF")) /\
  (sysname = "perlmutter" ->
   exists st,
     environment_module h root environ = Done st /\
     _CSTAR_ENVIRONMENT_VARIABLES st
     = [("MPIHOME", "/opt/cray/pe/mpich/8.1.28/ofi/gnu/12.3/");
        ("NETCDFHOME", "/opt/cray/pe/netcdf/4.9.0.9/gnu/12.3/");
        ("PATH", dict_get_default loaded "PATH"
                 ++ ":/opt/cray/pe/netcdf/4.9.0.9/gnu/12.3//bin");
        ("LD_LIBRARY_PATH", dict_get_default loaded "LD_LIBRARY_PATH"
                            ++ ":/opt/cray/pe/netcdf/4.9.0.9/gnu/12.3//lib");
        ("LIBRARY_PATH", dict_get_default loaded "LIBRARY_PATH"
                         ++ ":/opt/cray/pe/netcdf/4.9.0.9/gnu/12.3//lib")]).
Proof.
  intros Hl Hd Hi Hs Hload Huser.
  assert (Hrun : forall name, sysname = String (fst name) (snd name) ->
            detect_host h environ []
            = (environ' <-- Done loaded ;;
               if String.eqb sysname "expanse"
               then with_settings environ' (case_expanse environ' [])
               else if String.eqb sysname "derecho"
               then with_settings environ' (case_derecho environ' [])
               else if String.eqb sysname "perlmutter"
               then with_settings environ' (case_perlmutter environ' [])
               else Done (environ', [], None))).
  { intros [c name] E. cbn [fst snd] in E. unfold detect_host, case_lmod.
    rewrite Hl, Hd, Hi, Hs. cbn [String.eqb Ascii.eqb Bool.eqb andb env_bind].
    rewrite E in *. cbn [get_or]. now rewrite Hload. }
  unfold environment_module.
  split; [intros E; split; [|split]|split; intros E].
  - intros Hnone. rewrite (Hrun ("e"%char, "xpanse") E). subst sysname.
    cbn [env_bind String.eqb Ascii.eqb Bool.eqb].
    unfold with_settings, case_expanse, dict_item. now rewrite Hnone.
  - intros Hsome Hnone. rewrite (Hrun ("e"%char, "xpanse") E). subst sysname.
    cbn [env_bind String.eqb Ascii.eqb Bool.eqb].
    unfold with_settings, case_expanse, dict_item.
    destruct (dict_get loaded "NETCDF_FORTRANHOME"); [|congruence].
    cbn [env_bind]. now rewrite Hnone.
  - intros netcdf mpi Hn Hm. rewrite (Hrun ("e"%char, "xpanse") E). subst sysname.
    cbn [env_bind String.eqb Ascii.eqb Bool.eqb].
    unfold with_settings, case_expanse, dict_item. rewrite Hn, Hm.
    cbn [env_bind fst snd]. rewrite Huser. cbn [env_bind fst snd].
    eexists. split; reflexivity.
  - intros Hnone. rewrite (Hrun ("d"%char, "erecho") E). subst sysname.
    cbn [env_bind String.eqb Ascii.eqb Bool.eqb].
    unfold with_settings, case_derecho, dict_item. now rewrite Hnone.
  - rewrite (Hrun ("p"%char, "erlmutter") E). subst sysname.
    cbn [env_bind String.eqb Ascii.eqb Bool.eqb].
    unfold with_settings, case_perlmutter, extended_path, dict_item.
    cbn [dict_set dict_get String.eqb Ascii.eqb Bool.eqb env_bind fst snd].
    rewrite Huser. cbn [env_bind fst snd].
    eexists. split; reflexivity.
Qed.

Lemma X22_lmod_systems_witness :
  environment_module (plain_host "Linux" "x86_64" (Some 256)) "/cstar"
    [("LMOD_DIR", "/opt/lmod"); ("LMOD_SYSHOST", "derecho")]
  = Failed (KeyError "NETCDF").
Proof.
  exact (proj1 (proj2 (X22_lmod_systems
                         (plain_host "Linux" "x86_64" (Some 256)) "/cstar"
                         [("LMOD_DIR", "/opt/lmod"); ("LMOD_SYSHOST", "derecho")]
                         [("LMOD_DIR", "/opt/lmod"); ("LMOD_SYSHOST", "derecho")]
                         "derecho" eq_refl eq_refl eq_refl eq_refl eq_refl eq_refl))
               eq_refl eq_refl).
Defined.
